(** * OAuth 2.0 service core: a shallow embedding and its properties

    The development follows the layout of the repository:

    - [Js]: the JavaScript values the engine manipulates (records returned by
      the data-access Model, request parameters, Dates), with truthiness,
      property access and strict equality;
    - [Is]: the character-class validators of [lib/validator/is.js];
    - [Url]: the part of Node's [url] / [querystring] modules the response
      builders rely on;
    - the error taxonomy of [lib/errors];
    - an effect monad (state of the host, exceptions, trace of Model calls);
    - the grants and the endpoint handlers.

    Strings are byte strings (UTF-8).  Numbers are integers: the engine only
    computes on epoch milliseconds and lifetimes in seconds. *)

From Stdlib Require Import ZArith List Bool Lia.
From Stdlib Require Import Strings.String Strings.Ascii Numbers.DecimalString.
Import ListNotations.

Set Warnings "-register-all".

Open Scope string_scope.
Open Scope Z_scope.

(* ================================================================== *)
(** ** JavaScript values *)
(* ================================================================== *)

Module Js.

(** The values that flow through the engine.  [JDate t] is a [Date]
    instance holding [t] epoch milliseconds; [JObj] is a plain object
    whose own properties are kept in insertion order. *)
Inductive JsVal : Type :=
| JUndefined
| JNull
| JBool (b : bool)
| JNum (n : Z)
| JStr (s : string)
| JDate (t : Z)
| JArr (elems : list JsVal)
| JObj (props : list (string * JsVal)).

(** ToBoolean. *)
Definition truthy (v : JsVal) : bool :=
  match v with
  | JUndefined | JNull => false
  | JBool b => b
  | JNum n => negb (n =? 0)
  | JStr s => negb (s =? "")%string
  | JDate _ | JArr _ | JObj _ => true
  end.

(** [a || b] and [!a]. *)
Definition js_or (a b : JsVal) : JsVal := if truthy a then a else b.
Definition js_not (a : JsVal) : bool := negb (truthy a).

(** [value instanceof Date]. *)
Definition instanceofDate (v : JsVal) : bool :=
  match v with JDate _ => true | _ => false end.

(** Lookup of an own property in an insertion-ordered property list. *)
Fixpoint assoc (k : string) (props : list (string * JsVal)) : option JsVal :=
  match props with
  | [] => None
  | (k', v) :: rest => if (k' =? k)%string then Some v else assoc k rest
  end.

(** [obj[k] = v]: an existing key keeps its position, a new key is
    appended. *)
Fixpoint assoc_set (k : string) (v : JsVal) (props : list (string * JsVal))
  : list (string * JsVal) :=
  match props with
  | [] => [(k, v)]
  | (k', v') :: rest =>
      if (k' =? k)%string then (k, v) :: rest
      else (k', v') :: assoc_set k v rest
  end.

(** Strict equality [a === b].  Objects, arrays and Dates are compared by
    reference in JavaScript; references are not tracked here, so two such
    values are never reported equal.  Identifiers compared by the engine
    ([client.id]) are primitives. *)
Definition strict_eq (a b : JsVal) : bool :=
  match a, b with
  | JUndefined, JUndefined => true
  | JNull, JNull => true
  | JBool x, JBool y => Bool.eqb x y
  | JNum x, JNum y => (x =? y)
  | JStr x, JStr y => (x =? y)%string
  | _, _ => false
  end.

Definition Z_to_string (n : Z) : string :=
  NilEmpty.string_of_int (Z.to_int n).

Fixpoint join (sep : string) (l : list string) : string :=
  match l with
  | [] => ""
  | [s] => s
  | s :: rest => s ++ sep ++ join sep rest
  end.

(** ToString, where it does not depend on the host: the rendering of a
    Date through [Date.prototype.toString] depends on the time zone and is
    left out ([None]); so is an array holding one.  [Array.prototype.join]
    renders [undefined] and [null] elements as the empty string. *)
Fixpoint toStr (v : JsVal) : option string :=
  match v with
  | JUndefined => Some "undefined"
  | JNull => Some "null"
  | JBool true => Some "true"
  | JBool false => Some "false"
  | JNum n => Some (Z_to_string n)
  | JStr s => Some s
  | JDate _ => None
  | JArr l =>
      option_map (join ",")
        ((fix go (l : list JsVal) : option (list string) :=
            match l with
            | [] => Some []
            | x :: r =>
                match (match x with
                       | JUndefined | JNull => Some ""
                       | _ => toStr x
                       end), go r with
                | Some s, Some ss => Some (s :: ss)
                | _, _ => None
                end
            end) l)
  | JObj _ => Some "[object Object]"
  end.

End Js.

Export Js.

(* ================================================================== *)
(** ** Character-class validators ([lib/validator/is.js]) *)
(* ================================================================== *)

Module Is.

(** An item of a regular-expression character class: a single character,
    a range [lo-hi], or the class escape [\w]. *)
Inductive ClassItem : Type :=
| Chr (c : ascii)
| Range (lo hi : ascii)
| WordChar.

Definition in_range (lo hi c : ascii) : bool :=
  (nat_of_ascii lo <=? nat_of_ascii c)%nat
  && (nat_of_ascii c <=? nat_of_ascii hi)%nat.

(** [\w] in a pattern without the [i] and [u] flags: [[A-Za-z0-9_]]. *)
Definition word_char (c : ascii) : bool :=
  in_range "A" "Z" c || in_range "a" "z" c || in_range "0" "9" c
  || (c =? "_")%char.

Definition item_matches (i : ClassItem) (c : ascii) : bool :=
  match i with
  | Chr x => (c =? x)%char
  | Range lo hi => in_range lo hi c
  | WordChar => word_char c
  end.

Definition class_matches (cls : list ClassItem) (c : ascii) : bool :=
  existsb (fun i => item_matches i c) cls.

(** The two shapes of pattern the rules use. *)
Inductive RegExp : Type :=
| WholePlus (cls : list ClassItem)                 (* /^[cls]+$/ *)
| PrefixColon (first rest : list ClassItem).       (* /^[first][rest]+:/ *)

Fixpoint all_in (cls : list ClassItem) (s : string) : bool :=
  match s with
  | EmptyString => true
  | String c r => class_matches cls c && all_in cls r
  end.

(** [[rest]+:] at the start of [s]; [seen] records that at least one
    character of the class was consumed.  The colon is not in the class,
    so the greedy [+] never has to give a character back. *)
Fixpoint plus_then_colon (rest : list ClassItem) (seen : bool) (s : string)
  : bool :=
  match s with
  | EmptyString => false
  | String c r =>
      if class_matches rest c then plus_then_colon rest true r
      else seen && (c =? ":")%char
  end.

Definition matches (re : RegExp) (s : string) : bool :=
  match re with
  | WholePlus cls =>
      match s with
      | EmptyString => false
      | String _ _ => all_in cls s
      end
  | PrefixColon first rest =>
      match s with
      | EmptyString => false
      | String c r => class_matches first c && plus_then_colon rest false r
      end
  end.

(** [RegExp.prototype.test(value)] converts its argument to a string.  A
    Date renders as weekday, month, day ... separated by spaces; its exact
    text is not modelled and such a value is reported as not matching. *)
Definition test (re : RegExp) (value : JsVal) : bool :=
  match toStr value with
  | Some s => matches re s
  | None => false
  end.

(** A pattern without the [u] flag is matched against the UTF-16 code units
    of the string.  [units s] are the code units of the string whose UTF-8
    encoding is [s]: one unit for a character of the basic plane, a surrogate
    pair for a character beyond it.  Bytes that are not well-formed UTF-8
    encode no JavaScript string; each is read as U+FFFD. *)
Definition byte (c : ascii) : Z := Z.of_nat (nat_of_ascii c).

Definition continuation (b : Z) : bool := (0x80 <=? b) && (b <=? 0xBF).

Fixpoint units (s : string) : list Z :=
  match s with
  | EmptyString => []
  | String a r =>
      let b0 := byte a in
      if b0 <? 0x80 then b0 :: units r
      else
        match r with
        | String b r1 =>
            let b1 := byte b in
            if (0xC2 <=? b0) && (b0 <=? 0xDF) && continuation b1
            then ((b0 - 0xC0) * 64 + (b1 - 0x80)) :: units r1
            else
              match r1 with
              | String c r2 =>
                  let b2 := byte c in
                  let cp3 := (b0 - 0xE0) * 4096 + (b1 - 0x80) * 64 + (b2 - 0x80) in
                  if (0xE0 <=? b0) && (b0 <=? 0xEF) && continuation b1
                     && continuation b2 && (0x800 <=? cp3)
                     && negb ((0xD800 <=? cp3) && (cp3 <=? 0xDFFF))
                  then cp3 :: units r2
                  else
                    match r2 with
                    | String d r3 =>
                        let b3 := byte d in
                        let cp4 := (b0 - 0xF0) * 262144 + (b1 - 0x80) * 4096
                                   + (b2 - 0x80) * 64 + (b3 - 0x80) in
                        if (0xF0 <=? b0) && (b0 <=? 0xF4) && continuation b1
                           && continuation b2 && continuation b3
                           && (0x10000 <=? cp4) && (cp4 <=? 0x10FFFF)
                        then (0xD800 + (cp4 - 0x10000) / 1024)
                               :: (0xDC00 + (cp4 - 0x10000) mod 1024) :: units r3
                        else 0xFFFD :: units r
                    | EmptyString => 0xFFFD :: units r
                    end
              | EmptyString => 0xFFFD :: units r
              end
        | EmptyString => [0xFFFD]
        end
  end.

(** The UTF-8 encoding of a character of the basic plane. *)
Definition utf8 (cp : Z) : string :=
  let chr (n : Z) := ascii_of_nat (Z.to_nat n) in
  if cp <? 0x80 then String (chr cp) EmptyString
  else if cp <? 0x800
  then String (chr (0xC0 + cp / 64)) (String (chr (0x80 + cp mod 64)) EmptyString)
  else String (chr (0xE0 + cp / 4096))
         (String (chr (0x80 + (cp / 64) mod 64))
            (String (chr (0x80 + cp mod 64)) EmptyString)).

(** An item of a character class over code units, and the pattern
    [/^[cls]+$/] on a sequence of code units. *)
Inductive UnitItem : Type :=
| UChr (u : Z)
| URange (lo hi : Z).

Definition unit_matches (i : UnitItem) (u : Z) : bool :=
  match i with
  | UChr x => u =? x
  | URange lo hi => (lo <=? u) && (u <=? hi)
  end.

Definition unit_class_matches (cls : list UnitItem) (u : Z) : bool :=
  existsb (fun i => unit_matches i u) cls.

Definition whole_plus_units (cls : list UnitItem) (l : list Z) : bool :=
  match l with
  | [] => false
  | _ :: _ => forallb (unit_class_matches cls) l
  end.

(** Validation rules, item by item as the source writes them; note that
    inside a character class the bar is a literal character. *)
Module Rules.
Definition NCHAR : RegExp :=
  WholePlus [Chr "-"; Chr "|"; Chr "."; Chr "|"; Chr "_"; Chr "|"; WordChar].
Definition NQCHAR : RegExp :=
  WholePlus [Chr "!"; Chr "|"; Range "#" "["; Chr "|"; Range "]" "~"].
Definition NQSCHAR : RegExp :=
  WholePlus [Range " " "!"; Chr "|"; Range "#" "["; Chr "|"; Range "]" "~"].
Definition URI : RegExp :=
  PrefixColon [Range "a" "z"; Range "A" "Z"]
              [Range "a" "z"; Range "A" "Z"; Range "0" "9";
               Chr "+"; Chr "."; Chr "-"].
Definition VSCHAR : RegExp :=
  WholePlus [Range " " "~"].
(** [/^[\u0009|\u0020-\u007E|\u0080-\uD7FF|\uE000-\uFFFD|\u10000-\u10FFFF]+$/]:
    an escape takes four hexadecimal digits, so the last alternative reads
    as the unit [\u1000], the range from the digit [0] to [\u10FF], and the
    letter [F] twice. *)
Definition UNICODECHARNOCRLF : list UnitItem :=
  [UChr 0x09; UChr 0x7C; URange 0x20 0x7E; UChr 0x7C; URange 0x80 0xD7FF;
   UChr 0x7C; URange 0xE000 0xFFFD; UChr 0x7C;
   UChr 0x1000; URange 0x30 0x10FF; UChr 0x46; UChr 0x46].
End Rules.

Definition nchar (value : JsVal) : bool := test Rules.NCHAR value.
Definition nqchar (value : JsVal) : bool := test Rules.NQCHAR value.
Definition nqschar (value : JsVal) : bool := test Rules.NQSCHAR value.
Definition uri (value : JsVal) : bool := test Rules.URI value.
Definition vschar (value : JsVal) : bool := test Rules.VSCHAR value.
Definition uchar (value : JsVal) : bool :=
  match toStr value with
  | Some s => whole_plus_units Rules.UNICODECHARNOCRLF (units s)
  | None => false
  end.

End Is.

(* ================================================================== *)
(** ** Error taxonomy ([lib/errors]) *)
(* ================================================================== *)

(** A thrown value: an [OAuthError] (with its wire [name], HTTP [status] and
    [message]) or a native JavaScript error such as a [TypeError]. *)
Inductive JsError : Type :=
| OAuthError (name : string) (status : Z) (message : string)
| NativeError (name : string) (message : string).

Definition err_name (e : JsError) : string :=
  match e with OAuthError n _ _ => n | NativeError n _ => n end.

Definition err_message (e : JsError) : string :=
  match e with OAuthError _ _ m => m | NativeError _ m => m end.

(** [error instanceof OAuthError]. *)
Definition instanceofOAuthError (e : JsError) : bool :=
  match e with OAuthError _ _ _ => true | NativeError _ _ => false end.

(** [error.status]; a native error has none. *)
Definition err_status (e : JsError) : JsVal :=
  match e with OAuthError _ s _ => JNum s | NativeError _ _ => JUndefined end.

(** The [statuses] table at the codes the taxonomy uses. *)
Definition statuses (code : Z) : string :=
  if code =? 400 then "Bad Request"
  else if code =? 401 then "Unauthorized"
  else if code =? 403 then "Forbidden"
  else if code =? 500 then "Internal Server Error"
  else "".

(** [new OAuthError(message, {code, name})]: an empty message is replaced
    by the standard text of the status code. *)
Definition OAuthError_new (message : string) (code : Z) (name : string)
  : JsError :=
  OAuthError name code (if (message =? "")%string then statuses code else message).

Definition AccessDeniedError (m : string) := OAuthError_new m 400 "access_denied".
Definition InvalidArgumentError (m : string) := OAuthError_new m 500 "invalid_argument".
Definition InvalidClientError (m : string) := OAuthError_new m 400 "invalid_client".
Definition InvalidGrantError (m : string) := OAuthError_new m 400 "invalid_grant".
Definition InvalidRequestError (m : string) := OAuthError_new m 400 "invalid_request".
Definition InvalidScopeError (m : string) := OAuthError_new m 400 "invalid_scope".
Definition InvalidTokenError (m : string) := OAuthError_new m 401 "invalid_token".
Definition InsufficientScopeError (m : string) := OAuthError_new m 403 "insufficient_scope".
Definition ServerError (m : string) := OAuthError_new m 500 "server_error".
Definition UnauthorizedClientError (m : string) := OAuthError_new m 400 "unauthorized_client".
Definition UnauthorizedRequestError (m : string) := OAuthError_new m 401 "unauthorized_request".
Definition UnsupportedResponseTypeError (m : string) :=
  OAuthError_new m 400 "unsupported_response_type".
Definition UnsupportedGrantTypeError (m : string) :=
  OAuthError_new m 400 "unsupported_grant_type".
Definition UnsupportedTokenTypeError (m : string) :=
  OAuthError_new m 400 "unsupported_token_type".

(** [new ServerError(error)]: wrapping keeps the message of the wrapped
    error. *)
Definition ServerError_wrap (e : JsError) : JsError := ServerError (err_message e).

(** The single quote and the double quote, for building messages and header
    values. *)
Definition squote : string := String (ascii_of_nat 39) EmptyString.
Definition dquote : string := String (ascii_of_nat 34) EmptyString.

(** The [TypeError] raised on reading property [p] of [undefined] or [null]
    (wording of V8; only its being a native, non-empty-message error
    matters). *)
Definition TypeError_read (p : string) (v : JsVal) : JsError :=
  NativeError "TypeError"
    ("Cannot read properties of "
       ++ (match v with JNull => "null" | _ => "undefined" end)
       ++ " (reading " ++ squote ++ p ++ squote ++ ")").

(** The [TypeError] raised on calling a property that is not a function. *)
Definition TypeError_call (p : string) : JsError :=
  NativeError "TypeError" (p ++ " is not a function").

(* ================================================================== *)
(** ** Node's [querystring] and legacy [url] modules *)
(* ================================================================== *)

(** Only what the response builders use is modelled.  A URL is cut at its
    first question mark and first hash; the part before them (protocol, host,
    path) is carried verbatim, so the normalisations Node applies there (an
    added root path, a lower-cased host) are outside the model.  Property
    lists keep insertion order; JavaScript's special ordering of integer-like
    keys is outside the model as well. *)
Module Url.

(** [s] cut at the first occurrence of [c]: the text before it and, when
    [c] occurs, the text after it. *)
Fixpoint cut (c : ascii) (s : string) : string * option string :=
  match s with
  | EmptyString => (EmptyString, None)
  | String x r =>
      if (x =? c)%char then (EmptyString, Some r)
      else let '(a, b) := cut c r in (String x a, b)
  end.

(** [s.split(c)]. *)
Fixpoint split (c : ascii) (s : string) : list string :=
  match s with
  | EmptyString => [EmptyString]
  | String x r =>
      if (x =? c)%char then EmptyString :: split c r
      else match split c r with
           | [] => [String x EmptyString]
           | h :: t => String x h :: t
           end
  end.

Definition hex_digit (n : nat) : ascii :=
  ascii_of_nat (if (n <? 10)%nat then 48 + n else 55 + n)%nat.

Definition unhex (c : ascii) : option nat :=
  let n := nat_of_ascii c in
  if Is.in_range "0" "9" c then Some (n - 48)%nat
  else if Is.in_range "A" "F" c then Some (n - 55)%nat
  else if Is.in_range "a" "f" c then Some (n - 87)%nat
  else None.

(** Characters [querystring.escape] leaves alone:
    [A-Z a-z 0-9 - _ . ! ~ * ' ( )]. *)
Definition noEscape (c : ascii) : bool :=
  Is.in_range "A" "Z" c || Is.in_range "a" "z" c || Is.in_range "0" "9" c
  || existsb (fun x => (c =? x)%char)
       ["-"; "_"; "."; "!"; "~"; "*"; ascii_of_nat 39; "("; ")"]%char.

(** [querystring.escape]: every other byte becomes [%XX]. *)
Fixpoint escape (s : string) : string :=
  match s with
  | EmptyString => EmptyString
  | String c r =>
      if noEscape c then String c (escape r)
      else
        let n := nat_of_ascii c in
        String "%" (String (hex_digit (n / 16)) (String (hex_digit (n mod 16))
          (escape r)))
  end.

(** [querystring.unescape] after the replacement of [+] by a space: a
    percent sign followed by two hexadecimal digits is decoded to a byte,
    any other percent sign stays.  (Where the decoded bytes are not UTF-8
    Node substitutes replacement characters; not modelled.) *)
Fixpoint unescape (s : string) : string :=
  match s with
  | EmptyString => EmptyString
  | String c r =>
      if (c =? "+")%char then String " " (unescape r)
      else if (c =? "%")%char then
        match r with
        | String h (String l r') =>
            match unhex h, unhex l with
            | Some a, Some b => String (ascii_of_nat (a * 16 + b)) (unescape r')
            | _, _ => String c (unescape r)
            end
        | _ => String c (unescape r)
        end
      else String c (unescape r)
  end.

(** [addKeyValue]: a repeated key collects its values in an array. *)
Definition addKeyValue (obj : list (string * JsVal)) (key value : string)
  : list (string * JsVal) :=
  match assoc key obj with
  | None => assoc_set key (JStr value) obj
  | Some (JArr l) => assoc_set key (JArr (l ++ [JStr value])%list) obj
  | Some cur => assoc_set key (JArr [cur; JStr value]) obj
  end.

(** [querystring.parse(qs)] with the default separators and [maxKeys]:
    at most 1000 segments are read, empty segments are skipped. *)
Definition qs_parse (qs : string) : list (string * JsVal) :=
  if (qs =? "")%string then []
  else
    fold_left
      (fun obj seg =>
         if (seg =? "")%string then obj
         else
           let '(k, v) := cut "=" seg in
           addKeyValue obj (unescape k)
             (unescape (match v with Some x => x | None => "" end)))
      (firstn 1000 (split "&" qs)) [].

(** [stringifyPrimitive] followed by the escape. *)
Definition convert (v : JsVal) : string :=
  match v with
  | JStr s => escape s
  | JNum n => Z_to_string n
  | JBool true => "true"
  | JBool false => "false"
  | _ => ""
  end.

(** [querystring.stringify(obj)]. *)
Fixpoint qs_stringify_from (fields : string) (props : list (string * JsVal))
  : string :=
  match props with
  | [] => fields
  | (k, v) :: rest =>
      let ks := escape k ++ "=" in
      let sep := if (fields =? "")%string then "" else "&" in
      match v with
      | JArr [] => qs_stringify_from fields rest
      | JArr l =>
          qs_stringify_from
            (fields ++ sep ++ join "&" (map (fun x => ks ++ convert x) l)) rest
      | _ => qs_stringify_from (fields ++ sep ++ ks ++ convert v) rest
      end
  end.

Definition qs_stringify (props : list (string * JsVal)) : string :=
  qs_stringify_from "" props.

(** The fields of a [Url] object the engine touches.  [search] and [hash]
    are [None] for [null]; [query] is the parsed parameter object. *)
Record UrlObject : Type := mkUrl {
  base : string;
  search : option string;
  query : list (string * JsVal);
  hash : option string
}.

(** [url.parse(uri, parseQueryString)].  Without [parseQueryString] the
    [query] field is a string or [null], which [format] ignores: it is kept
    empty here. *)
Definition parse (uri : string) (parseQueryString : bool) : UrlObject :=
  let '(before, h) := cut "#" uri in
  let '(b, q) := cut "?" before in
  {| base := b;
     search := option_map (fun x => "?" ++ x) q;
     query := match q with
              | Some x => if parseQueryString then qs_parse x else []
              | None => []
              end;
     hash := option_map (fun x => "#" ++ x) h |}.

(** [url.parse] of a value: a [TypeError] unless it is a string. *)
Definition parse_val (uri : JsVal) (parseQueryString : bool)
  : JsError + UrlObject :=
  match uri with
  | JStr s => inr (parse s parseQueryString)
  | _ => inl (NativeError "TypeError" "The url argument must be of type string")
  end.

(** [encodeURIComponent(v)]; its unreserved set is the one of
    [querystring.escape].  (A Date argument, whose rendering is not
    modelled, yields the empty string here.) *)
Definition encodeURIComponent (v : JsVal) : string :=
  match toStr v with Some s => escape s | None => "" end.

(** The plain object [{ query: {} }]. *)
Definition empty : UrlObject :=
  {| base := ""; search := None; query := []; hash := None |}.

(** [url.format(urlObject)]:
    [search = this.search || (query && ('?' + query)) || '']. *)
Definition format (u : UrlObject) : string :=
  let q := qs_stringify (query u) in
  let s :=
    match search u with
    | Some x => if (x =? "")%string
                then (if (q =? "")%string then "" else "?" ++ q)
                else x
    | None => if (q =? "")%string then "" else "?" ++ q
    end in
  let s' := match s with
            | EmptyString => s
            | String c _ => if (c =? "?")%char then s else "?" ++ s
            end in
  let h := match hash u with Some x => x | None => "" end in
  let h' := match h with
            | EmptyString => h
            | String c _ => if (c =? "#")%char then h else "#" ++ h
            end in
  base u ++ s' ++ h'.

End Url.

(* ================================================================== *)
(** ** Effects: host state, exceptions and the trace of Model calls *)
(* ================================================================== *)

(** A call into the data-access Model, with its arguments and the value it
    returned. *)
Inductive Call : Type :=
| GetClient (id secret result : JsVal)
| GetAuthorizationCode (code result : JsVal)
| RevokeAuthorizationCode (code result : JsVal)
| SaveAuthorizationCode (client user code result : JsVal)
| SaveToken (arg1 arg2 arg3 result : JsVal)
| GetAccessToken (token result : JsVal)
| GetRefreshToken (token result : JsVal)
| RevokeAccessToken (token result : JsVal)
| RevokeRefreshToken (token result : JsVal)
| ValidateScope (arg1 arg2 scope result : JsVal)
| VerifyScope (token scope result : JsVal)
| GenerateAccessToken (client user scope result : JsVal)
| GenerateRefreshToken (client user scope result : JsVal)
| GenerateAuthorizationCode (client user scope result : JsVal).

(** A computation reads and updates the state [σ] of the host (the Model's
    storage, the wall clock, the entropy source), either returns a value or
    throws, and emits the Model calls it made, oldest first. *)
Definition M (σ A : Type) : Type := σ -> (JsError + A) * σ * list Call.

Definition ret {σ A} (a : A) : M σ A := fun s => (inr a, s, []).

Definition throw {σ A} (e : JsError) : M σ A := fun s => (inl e, s, []).

Definition bind {σ A B} (m : M σ A) (f : A -> M σ B) : M σ B :=
  fun s =>
    match m s with
    | (inl e, s1, t1) => (inl e, s1, t1)
    | (inr a, s1, t1) =>
        match f a s1 with
        | (r, s2, t2) => (r, s2, (t1 ++ t2)%list)
        end
    end.

(** [try { m } catch (e) { h e }]. *)
Definition try_catch {σ A} (m : M σ A) (h : JsError -> M σ A) : M σ A :=
  fun s =>
    match m s with
    | (inl e, s1, t1) =>
        match h e s1 with
        | (r, s2, t2) => (r, s2, (t1 ++ t2)%list)
        end
    | (inr a, s1, t1) => (inr a, s1, t1)
    end.

Declare Scope js_scope.
Delimit Scope js_scope with js.
Notation "x <- m ;; k" := (bind m (fun x => k))
  (at level 100, m at next level, right associativity) : js_scope.
Notation "m ;;; k" := (bind m (fun _ => k))
  (at level 100, right associativity) : js_scope.
Open Scope js_scope.

(** [if (c) throw e]. *)
Definition throw_if {σ} (c : bool) (e : JsError) : M σ unit :=
  if c then throw e else ret tt.

(** [lift r]: a pure step that may throw. *)
Definition lift {σ A} (r : JsError + A) : M σ A :=
  match r with inl e => throw e | inr a => ret a end.

(** Property access [v.p]: a [TypeError] on [undefined] and [null], the own
    property of a plain object, [undefined] otherwise (methods inherited from
    prototypes are not data the engine reads). *)
Definition prop (v : JsVal) (p : string) : JsVal :=
  match v with
  | JObj props => match assoc p props with Some x => x | None => JUndefined end
  | _ => JUndefined
  end.

Definition nullish (v : JsVal) : bool :=
  match v with JUndefined | JNull => true | _ => false end.

Definition get (v : JsVal) (p : string) : JsError + JsVal :=
  if nullish v then inl (TypeError_read p v) else inr (prop v p).

(** A parameter with a default value: [undefined] is replaced by the
    default. *)
Definition default_to (d v : JsVal) : JsVal :=
  match v with JUndefined => d | _ => v end.

(** [d.getTime()]: defined on Dates; a [TypeError] on anything else. *)
Definition getTime (d : JsVal) : JsError + Z :=
  match d with
  | JDate t => inr t
  | JUndefined | JNull => inl (TypeError_read "getTime" d)
  | _ => inl (TypeError_call "expiresAt.getTime")
  end.

(** The capabilities of the data-access Model.  Each one takes the state of
    the host and returns a value with the new state; the optional ones may
    be absent.  A capability that rejects (an exception leaked by the Model)
    is outside the model: the capabilities return. *)
Module Model.
Record t (σ : Type) : Type := mk {
  getClient : JsVal -> JsVal -> σ -> JsVal * σ;
  getAuthorizationCode : JsVal -> σ -> JsVal * σ;
  revokeAuthorizationCode : JsVal -> σ -> JsVal * σ;
  saveAuthorizationCode : JsVal -> JsVal -> JsVal -> σ -> JsVal * σ;
  saveToken : JsVal -> JsVal -> JsVal -> σ -> JsVal * σ;
  getAccessToken : JsVal -> σ -> JsVal * σ;
  getRefreshToken : JsVal -> σ -> JsVal * σ;
  revokeAccessToken : JsVal -> σ -> JsVal * σ;
  revokeRefreshToken : JsVal -> σ -> JsVal * σ;
  validateScope : option (JsVal -> JsVal -> JsVal -> σ -> JsVal * σ);
  verifyScope : option (JsVal -> JsVal -> σ -> JsVal * σ);
  generateAccessToken : option (JsVal -> JsVal -> JsVal -> σ -> JsVal * σ);
  generateRefreshToken : option (JsVal -> JsVal -> JsVal -> σ -> JsVal * σ);
  generateAuthorizationCode :
    option (JsVal -> JsVal -> JsVal -> σ -> JsVal * σ)
}.
Arguments getClient {σ}.
Arguments getAuthorizationCode {σ}.
Arguments revokeAuthorizationCode {σ}.
Arguments saveAuthorizationCode {σ}.
Arguments saveToken {σ}.
Arguments getAccessToken {σ}.
Arguments getRefreshToken {σ}.
Arguments revokeAccessToken {σ}.
Arguments revokeRefreshToken {σ}.
Arguments validateScope {σ}.
Arguments verifyScope {σ}.
Arguments generateAccessToken {σ}.
Arguments generateRefreshToken {σ}.
Arguments generateAuthorizationCode {σ}.
End Model.

(** What the engine takes from its runtime: [new Date().getTime()] and the
    random-token generator of [utils/token]. *)
Module Runtime.
Record t (σ : Type) : Type := mk {
  now : σ -> Z;
  generateRandomToken : σ -> string * σ
}.
Arguments now {σ}.
Arguments generateRandomToken {σ}.
End Runtime.

(** [await f(...)] for a Model capability [f]: run it and record the call. *)
Definition await {σ} (f : σ -> JsVal * σ) (ev : JsVal -> Call) : M σ JsVal :=
  fun s => let '(r, s1) := f s in (inr r, s1, [ev r]).

(** [new Date().getTime()]. *)
Definition Date_now {σ} (rt : Runtime.t σ) : M σ Z :=
  fun s => (inr (Runtime.now rt s), s, []).

Definition randomToken {σ} (rt : Runtime.t σ) : M σ JsVal :=
  fun s => let '(r, s1) := Runtime.generateRandomToken rt s in (inr (JStr r), s1, []).

(* ================================================================== *)
(** ** Request and Response value objects *)
(* ================================================================== *)

Definition lower (c : ascii) : ascii :=
  if Is.in_range "A" "Z" c then ascii_of_nat (nat_of_ascii c + 32) else c.

Fixpoint toLowerCase (s : string) : string :=
  match s with
  | EmptyString => EmptyString
  | String c r => String (lower c) (toLowerCase r)
  end.

(** [obj[k]] on a property list. *)
Definition field (props : list (string * JsVal)) (k : string) : JsVal :=
  match assoc k props with Some v => v | None => JUndefined end.

Module Request.
(** The parsed request: [method] is upper-cased and the header names are
    lower-cased by the constructor.  Two fields stand for what external
    packages compute from the headers: [is_form] is the outcome of
    [request.is('application/x-www-form-urlencoded')] ([type-is]), and
    [basic_auth] the name and password [auth(request)] decodes from an HTTP
    Basic [Authorization] header ([basic-auth]), if any. *)
Record t : Type := mk {
  method : string;
  headers : list (string * JsVal);
  query : list (string * JsVal);
  body : list (string * JsVal);
  is_form : bool;
  basic_auth : option (string * string)
}.

(** [request.get(field)]. *)
Definition get (r : t) (name : string) : JsVal :=
  field (headers r) (toLowerCase name).
End Request.

Module Response.
Record t : Type := mk {
  status : Z;
  headers : list (string * JsVal);
  body : JsVal
}.

Definition get (r : t) (name : string) : JsVal :=
  field (headers r) (toLowerCase name).

Definition set (r : t) (name : string) (value : JsVal) : t :=
  {| status := status r;
     headers := assoc_set (toLowerCase name) value (headers r);
     body := body r |}.

Definition setBody (r : t) (b : JsVal) : t :=
  {| status := status r; headers := headers r; body := b |}.

Definition setStatus (r : t) (s : Z) : t :=
  {| status := s; headers := headers r; body := body r |}.

(** A fresh response: status 200, no header, empty body. *)
Definition fresh : t := {| status := 200; headers := []; body := JObj [] |}.
End Response.

(* ================================================================== *)
(** ** Token model and bearer token ([lib/models]) *)
(* ================================================================== *)

Module TokenModel.

Definition modelAttributes : list string :=
  ["accessToken"; "accessTokenExpiresAt"; "refreshToken";
   "refreshTokenExpiresAt"; "scope"; "client"; "user"].

Record t : Type := mk {
  accessToken : JsVal;
  accessTokenExpiresAt : JsVal;
  refreshToken : JsVal;
  refreshTokenExpiresAt : JsVal;
  scope : JsVal;
  client : JsVal;
  user : JsVal;
  customAttributes : JsVal;
  accessTokenLifetime : JsVal
}.

Definition own_props (v : JsVal) : list (string * JsVal) :=
  match v with JObj props => props | _ => [] end.

(** [new TokenModel(data, { allowExtendedTokenAttributes })]. *)
Definition new {σ} (rt : Runtime.t σ) (data0 : JsVal)
           (allowExtendedTokenAttributes : JsVal) : M σ t :=
  let data := match data0 with JUndefined => JObj [] | _ => data0 end in
  at_ <- lift (get data "accessToken") ;;
  throw_if (js_not at_) (InvalidArgumentError "Missing parameter: `accessToken`") ;;;
  throw_if (js_not (prop data "client"))
    (InvalidArgumentError "Missing parameter: `client`") ;;;
  throw_if (js_not (prop data "user"))
    (InvalidArgumentError "Missing parameter: `user`") ;;;
  throw_if (truthy (prop data "accessTokenExpiresAt")
            && negb (instanceofDate (prop data "accessTokenExpiresAt")))
    (InvalidArgumentError "Invalid parameter: `accessTokenExpiresAt`") ;;;
  throw_if (truthy (prop data "refreshTokenExpiresAt")
            && negb (instanceofDate (prop data "refreshTokenExpiresAt")))
    (InvalidArgumentError "Invalid parameter: `refreshTokenExpiresAt`") ;;;
  let custom :=
    if truthy allowExtendedTokenAttributes then
      JObj (filter
              (fun kv => negb (existsb (String.eqb (fst kv)) modelAttributes))
              (own_props data))
    else JUndefined in
  lifetime <-
    (match prop data "accessTokenExpiresAt" with
     | JDate e => n <- Date_now rt ;; ret (JNum ((e - n) / 1000))
     | _ => ret JUndefined
     end) ;;
  ret {| accessToken := prop data "accessToken";
         accessTokenExpiresAt := prop data "accessTokenExpiresAt";
         refreshToken := prop data "refreshToken";
         refreshTokenExpiresAt := prop data "refreshTokenExpiresAt";
         scope := prop data "scope";
         client := prop data "client";
         user := prop data "user";
         customAttributes := custom;
         accessTokenLifetime := lifetime |}.

End TokenModel.

Module BearerToken.

(** [new BearerToken(...).valueOf()]. *)
Definition valueOf (accessToken accessTokenLifetime refreshToken scope
                      customAttributes : JsVal) : JsError + JsVal :=
  if js_not accessToken
  then inl (InvalidArgumentError "Missing parameter: `accessToken`")
  else
    let o0 := [("access_token", accessToken); ("token_type", JStr "Bearer")] in
    let o1 := if truthy accessTokenLifetime
              then assoc_set "expires_in" accessTokenLifetime o0 else o0 in
    let o2 := if truthy refreshToken
              then assoc_set "refresh_token" refreshToken o1 else o1 in
    let o3 := if truthy scope then assoc_set "scope" scope o2 else o2 in
    inr (JObj (fold_left (fun o kv => assoc_set (fst kv) (snd kv) o)
                 (TokenModel.own_props customAttributes) o3)).

Definition of_model (m : TokenModel.t) : JsError + JsVal :=
  valueOf (TokenModel.accessToken m) (TokenModel.accessTokenLifetime m)
          (TokenModel.refreshToken m) (TokenModel.scope m)
          (TokenModel.customAttributes m).

End BearerToken.

(* ================================================================== *)
(** ** Grants ([lib/grants]) *)
(* ================================================================== *)

Module AbstractGrant.
Section Defs.
Context {σ : Type} (rt : Runtime.t σ).

(** The instance fields set by the constructor. *)
Record t : Type := mk {
  model : Model.t σ;
  accessTokenLifetime : Z;
  refreshTokenLifetime : Z;
  alwaysIssueNewRefreshToken : JsVal;
  allowExtendedTokenAttributes : JsVal
}.

(** A Model generator when present, falling back on the random generator
    when it is absent or returns a falsy value. *)
Definition generateAccessToken (this : t) (client user scope : JsVal)
  : M σ JsVal :=
  match Model.generateAccessToken (model this) with
  | Some f =>
      token <- await (f client user scope)
                 (GenerateAccessToken client user scope) ;;
      if truthy token then ret token else randomToken rt
  | None => randomToken rt
  end.

Definition generateRefreshToken (this : t) (client user scope : JsVal)
  : M σ JsVal :=
  match Model.generateRefreshToken (model this) with
  | Some f =>
      token <- await (f client user scope)
                 (GenerateRefreshToken client user scope) ;;
      if truthy token then ret token else randomToken rt
  | None => randomToken rt
  end.

Definition setAccessTokenExpiresAt (this : t) : M σ JsVal :=
  n <- Date_now rt ;; ret (JDate (n + accessTokenLifetime this * 1000)).

Definition setRefreshTokenExpiresAt (this : t) : M σ JsVal :=
  n <- Date_now rt ;; ret (JDate (n + refreshTokenLifetime this * 1000)).

Definition validateScope (this : t) (client user scope : JsVal) : M σ JsVal :=
  match Model.validateScope (model this) with
  | Some f =>
      validatedScope <- await (f client user scope)
                          (ValidateScope client user scope) ;;
      throw_if (js_not validatedScope)
        (InvalidScopeError "Invalid scope: Requested scope is invalid") ;;;
      ret validatedScope
  | None => ret scope
  end.

(** [getScope(request)]: the [scope] of the request body. *)
Definition getScope (this : t) (request : Request.t) : JsError + JsVal :=
  if negb (Is.nqschar (field (Request.body request) "scope"))
  then inl (InvalidArgumentError "Invalid parameter: `scope`")
  else inr (field (Request.body request) "scope").

(** The constructor: a grant needs a truthy [accessTokenLifetime]. *)
Definition new (model : Model.t σ) (accessTokenLifetime refreshTokenLifetime : Z)
           (alwaysIssueNewRefreshToken allowExtendedTokenAttributes : JsVal)
  : JsError + t :=
  if accessTokenLifetime =? 0
  then inl (InvalidArgumentError "Missing parameter: `accessTokenLifetime`")
  else inr {| model := model;
              accessTokenLifetime := accessTokenLifetime;
              refreshTokenLifetime := refreshTokenLifetime;
              alwaysIssueNewRefreshToken := alwaysIssueNewRefreshToken;
              allowExtendedTokenAttributes := allowExtendedTokenAttributes |}.

End Defs.
Arguments t σ : clear implicits.
End AbstractGrant.

Module AuthorizationCodeGrant.

(** The access-token request of the authorization-code flow
    ([authorization-code/access-token-request.js]). *)
Module AccessTokenRequest.
Record t : Type := mk { code : JsVal; redirectUri : JsVal }.

Definition new (request : Request.t) (client : JsVal) : JsError + t :=
  if js_not client
  then inl (InvalidArgumentError "Missing parameter: `client`")
  else
    let code := field (Request.body request) "code" in
    if js_not code
    then inl (InvalidRequestError "Missing parameter: `code`")
    else if negb (Is.vschar code)
    then inl (InvalidRequestError "Invalid parameter: `code`")
    else
      let redirectUri :=
        js_or (field (Request.body request) "redirect_uri")
              (field (Request.query request) "redirect_uri") in
      if negb (Is.uri redirectUri)
      then inl (InvalidRequestError
                  "Invalid request: `redirect_uri` is not a valid URI")
      else inr {| code := code; redirectUri := redirectUri |}.
End AccessTokenRequest.

Section Defs.
Context {σ : Type} (rt : Runtime.t σ).
Let Grant := AbstractGrant.t σ.
Let model := @AbstractGrant.model σ.

Definition validateAuthorizationCode (this : Grant)
           (accessTokenRequest : AccessTokenRequest.t) (client : JsVal)
  : M σ JsVal :=
  now <- Date_now rt ;;
  code <- await (Model.getAuthorizationCode (model this)
                   (AccessTokenRequest.code accessTokenRequest))
            (GetAuthorizationCode (AccessTokenRequest.code accessTokenRequest)) ;;
  throw_if (js_not code)
    (InvalidGrantError "Invalid grant: authorization code is invalid") ;;;
  code_client <- lift (get code "client") ;;
  throw_if (js_not code_client)
    (ServerError
       "Server error: `getAuthorizationCode()` did not return a `client` object") ;;;
  code_user <- lift (get code "user") ;;
  throw_if (js_not code_user)
    (ServerError
       "Server error: `getAuthorizationCode()` did not return a `user` object") ;;;
  code_client_id <- lift (get code_client "id") ;;
  client_id <- lift (get client "id") ;;
  throw_if (negb (strict_eq code_client_id client_id))
    (InvalidGrantError "Invalid grant: authorization code is invalid") ;;;
  expiresAt <- lift (get code "expiresAt") ;;
  throw_if (negb (instanceofDate expiresAt))
    (ServerError "Server error: `expiresAt` must be a Date instance") ;;;
  t <- lift (getTime expiresAt) ;;
  throw_if (t <? now)
    (InvalidGrantError "Invalid grant: authorization code has expired") ;;;
  code_redirectUri <- lift (get code "redirectUri") ;;
  throw_if (truthy code_redirectUri && negb (Is.uri code_redirectUri))
    (InvalidGrantError "Invalid grant: `redirect_uri` is not a valid URI") ;;;
  ret code.

Definition validateRedirectUri (code : JsVal)
           (accessTokenRequest : AccessTokenRequest.t) : JsError + unit :=
  match get code "redirectUri" with
  | inl e => inl e
  | inr code_redirectUri =>
      if js_not code_redirectUri then inr tt
      else if negb (strict_eq (AccessTokenRequest.redirectUri accessTokenRequest)
                      code_redirectUri)
      then inl (InvalidRequestError "Invalid request: `redirect_uri` is invalid")
      else inr tt
  end.

Definition deleteAuthorizationCode (this : Grant) (code : JsVal) : M σ unit :=
  status <- await (Model.revokeAuthorizationCode (model this) code)
              (RevokeAuthorizationCode code) ;;
  throw_if (js_not status)
    (InvalidGrantError "Invalid grant: authorization code is invalid").

(** [createToken(client, code)]: the first parameter is documented as the
    authenticated client, the second as the authorization code. *)
Definition createToken (this : Grant) (client code : JsVal) : M σ JsVal :=
  user <- lift (get code "user") ;;
  scope <- lift (get code "scope") ;;
  accessScope <- AbstractGrant.validateScope this client user scope ;;
  accessToken <- AbstractGrant.generateAccessToken rt this client user scope ;;
  refreshToken <- AbstractGrant.generateRefreshToken rt this client user scope ;;
  accessTokenExpiresAt <- AbstractGrant.setAccessTokenExpiresAt rt this ;;
  refreshTokenExpiresAt <- AbstractGrant.setRefreshTokenExpiresAt rt this ;;
  let token :=
    JObj [("accessToken", accessToken);
          ("accessTokenExpiresAt", accessTokenExpiresAt);
          ("refreshToken", refreshToken);
          ("refreshTokenExpiresAt", refreshTokenExpiresAt);
          ("scope", accessScope)] in
  await (Model.saveToken (model this) client user token)
    (SaveToken client user token).

(** [execute(request, response, client)].  The call [this.createToken(code,
    client)] is transcribed with its arguments in the order the source
    passes them. *)
Definition execute (this : Grant) (request : Request.t) (client : JsVal)
  : M σ JsVal :=
  try_catch
    (accessTokenRequest <- lift (AccessTokenRequest.new request client) ;;
     code <- validateAuthorizationCode this accessTokenRequest client ;;
     lift (validateRedirectUri code accessTokenRequest) ;;;
     deleteAuthorizationCode this code ;;;
     data <- createToken this code client ;;
     tm <- TokenModel.new rt data (AbstractGrant.allowExtendedTokenAttributes this) ;;
     lift (BearerToken.of_model tm))
    (fun e => throw e).

End Defs.
End AuthorizationCodeGrant.

Module RefreshTokenGrant.

(** The access-token request of the refresh-token flow
    ([refresh-token/access-token-request.js]). *)
Module AccessTokenRequest.
Record t : Type := mk { refreshToken : JsVal; scope : JsVal }.

Definition new (request : Request.t) (client : JsVal) : JsError + t :=
  if js_not client
  then inl (InvalidArgumentError "Missing parameter: `client`")
  else
    let refreshToken := field (Request.body request) "refresh_token" in
    if js_not refreshToken
    then inl (InvalidRequestError "Missing parameter: `refresh_token`")
    else if negb (Is.vschar refreshToken)
    then inl (InvalidRequestError "Invalid parameter: `refresh_token`")
    else
      let scope := field (Request.body request) "scope" in
      if negb (Is.nqschar scope)
      then inl (InvalidRequestError "Invalid parameter: `scope`")
      else inr {| refreshToken := refreshToken; scope := scope |}.
End AccessTokenRequest.

Section Defs.
Context {σ : Type} (rt : Runtime.t σ).
Let Grant := AbstractGrant.t σ.
Let model := @AbstractGrant.model σ.

Definition validateRefreshToken (this : Grant)
           (accessTokenRequest : AccessTokenRequest.t) (client : JsVal)
  : M σ JsVal :=
  token <- await (Model.getRefreshToken (model this)
                    (AccessTokenRequest.refreshToken accessTokenRequest))
             (GetRefreshToken (AccessTokenRequest.refreshToken accessTokenRequest)) ;;
  now <- Date_now rt ;;
  throw_if (js_not token)
    (InvalidGrantError "Invalid grant: refresh token is invalid") ;;;
  token_client <- lift (get token "client") ;;
  throw_if (js_not token_client)
    (ServerError
       "Server error: `getRefreshToken()` did not return a `client` object") ;;;
  token_user <- lift (get token "user") ;;
  throw_if (js_not token_user)
    (ServerError
       "Server error: `getRefreshToken()` did not return a `user` object") ;;;
  token_client_id <- lift (get token_client "id") ;;
  client_id <- lift (get client "id") ;;
  throw_if (negb (strict_eq token_client_id client_id))
    (InvalidGrantError "Invalid grant: refresh token is invalid") ;;;
  refreshTokenExpiresAt <- lift (get token "refreshTokenExpiresAt") ;;
  throw_if (truthy refreshTokenExpiresAt
            && negb (instanceofDate refreshTokenExpiresAt))
    (ServerError "Server error: `refreshTokenExpiresAt` must be a Date instance") ;;;
  expired <-
    (if truthy refreshTokenExpiresAt
     then t <- lift (getTime refreshTokenExpiresAt) ;; ret (t <? now)
     else ret false) ;;
  throw_if expired
    (InvalidGrantError "Invalid grant: refresh token has expired") ;;;
  ret token.

Definition deleteRefreshToken (this : Grant) (token : JsVal) : M σ unit :=
  if js_not (AbstractGrant.alwaysIssueNewRefreshToken this) then ret tt
  else
    status <- await (Model.revokeRefreshToken (model this) token)
                (RevokeRefreshToken token) ;;
    throw_if (js_not status)
      (InvalidGrantError "Invalid grant: refresh token is invalid").

Definition createToken (this : Grant) (client user scope : JsVal) : M σ JsVal :=
  accessToken <- AbstractGrant.generateAccessToken rt this client user scope ;;
  refreshToken <- AbstractGrant.generateRefreshToken rt this client user scope ;;
  accessTokenExpiresAt <- AbstractGrant.setAccessTokenExpiresAt rt this ;;
  refreshTokenExpiresAt <- AbstractGrant.setRefreshTokenExpiresAt rt this ;;
  let token0 :=
    [("accessToken", accessToken);
     ("accessTokenExpiresAt", accessTokenExpiresAt);
     ("scope", scope)] in
  let token :=
    JObj (if negb (strict_eq (AbstractGrant.alwaysIssueNewRefreshToken this)
                     (JBool false))
          then assoc_set "refreshTokenExpiresAt" refreshTokenExpiresAt
                 (assoc_set "refreshToken" refreshToken token0)
          else token0) in
  await (Model.saveToken (model this) client user token)
    (SaveToken client user token).

(** [execute(request, response, client)].  The option handed to the token
    model is read through [super.allowExtendedTokenAttributes], a lookup on
    the prototype, where the instance field is not found: it is
    [undefined]. *)
Definition execute (this : Grant) (request : Request.t) (client : JsVal)
  : M σ JsVal :=
  try_catch
    (accessTokenRequest <- lift (AccessTokenRequest.new request client) ;;
     token <- validateRefreshToken this accessTokenRequest client ;;
     deleteRefreshToken this token ;;;
     token_user <- lift (get token "user") ;;
     token_scope <- lift (get token "scope") ;;
     data <- createToken this client token_user token_scope ;;
     tm <- TokenModel.new rt data JUndefined ;;
     lift (BearerToken.of_model tm))
    (fun e => throw e).

End Defs.
End RefreshTokenGrant.

(* ================================================================== *)
(** ** Endpoint handlers ([lib/handlers]) *)
(* ================================================================== *)

(** A handler runs on the state of the host together with the response
    object it was handed, which it mutates in place. *)
Definition H (σ A : Type) : Type := M (σ * Response.t) A.

(** A grant or Model step inside a handler: the response is untouched. *)
Definition liftH {σ A} (m : M σ A) : H σ A :=
  fun st =>
    match m (fst st) with
    | (r, s1, t) => (r, (s1, snd st), t)
    end.

Definition modifyResponse {σ} (f : Response.t -> Response.t) : H σ unit :=
  fun st => (inr tt, (fst st, f (snd st)), []).

Definition setHeader {σ} (name : string) (value : JsVal) : H σ unit :=
  modifyResponse (fun r => Response.set r name value).

Definition setBody {σ} (b : JsVal) : H σ unit :=
  modifyResponse (fun r => Response.setBody r b).

(** [response.status = status]; the engine only ever stores the number of
    an [OAuthError] or a literal. *)
Definition setStatus {σ} (status : JsVal) : H σ unit :=
  modifyResponse
    (fun r => match status with
              | JNum n => Response.setStatus r n
              | _ => r
              end).

(** The body [{ error, error_description }]. *)
Definition error_body (e : JsError) : JsVal :=
  JObj [("error", JStr (err_name e));
        ("error_description", JStr (err_message e))].

(* ------------------------------------------------------------------ *)
(** *** Bearer authentication *)

Module AuthenticateRequest.

(** The characters of the class [\s]: the white space and the line
    terminators of JavaScript, from the tab U+0009 to the byte order mark
    U+FEFF. *)
Definition white_space : list Z :=
  [0x09; 0x0A; 0x0B; 0x0C; 0x0D; 0x20; 0xA0; 0x1680;
   0x2000; 0x2001; 0x2002; 0x2003; 0x2004; 0x2005; 0x2006; 0x2007; 0x2008;
   0x2009; 0x200A; 0x2028; 0x2029; 0x202F; 0x205F; 0x3000; 0xFEFF].

(** The number of bytes that a character of [\s] takes at the head of [s],
    0 when [s] does not start with one.  (An encoding of a white-space
    character is found in well-formed UTF-8 only where that character is.) *)
Definition space_width (s : string) : nat :=
  match find (fun cp => String.prefix (Is.utf8 cp) s) white_space with
  | Some cp => String.length (Is.utf8 cp)
  | None => 0
  end.

Definition is_space (s : string) : bool := negb (space_width s =? 0)%nat.

(** The longest run of [\S] at the head of [s]. *)
Fixpoint take_nonspace (s : string) : string :=
  match s with
  | EmptyString => EmptyString
  | String c r =>
      if is_space (String c r) then EmptyString else String c (take_nonspace r)
  end.

(** The pattern [/Bearer\s(\S+)/] matched at the start of [s]: the captured
    group. *)
Definition match_here (s : string) : option string :=
  if String.prefix "Bearer" s then
    let rest := substring 6 (String.length s - 6) s in
    let w := space_width rest in
    if (w =? 0)%nat then None
    else
      match take_nonspace (substring w (String.length rest - w) rest) with
      | EmptyString => None
      | t => Some t
      end
  else None.

(** [s.match(/Bearer\s(\S+)/)]: the leftmost match. *)
Fixpoint bearer_match (s : string) : option string :=
  match match_here s with
  | Some t => Some t
  | None =>
      match s with
      | EmptyString => None
      | String _ r => bearer_match r
      end
  end.

(** [new AuthenticateRequest(request, allowBearerTokensInQueryString)]: the
    token of the request. *)
Definition new (request : Request.t) (allowBearerTokensInQueryString : JsVal)
  : JsError + JsVal :=
  let headerToken := Request.get request "Authorization" in
  let queryToken := field (Request.query request) "access_token" in
  let bodyToken := field (Request.body request) "access_token" in
  if negb (truthy headerToken || truthy queryToken || truthy bodyToken)
  then inl (UnauthorizedRequestError
              "Unauthorized request: no authentication given")
  else if (1 <? List.length (filter truthy [headerToken; queryToken; bodyToken]))%nat
  then inl (InvalidRequestError
              "Invalid request: only one authentication method is allowed")
  else
    let step1 : JsError + JsVal :=
      if truthy headerToken then
        match headerToken with
        | JStr s =>
            match bearer_match s with
            | None => inl (InvalidRequestError
                             "Invalid request: malformed authorization header")
            | Some t => inr (JStr t)
            end
        | _ => inl (TypeError_call "bearerToken.match")
        end
      else inr JUndefined in
    match step1 with
    | inl e => inl e
    | inr token1 =>
        let step2 : JsError + JsVal :=
          if truthy queryToken then
            if js_not allowBearerTokensInQueryString
            then inl (InvalidRequestError
                        "Invalid request: do not send bearer tokens in query URLs")
            else inr queryToken
          else inr token1 in
        match step2 with
        | inl e => inl e
        | inr token2 =>
            if truthy bodyToken then
              if (Request.method request =? "GET")%string
              then inl (InvalidRequestError
                "Invalid request: token may not be passed in the body when using the GET verb")
              else if negb (Request.is_form request)
              then inl (InvalidRequestError
                "Invalid request: content must be application/x-www-form-urlencoded")
              else inr bodyToken
            else inr token2
        end
    end.

End AuthenticateRequest.

Module AuthenticateResponse.
Section Defs.
Context {σ : Type}.

Definition setSuccessResponse (token scope addAcceptedScopesHeader
                                 addAuthorizedScopesHeader : JsVal) : H σ unit :=
  (if truthy scope && truthy addAcceptedScopesHeader
   then setHeader "X-Accepted-OAuth-Scopes" scope
   else ret tt) ;;;
  (if truthy scope && truthy addAuthorizedScopesHeader
   then token_scope <- lift (get token "scope") ;;
        setHeader "X-OAuth-Scopes" token_scope
   else ret tt).

Definition setErrorResponse (error : JsError) : H σ unit :=
  (if (err_name error =? "unauthorized_request")%string
   then setHeader "WWW-Authenticate"
          (JStr ("Bearer realm=" ++ dquote ++ "Service" ++ dquote))
   else ret tt) ;;;
  let error' :=
    if instanceofOAuthError error then error else ServerError_wrap error in
  setBody (error_body error') ;;;
  setStatus (err_status error').

End Defs.
End AuthenticateResponse.

Module AuthenticateHandler.
Section Defs.
Context {σ : Type} (rt : Runtime.t σ).

Record t : Type := mk {
  model : Model.t σ;
  scope : JsVal;
  addAcceptedScopesHeader : JsVal;
  addAuthorizedScopesHeader : JsVal;
  allowBearerTokensInQueryString : JsVal
}.

Definition validateAccessToken (this : t) (token : JsVal) : M σ JsVal :=
  now <- Date_now rt ;;
  accessToken <- await (Model.getAccessToken (model this) token)
                   (GetAccessToken token) ;;
  throw_if (js_not accessToken)
    (InvalidTokenError "Invalid token: access token is invalid") ;;;
  user <- lift (get accessToken "user") ;;
  throw_if (js_not user)
    (ServerError "Server error: `getAccessToken()` did not return a `user` object") ;;;
  expiresAt <- lift (get accessToken "accessTokenExpiresAt") ;;
  throw_if (negb (instanceofDate expiresAt))
    (ServerError "Server error: `accessTokenExpiresAt` must be a Date instance") ;;;
  e <- lift (getTime expiresAt) ;;
  throw_if (e <? now)
    (InvalidTokenError "Invalid token: access token has expired") ;;;
  ret accessToken.

Definition verifyAccessTokenScope (this : t) (accessToken : JsVal) : M σ JsVal :=
  match Model.verifyScope (model this) with
  | None => throw (TypeError_call "this.model.verifyScope")
  | Some f =>
      sc <- await (f accessToken (scope this))
              (VerifyScope accessToken (scope this)) ;;
      throw_if (js_not sc)
        (InsufficientScopeError
           "Insufficient scope: authorized scope is insufficient") ;;;
      ret sc
  end.

Definition execute (this : t) (request : Request.t) : H σ JsVal :=
  try_catch
    (token <- lift (AuthenticateRequest.new request
                      (default_to (JBool false)
                         (allowBearerTokensInQueryString this))) ;;
     accessToken <- liftH (validateAccessToken this token) ;;
     (if truthy (scope this)
      then liftH (verifyAccessTokenScope this accessToken) ;;; ret tt
      else ret tt) ;;;
     AuthenticateResponse.setSuccessResponse accessToken (scope this)
       (addAcceptedScopesHeader this) (addAuthorizedScopesHeader this) ;;;
     lift (get accessToken "user"))
    (fun e => AuthenticateResponse.setErrorResponse e ;;; throw e).

End Defs.
Arguments t σ : clear implicits.
End AuthenticateHandler.

(* ------------------------------------------------------------------ *)
(** *** Introspection (RFC 7662) *)

Module IntrospectRequest.

Record t : Type := mk {
  clientId : JsVal;
  clientSecret : JsVal;
  tokenHint : JsVal;
  token : JsVal
}.

Definition new (request : Request.t) (isClientSecretRequired : JsVal)
  : JsError + t :=
  if negb (Request.method request =? "POST")%string
  then inl (InvalidRequestError "Invalid request: method must be POST")
  else if negb (Request.is_form request)
  then inl (InvalidRequestError
              "Invalid request: content must be application/x-www-form-urlencoded")
  else
    let '(clientId, clientSecret) :=
      match Request.basic_auth request with
      | Some (name, pass) => (JStr name, JStr pass)
      | None => (field (Request.body request) "client_id",
                 field (Request.body request) "client_secret")
      end in
    if js_not clientId
    then inl (InvalidRequestError "Missing parameter: `client_id`")
    else if negb (Is.vschar clientId)
    then inl (InvalidRequestError "Invalid parameter: `client_id`")
    else if truthy isClientSecretRequired && js_not clientSecret
    then inl (InvalidRequestError "Missing parameter: `client_secret`")
    else if truthy clientSecret && negb (Is.vschar clientSecret)
    then inl (InvalidRequestError "Invalid parameter: `client_secret`")
    else
      let token := field (Request.body request) "token" in
      let tokenHint := field (Request.body request) "token_hint" in
      if js_not tokenHint && js_not token
      then inl (InvalidRequestError "Missing parameter: `token_hint` and `token`")
      else if js_not token
      then inl (InvalidRequestError "Missing parameter: `token`")
      else if js_not tokenHint
      then inl (InvalidRequestError "Missing parameter: `token_hint`")
      else if negb (strict_eq tokenHint (JStr "access_token")
                    || strict_eq tokenHint (JStr "refresh_token"))
      then inl (InvalidRequestError "Invalid parameter: `token_hint`")
      else inr {| clientId := clientId; clientSecret := clientSecret;
                  tokenHint := tokenHint; token := token |}.

End IntrospectRequest.

Module IntrospectResponse.
Section Defs.
Context {σ : Type}.

Definition setSuccessResponse (body : JsVal) : H σ unit :=
  setHeader "Cache-Control" (JStr "no-store") ;;;
  setHeader "Pragma" (JStr "no-cache") ;;;
  setBody body.

Definition setErrorResponse (error : JsError) (isAuthorizationHeader : JsVal)
  : H σ unit :=
  if (err_name error =? "invalid_client")%string && truthy isAuthorizationHeader
  then
    setHeader "WWW-Authenticate"
      (JStr ("Basic realm=" ++ dquote ++ "Service" ++ dquote)) ;;;
    setBody (error_body error) ;;;
    setStatus (JNum 401)
  else
    let error' :=
      if instanceofOAuthError error then error else ServerError_wrap error in
    setBody (error_body error') ;;;
    setStatus (err_status error').

End Defs.
End IntrospectResponse.

Module IntrospectHandler.
Section Defs.
Context {σ : Type} (rt : Runtime.t σ).

Record t : Type := mk {
  model : Model.t σ;
  isClientSecretRequired : JsVal
}.

Definition authenticateClient (this : t) (credentials : IntrospectRequest.t)
  : M σ JsVal :=
  client <- await (Model.getClient (model this)
                     (IntrospectRequest.clientId credentials)
                     (IntrospectRequest.clientSecret credentials))
              (GetClient (IntrospectRequest.clientId credentials)
                         (IntrospectRequest.clientSecret credentials)) ;;
  throw_if (js_not client) (InvalidClientError "Invalid client: client is invalid") ;;;
  ret client.

(** The token when it was issued to the client, [false] otherwise. *)
Definition verifyToken (this : t) (introspectRequest : IntrospectRequest.t)
           (client : JsVal) : M σ JsVal :=
  token <-
    (if strict_eq (IntrospectRequest.tokenHint introspectRequest)
                  (JStr "access_token")
     then await (Model.getAccessToken (model this)
                   (IntrospectRequest.token introspectRequest))
            (GetAccessToken (IntrospectRequest.token introspectRequest))
     else await (Model.getRefreshToken (model this)
                   (IntrospectRequest.token introspectRequest))
            (GetRefreshToken (IntrospectRequest.token introspectRequest))) ;;
  if truthy token then
    token_client <- lift (get token "client") ;;
    token_client_id <- lift (get token_client "id") ;;
    client_id <- lift (get client "id") ;;
    ret (if strict_eq token_client_id client_id then token else JBool false)
  else ret (JBool false).

Definition composeIntrospectResult (introspectRequest : IntrospectRequest.t)
           (token : JsVal) : M σ JsVal :=
  if js_not token then ret (JObj [("active", JBool false)])
  else
    now <- Date_now rt ;;
    expiresAt <-
      lift (if strict_eq (IntrospectRequest.tokenHint introspectRequest)
                         (JStr "access_token")
            then get token "accessTokenExpiresAt"
            else get token "refreshTokenExpiresAt") ;;
    e <- lift (getTime expiresAt) ;;
    let hasExpired := e <? now in
    if hasExpired then ret (JObj [("active", JBool false)])
    else
      token_client <- lift (get token "client") ;;
      client_id <- lift (get token_client "id") ;;
      token_user <- lift (get token "user") ;;
      username <- lift (get token_user "username") ;;
      scope <- lift (get token "scope") ;;
      ret (JObj [("active", JBool true);
                 ("client_id", client_id);
                 ("username", username);
                 ("scope", scope);
                 ("expires_at", expiresAt)]).

Definition execute (this : t) (request : Request.t) : H σ unit :=
  try_catch
    (introspectRequest <-
       lift (IntrospectRequest.new request
               (default_to (JBool true) (isClientSecretRequired this))) ;;
     client <- liftH (authenticateClient this introspectRequest) ;;
     token <- liftH (verifyToken this introspectRequest client) ;;
     result <- liftH (composeIntrospectResult introspectRequest token) ;;
     IntrospectResponse.setSuccessResponse result)
    (fun e =>
       let isAuthorizationHeader := Request.get request "authorization" in
       IntrospectResponse.setErrorResponse e isAuthorizationHeader ;;;
       throw e).

End Defs.
Arguments t σ : clear implicits.
End IntrospectHandler.

(* ------------------------------------------------------------------ *)
(** *** Revocation (RFC 7009) *)

Module RevokeRequest.

(** Modelled from the spec: the revoke request object
    ([revoke/revoke-request.js]) is missing from the sources at hand.  The
    specification gives it the parsing rules and the structure of the
    introspect request (credentials, [tokenHint], [token]). *)
Definition t : Type := IntrospectRequest.t.

Definition new (request : Request.t) (isClientSecretRequired : JsVal)
  : JsError + t :=
  IntrospectRequest.new request isClientSecretRequired.

End RevokeRequest.

Module RevokeResponse.
Section Defs.
Context {σ : Type}.

(** Modelled from the spec: the revoke response object
    ([revoke/revoke-response.js]) is missing from the sources at hand.  On
    success the endpoint answers 200 with an empty body. *)
Definition setSuccessResponse : H σ unit :=
  setBody (JObj []) ;;;
  setStatus (JNum 200).

(** Modelled from the spec: errors are shaped as by the introspection
    endpoint (JSON body with the status of the error, 401 with a Basic
    challenge for [invalid_client] under an Authorization header). *)
Definition setErrorResponse (error : JsError) (isAuthorizationHeader : JsVal)
  : H σ unit :=
  IntrospectResponse.setErrorResponse error isAuthorizationHeader.

End Defs.
End RevokeResponse.

Module RevokeHandler.
Section Defs.
Context {σ : Type}.

Record t : Type := mk {
  model : Model.t σ;
  isClientSecretRequired : JsVal
}.

Definition authenticateClient (this : t) (credentials : RevokeRequest.t)
  : M σ JsVal :=
  client <- await (Model.getClient (model this)
                     (IntrospectRequest.clientId credentials)
                     (IntrospectRequest.clientSecret credentials))
              (GetClient (IntrospectRequest.clientId credentials)
                         (IntrospectRequest.clientSecret credentials)) ;;
  throw_if (js_not client) (InvalidClientError "Invalid client: client is invalid") ;;;
  ret client.

Definition verifyToken (this : t) (revokeRequest : RevokeRequest.t)
           (client : JsVal) : M σ JsVal :=
  token <-
    (if strict_eq (IntrospectRequest.tokenHint revokeRequest) (JStr "access_token")
     then await (Model.getAccessToken (model this)
                   (IntrospectRequest.token revokeRequest))
            (GetAccessToken (IntrospectRequest.token revokeRequest))
     else await (Model.getRefreshToken (model this)
                   (IntrospectRequest.token revokeRequest))
            (GetRefreshToken (IntrospectRequest.token revokeRequest))) ;;
  if truthy token then
    token_client <- lift (get token "client") ;;
    token_client_id <- lift (get token_client "id") ;;
    client_id <- lift (get client "id") ;;
    ret (if strict_eq token_client_id client_id then token else JBool false)
  else ret (JBool false).

Definition invalidateToken (this : t) (revokeRequest : RevokeRequest.t)
           (token : JsVal) : M σ JsVal :=
  if strict_eq (IntrospectRequest.tokenHint revokeRequest) (JStr "access_token")
  then await (Model.revokeAccessToken (model this) token) (RevokeAccessToken token)
  else await (Model.revokeRefreshToken (model this) token) (RevokeRefreshToken token).

Definition execute (this : t) (request : Request.t) : H σ unit :=
  try_catch
    (revokeRequest <-
       lift (RevokeRequest.new request
               (default_to (JBool true) (isClientSecretRequired this))) ;;
     client <- liftH (authenticateClient this revokeRequest) ;;
     token <- liftH (verifyToken this revokeRequest client) ;;
     (if truthy token
      then liftH (invalidateToken this revokeRequest token) ;;; ret tt
      else ret tt) ;;;
     RevokeResponse.setSuccessResponse)
    (fun e =>
       let isAuthorizationHeader := Request.get request "authorization" in
       RevokeResponse.setErrorResponse e isAuthorizationHeader ;;;
       throw e).

End Defs.
Arguments t σ : clear implicits.
End RevokeHandler.

(* ------------------------------------------------------------------ *)
(** *** Authorization endpoint *)

(** A lifetime, in seconds, stored on a client record overrides the option
    when it is truthy ([client.x || this.x]).  Lifetimes are numbers; a
    value of another type, which JavaScript would coerce, is not taken. *)
Definition lifetime_or (v : JsVal) (dflt : Z) : Z :=
  match v with
  | JNum n => if n =? 0 then dflt else n
  | _ => dflt
  end.

Module ImplicitGrant.
Section Defs.
Context {σ : Type} (rt : Runtime.t σ).

Record t : Type := mk {
  model : Model.t σ;
  user : JsVal;
  scope : JsVal;
  accessTokenLifetime : Z;
  allowExtendedTokenAttributes : JsVal
}.

Definition new (model : Model.t σ) (user scope : JsVal)
           (accessTokenLifetime : Z) : JsError + t :=
  if js_not user then inl (InvalidArgumentError "Missing parameter: `user`")
  else if js_not scope then inl (InvalidArgumentError "Missing parameter: `scope`")
  else inr {| model := model; user := user; scope := scope;
              accessTokenLifetime := accessTokenLifetime;
              allowExtendedTokenAttributes := JUndefined |}.

Definition createToken (this : t) (client user scope : JsVal) : M σ JsVal :=
  match Model.generateAccessToken (model this) with
  | Some f =>
      token <- await (f client user scope)
                 (GenerateAccessToken client user scope) ;;
      if truthy token then ret token else randomToken rt
  | None => randomToken rt
  end.

Definition setAccessTokenExpiresAt (this : t) : M σ JsVal :=
  n <- Date_now rt ;; ret (JDate (n + accessTokenLifetime this * 1000)).

(** [createAccessToken(client)]; the Model is called as
    [saveToken(token, client, this.user)]. *)
Definition createAccessToken (this : t) (client : JsVal) : M σ JsVal :=
  accessToken <- createToken this client (user this) (scope this) ;;
  accessTokenExpiresAt <- setAccessTokenExpiresAt this ;;
  let token :=
    JObj [("accessToken", accessToken);
          ("accessTokenExpiresAt", accessTokenExpiresAt);
          ("scope", scope this)] in
  await (Model.saveToken (model this) token client (user this))
    (SaveToken token client (user this)).

Definition execute (this : t) (client : JsVal) : M σ JsVal :=
  try_catch
    (accessToken <- createAccessToken this client ;;
     tm <- TokenModel.new rt accessToken (allowExtendedTokenAttributes this) ;;
     lift (BearerToken.of_model tm))
    (fun e => throw e).

End Defs.
End ImplicitGrant.

Module CodeResponse.
Section Defs.
Context {σ : Type} (rt : Runtime.t σ).

Record t : Type := mk {
  model : Model.t σ;
  authorizationCodeLifetime : Z
}.

Definition new (model : Model.t σ) (authorizationCodeLifetime : Z)
  : JsError + t :=
  if authorizationCodeLifetime =? 0
  then inl (InvalidArgumentError "Missing parameter: `authorizationCodeLifetime`")
  else inr {| model := model;
              authorizationCodeLifetime := authorizationCodeLifetime |}.

Definition setAuthorizationCodeExpiresAt (this : t) (client : JsVal)
  : M σ JsVal :=
  n <- Date_now rt ;;
  cl <- lift (get client "authorizationCodeLifetime") ;;
  ret (JDate (n + lifetime_or cl (authorizationCodeLifetime this) * 1000)).

Definition createAuthorizationCode (this : t)
           (client user scope redirectUri : JsVal) : M σ JsVal :=
  authorizationCode <-
    (match Model.generateAuthorizationCode (model this) with
     | Some f =>
         c <- await (f client user scope)
                (GenerateAuthorizationCode client user scope) ;;
         throw_if (js_not c)
           (ServerError
              "Server error: `generateAuthorizationCode` did not return an `authorizationCode` value") ;;;
         ret c
     | None => randomToken rt
     end) ;;
  expiresAt <- setAuthorizationCodeExpiresAt this client ;;
  let record :=
    JObj [("authorizationCode", authorizationCode);
          ("scope", scope);
          ("redirectUri", redirectUri);
          ("expiresAt", expiresAt)] in
  code <- await (Model.saveAuthorizationCode (model this) client user record)
            (SaveAuthorizationCode client user record) ;;
  throw_if (js_not code || js_not (prop code "authorizationCode"))
    (ServerError
       "Server error: `saveAuthorizationCode` did not return an `authorizationCode` value") ;;;
  ret (prop code "authorizationCode").

(** [buildRedirectUri(code, scope, uri, state)]: the URL object handed to
    [url.format]. *)
Definition buildRedirectUri (code scope uri state : JsVal)
  : JsError + Url.UrlObject :=
  match Url.parse_val uri true with
  | inl e => inl e
  | inr redirectUri =>
      let q0 := assoc_set "code" code (Url.query redirectUri) in
      let q1 := if truthy scope then assoc_set "scope" scope q0 else q0 in
      let q2 := if truthy state then assoc_set "state" state q1 else q1 in
      inr {| Url.base := Url.base redirectUri;
             Url.search := None;
             Url.query := q2;
             Url.hash := Url.hash redirectUri |}
  end.

Definition execute (this : t) (client user scope redirectUri state : JsVal)
  : M σ Url.UrlObject :=
  try_catch
    (code <- createAuthorizationCode this client user scope redirectUri ;;
     lift (buildRedirectUri code scope redirectUri state))
    (fun e => throw e).

End Defs.
End CodeResponse.

Module TokenResponse.
Section Defs.
Context {σ : Type} (rt : Runtime.t σ).

Record t : Type := mk {
  model : Model.t σ;
  accessTokenLifetime : Z
}.

Definition new (model : Model.t σ) (accessTokenLifetime : Z) : JsError + t :=
  if accessTokenLifetime =? 0
  then inl (InvalidArgumentError "Missing parameter: `accessTokenLifetime`")
  else inr {| model := model; accessTokenLifetime := accessTokenLifetime |}.

Definition amp (h : string) : string := if (h =? "")%string then "" else "&".

Definition buildRedirectUri (this : t) (token uri state : JsVal)
  : JsError + Url.UrlObject :=
  match Url.parse_val uri false with
  | inl e => inl e
  | inr redirectUri =>
      match get token "access_token" with
      | inl e => inl e
      | inr access_token =>
          let h0 := match Url.hash redirectUri with Some h => h | None => "" end in
          let h1 := h0 ++ amp h0 ++ "access_token="
                       ++ Url.encodeURIComponent access_token in
          let h2 := h1 ++ amp h1 ++ "expires_in="
                       ++ Url.encodeURIComponent (JNum (accessTokenLifetime this)) in
          let h3 := if truthy state
                    then h2 ++ amp h2 ++ "state=" ++ Url.encodeURIComponent state
                    else h2 in
          inr {| Url.base := Url.base redirectUri;
                 Url.search := Url.search redirectUri;
                 Url.query := Url.query redirectUri;
                 Url.hash := Some h3 |}
      end
  end.

Definition execute (this : t) (client user scope redirectUri state : JsVal)
  : M σ Url.UrlObject :=
  try_catch
    (cl <- lift (get client "accessTokenLifetime") ;;
     grant <- lift (ImplicitGrant.new (model this) user scope
                      (lifetime_or cl (accessTokenLifetime this))) ;;
     token <- ImplicitGrant.execute rt grant client ;;
     lift (buildRedirectUri this token redirectUri state))
    (fun e => throw e).

End Defs.
End TokenResponse.

Module AuthorizationRequest.

Record t : Type := mk {
  responseType : JsVal;
  redirectUri : JsVal;
  clientId : JsVal;
  scope : JsVal;
  state : JsVal
}.

(** [body.name || query.name]. *)
Definition param (request : Request.t) (name : string) : JsVal :=
  js_or (field (Request.body request) name) (field (Request.query request) name).

Definition new (request : Request.t) (allowEmptyState : JsVal) : JsError + t :=
  if strict_eq (JStr "false") (field (Request.query request) "allowed")
  then inl (AccessDeniedError "Access denied: user denied access to application")
  else
    let requestResponseType := param request "response_type" in
    if js_not requestResponseType
    then inl (InvalidRequestError "Missing parameter: `response_type`")
    else if negb (strict_eq requestResponseType (JStr "code")
                  || strict_eq requestResponseType (JStr "token"))
    then inl (UnsupportedResponseTypeError "Invalid parameter: `response_type`")
    else
      let requestRedirectUri := param request "redirect_uri" in
      if js_not requestRedirectUri
      then inl (InvalidRequestError "Missing parameter: `redirect_uri`")
      else if truthy requestRedirectUri && negb (Is.uri requestRedirectUri)
      then inl (InvalidRequestError
                  "Invalid request: `redirect_uri` is not a valid URI")
      else
        let requestClientId := param request "client_id" in
        if js_not requestClientId
        then inl (InvalidRequestError "Missing parameter: `client_id`")
        else if negb (Is.vschar requestClientId)
        then inl (InvalidRequestError "Invalid parameter: `client_id`")
        else
          let requestScope := param request "scope" in
          if negb (Is.nqschar requestScope)
          then inl (InvalidScopeError "Invalid parameter: `scope`")
          else
            let requestState := param request "state" in
            if js_not allowEmptyState && js_not requestState
            then inl (InvalidRequestError "Missing parameter: `state`")
            else if negb (Is.vschar requestState)
            then inl (InvalidRequestError "Invalid parameter: `state`")
            else inr {| responseType := requestResponseType;
                        redirectUri := requestRedirectUri;
                        clientId := requestClientId;
                        scope := requestScope;
                        state := requestState |}.

End AuthorizationRequest.

Module AuthorizationResponse.
Section Defs.
Context {σ : Type}.

Definition setSuccessResponse (redirectUri : Url.UrlObject) : H σ unit :=
  setHeader "Location" (JStr (Url.format redirectUri)) ;;;
  setStatus (JNum 302).

Definition setErrorResponse (error : JsError) (uri : JsVal) : H σ unit :=
  if (err_name error =? "invalid_client")%string
     || (err_name error =? "unauthorized_request")%string
  then
    setBody (error_body error) ;;;
    setStatus (JNum 401)
  else
    redirectUri <- lift (if truthy uri then Url.parse_val uri true
                         else inr Url.empty) ;;
    let q0 := assoc_set "error" (JStr (err_name error)) (Url.query redirectUri) in
    let q1 := if negb (err_message error =? "")%string
              then assoc_set "error_description" (JStr (err_message error)) q0
              else q0 in
    let redirectUri' :=
      {| Url.base := Url.base redirectUri;
         Url.search := Url.search redirectUri;
         Url.query := q1;
         Url.hash := Url.hash redirectUri |} in
    setHeader "Location" (JStr (Url.format redirectUri')) ;;;
    setStatus (JNum 302) ;;;
    setBody (error_body error).

End Defs.
End AuthorizationResponse.

(** [list.includes(v)] on an array (membership) or on a string (substring
    search); a [TypeError] on anything else. *)
Definition includes (owner : string) (l v : JsVal) : JsError + bool :=
  match l with
  | JArr elems => inr (existsb (strict_eq v) elems)
  | JStr s =>
      match toStr v with
      | Some x => inr (match index 0 x s with Some _ => true | None => false end)
      | None => inr false
      end
  | JUndefined | JNull => inl (TypeError_read "includes" l)
  | _ => inl (TypeError_call (owner ++ ".includes"))
  end.

(** [l.length === 0]. *)
Definition length_is_zero (l : JsVal) : bool :=
  match l with
  | JArr [] => true
  | JStr s => (s =? "")%string
  | _ => false
  end.

Module AuthorizeHandler.
Section Defs.
Context {σ : Type} (rt : Runtime.t σ).

(** The instance: [authenticateHandler] is the handler supplied by the host,
    if any; otherwise the bearer handler built from the authenticate
    options is used. *)
Record t : Type := mk {
  model : Model.t σ;
  accessTokenLifetime : Z;
  authorizationCodeLifetime : Z;
  allowEmptyState : JsVal;
  bearerHandler : AuthenticateHandler.t σ;
  authenticateHandler : option (Request.t -> H σ JsVal)
}.

Definition authenticateResourceOwner (this : t) (request : Request.t)
  : H σ JsVal :=
  user <- (match authenticateHandler this with
           | Some h => h request
           | None => AuthenticateHandler.execute rt (bearerHandler this) request
           end) ;;
  throw_if (js_not user)
    (ServerError "Server error: `authenticateHandler` did not return a `user` object") ;;;
  ret user.

Definition validateClient (this : t)
           (authorizationRequest : AuthorizationRequest.t) : M σ JsVal :=
  let clientId := AuthorizationRequest.clientId authorizationRequest in
  let responseType := AuthorizationRequest.responseType authorizationRequest in
  let redirectUri := AuthorizationRequest.redirectUri authorizationRequest in
  client <- await (Model.getClient (model this) clientId JUndefined)
              (GetClient clientId JUndefined) ;;
  throw_if (js_not client)
    (InvalidClientError "Invalid client: client credentials are invalid") ;;;
  grants <- lift (get client "grants") ;;
  throw_if (js_not grants)
    (InvalidClientError "Invalid client: missing client `grants`") ;;;
  bad_code <-
    (if strict_eq responseType (JStr "code")
     then inc <- lift (includes "client.grants" grants (JStr "authorization_code")) ;;
          ret (negb inc)
     else ret false) ;;
  throw_if bad_code
    (UnauthorizedClientError "Unauthorized client: `grant_type` is invalid") ;;;
  bad_token <-
    (if strict_eq responseType (JStr "token")
     then inc <- lift (includes "client.grants" grants (JStr "implicit")) ;;
          ret (negb inc)
     else ret false) ;;
  throw_if bad_token
    (UnauthorizedClientError "Unauthorized client: `grant_type` is invalid") ;;;
  redirectUris <- lift (get client "redirectUris") ;;
  throw_if (js_not redirectUris || length_is_zero redirectUris)
    (InvalidClientError "Invalid client: missing client `redirectUri`") ;;;
  mismatch <-
    (if truthy redirectUri
     then inc <- lift (includes "client.redirectUris" redirectUris redirectUri) ;;
          ret (negb inc)
     else ret false) ;;
  throw_if mismatch
    (InvalidClientError "Invalid client: `redirect_uri` does not match client value") ;;;
  ret client.

(** The Model is called as [validateScope(user, client, scope)]. *)
Definition validateScope (this : t)
           (authorizationRequest : AuthorizationRequest.t) (user client : JsVal)
  : M σ JsVal :=
  let scope := AuthorizationRequest.scope authorizationRequest in
  match Model.validateScope (model this) with
  | Some f =>
      validScope <- await (f user client scope) (ValidateScope user client scope) ;;
      throw_if (js_not validScope)
        (InvalidScopeError "Invalid scope: Requested scope is invalid") ;;;
      ret validScope
  | None => ret scope
  end.

Definition execute (this : t) (request : Request.t) : H σ unit :=
  try_catch
    (authorizationRequest <-
       lift (AuthorizationRequest.new request (allowEmptyState this)) ;;
     user <- authenticateResourceOwner this request ;;
     client <- liftH (validateClient this authorizationRequest) ;;
     validScope <- liftH (validateScope this authorizationRequest user client) ;;
     redirectUri <-
       (if strict_eq (AuthorizationRequest.responseType authorizationRequest)
                     (JStr "code")
        then
          responseType <- lift (CodeResponse.new (model this)
                                  (authorizationCodeLifetime this)) ;;
          liftH (CodeResponse.execute rt responseType client user validScope
                   (AuthorizationRequest.redirectUri authorizationRequest)
                   (AuthorizationRequest.state authorizationRequest))
        else
          responseType <- lift (TokenResponse.new (model this)
                                  (accessTokenLifetime this)) ;;
          liftH (TokenResponse.execute rt responseType client user validScope
                   (AuthorizationRequest.redirectUri authorizationRequest)
                   (AuthorizationRequest.state authorizationRequest))) ;;
     AuthorizationResponse.setSuccessResponse redirectUri)
    (fun e =>
       let uri := js_or (field (Request.body request) "redirect_uri")
                        (field (Request.query request) "redirect_uri") in
       AuthorizationResponse.setErrorResponse e uri ;;;
       throw e).

End Defs.
Arguments t σ : clear implicits.
End AuthorizeHandler.

(* ================================================================== *)
(** ** Password and client-credentials grants ([lib/grants]) *)
(* ================================================================== *)

(** The capabilities of the Model that look up resource owners,
    [getUser(username, password)] and [getUserFromClient(client)]; either
    may be absent.  They run on the state of the host like the others.  The
    trace of calls follows clients, codes, tokens and scopes: a user lookup
    leaves no event in it. *)
Module UserModel.
Record t (σ : Type) : Type := mk {
  getUser : option (JsVal -> JsVal -> σ -> JsVal * σ);
  getUserFromClient : option (JsVal -> σ -> JsVal * σ)
}.
Arguments getUser {σ}.
Arguments getUserFromClient {σ}.
End UserModel.

(** [await f(...)] for a user lookup [f]. *)
Definition awaitUser {σ} (f : σ -> JsVal * σ) : M σ JsVal :=
  fun s => let '(r, s1) := f s in (inr r, s1, []).

Module PasswordGrant.

(** The access-token request of the password flow
    ([password/access-token-request.js]): the credentials and the scope. *)
Module AccessTokenRequest.
Record t : Type := mk { username : JsVal; password : JsVal; scope : JsVal }.

Definition new (request : Request.t) (client : JsVal) : JsError + t :=
  if js_not client
  then inl (InvalidArgumentError "Missing parameter: `client`")
  else
    let username := field (Request.body request) "username" in
    let password := field (Request.body request) "password" in
    if js_not username
    then inl (InvalidRequestError "Missing parameter: `username`")
    else if js_not password
    then inl (InvalidRequestError "Missing parameter: `password`")
    else if negb (Is.uchar username)
    then inl (InvalidRequestError "Invalid parameter: `username`")
    else if negb (Is.uchar password)
    then inl (InvalidRequestError "Invalid parameter: `password`")
    else
      let scope := field (Request.body request) "scope" in
      if negb (Is.nqschar scope)
      then inl (InvalidRequestError "Invalid parameter: `scope`")
      else inr {| username := username; password := password; scope := scope |}.
End AccessTokenRequest.

Section Defs.
Context {σ : Type} (rt : Runtime.t σ).

(** The instance: the fields of the abstract grant, and the [getUser] the
    constructor found on the Model. *)
Record t : Type := mk {
  grant : AbstractGrant.t σ;
  getUser : JsVal -> JsVal -> σ -> JsVal * σ
}.

Definition new (model : Model.t σ) (users : UserModel.t σ)
           (accessTokenLifetime refreshTokenLifetime : Z)
           (alwaysIssueNewRefreshToken allowExtendedTokenAttributes : JsVal)
  : JsError + t :=
  match AbstractGrant.new model accessTokenLifetime refreshTokenLifetime
          alwaysIssueNewRefreshToken allowExtendedTokenAttributes with
  | inl e => inl e
  | inr g =>
      match UserModel.getUser users with
      | None => inl (InvalidArgumentError
                       "Invalid argument: model does not implement `getUser()`")
      | Some f => inr {| grant := g; getUser := f |}
      end
  end.

Definition validateUser (this : t) (accessTokenRequest : AccessTokenRequest.t)
  : M σ JsVal :=
  user <- awaitUser (getUser this (AccessTokenRequest.username accessTokenRequest)
                       (AccessTokenRequest.password accessTokenRequest)) ;;
  throw_if (js_not user)
    (InvalidGrantError "Invalid grant: user credentials are invalid") ;;;
  ret user.

Definition createToken (this : t) (client user : JsVal)
           (accessTokenRequest : AccessTokenRequest.t) : M σ JsVal :=
  let scope := AccessTokenRequest.scope accessTokenRequest in
  accessScope <- AbstractGrant.validateScope (grant this) client user scope ;;
  accessToken <- AbstractGrant.generateAccessToken rt (grant this) client user scope ;;
  refreshToken <- AbstractGrant.generateRefreshToken rt (grant this) client user scope ;;
  accessTokenExpiresAt <- AbstractGrant.setAccessTokenExpiresAt rt (grant this) ;;
  refreshTokenExpiresAt <- AbstractGrant.setRefreshTokenExpiresAt rt (grant this) ;;
  let token :=
    JObj [("accessToken", accessToken);
          ("accessTokenExpiresAt", accessTokenExpiresAt);
          ("refreshToken", refreshToken);
          ("refreshTokenExpiresAt", refreshTokenExpiresAt);
          ("scope", accessScope)] in
  await (Model.saveToken (AbstractGrant.model (grant this)) client user token)
    (SaveToken client user token).

Definition execute (this : t) (request : Request.t) (client : JsVal)
  : M σ JsVal :=
  try_catch
    (accessTokenRequest <- lift (AccessTokenRequest.new request client) ;;
     user <- validateUser this accessTokenRequest ;;
     data <- createToken this client user accessTokenRequest ;;
     tm <- TokenModel.new rt data
             (AbstractGrant.allowExtendedTokenAttributes (grant this)) ;;
     lift (BearerToken.of_model tm))
    (fun e => throw e).

End Defs.
Arguments t σ : clear implicits.
End PasswordGrant.

Module ClientCredentialGrant.

(** The access-token request of the client-credentials flow
    ([client-credentials/access-token-request.js]): the scope. *)
Module AccessTokenRequest.
Record t : Type := mk { scope : JsVal }.

Definition new (request : Request.t) (client : JsVal) : JsError + t :=
  if js_not client
  then inl (InvalidArgumentError "Missing parameter: `client`")
  else
    let scope := field (Request.body request) "scope" in
    if negb (Is.nqschar scope)
    then inl (InvalidArgumentError "Invalid parameter: `scope`")
    else inr {| scope := scope |}.
End AccessTokenRequest.

Section Defs.
Context {σ : Type} (rt : Runtime.t σ).

Record t : Type := mk {
  grant : AbstractGrant.t σ;
  getUserFromClient : JsVal -> σ -> JsVal * σ
}.

Definition new (model : Model.t σ) (users : UserModel.t σ)
           (accessTokenLifetime refreshTokenLifetime : Z)
           (alwaysIssueNewRefreshToken allowExtendedTokenAttributes : JsVal)
  : JsError + t :=
  match AbstractGrant.new model accessTokenLifetime refreshTokenLifetime
          alwaysIssueNewRefreshToken allowExtendedTokenAttributes with
  | inl e => inl e
  | inr g =>
      match UserModel.getUserFromClient users with
      | None =>
          inl (InvalidArgumentError
                 "Invalid argument: model does not implement `getUserFromClient()`")
      | Some f => inr {| grant := g; getUserFromClient := f |}
      end
  end.

(** [validateUser(client)]; its first statement logs
    [client.user.username], which is read before the Model is asked. *)
Definition validateUser (this : t) (client : JsVal) : M σ JsVal :=
  client_user <- lift (get client "user") ;;
  lift (get client_user "username") ;;;
  user <- awaitUser (getUserFromClient this client) ;;
  throw_if (js_not user)
    (InvalidGrantError "Invalid grant: user credentials are invalid") ;;;
  ret user.

Definition createToken (this : t) (client user : JsVal)
           (accessTokenRequest : AccessTokenRequest.t) : M σ JsVal :=
  let scope := AccessTokenRequest.scope accessTokenRequest in
  accessScope <- AbstractGrant.validateScope (grant this) client user scope ;;
  accessToken <- AbstractGrant.generateAccessToken rt (grant this) client user scope ;;
  accessTokenExpiresAt <- AbstractGrant.setAccessTokenExpiresAt rt (grant this) ;;
  let token :=
    JObj [("accessToken", accessToken);
          ("accessTokenExpiresAt", accessTokenExpiresAt);
          ("scope", accessScope)] in
  await (Model.saveToken (AbstractGrant.model (grant this)) client user token)
    (SaveToken client user token).

Definition execute (this : t) (request : Request.t) (client : JsVal)
  : M σ JsVal :=
  try_catch
    (accessTokenRequest <- lift (AccessTokenRequest.new request client) ;;
     user <- validateUser this client ;;
     data <- createToken this client user accessTokenRequest ;;
     tm <- TokenModel.new rt data
             (AbstractGrant.allowExtendedTokenAttributes (grant this)) ;;
     lift (BearerToken.of_model tm))
    (fun e => throw e).

End Defs.
Arguments t σ : clear implicits.
End ClientCredentialGrant.

(* ================================================================== *)
(** ** Token endpoint ([lib/handlers/token]) *)
(* ================================================================== *)

(** Objects whose values are not data: lookup [obj[k]], assignment
    [obj[k] = v] and the spread [{ ...base, ...ext }]. *)
Fixpoint entry {A} (k : string) (obj : list (string * A)) : option A :=
  match obj with
  | [] => None
  | (k', v) :: rest => if (k' =? k)%string then Some v else entry k rest
  end.

Fixpoint assign {A} (k : string) (v : A) (obj : list (string * A))
  : list (string * A) :=
  match obj with
  | [] => [(k, v)]
  | (k', v') :: rest =>
      if (k' =? k)%string then (k, v) :: rest
      else (k', v') :: assign k v rest
  end.

Definition spread {A} (base ext : list (string * A)) : list (string * A) :=
  fold_left (fun obj kv => assign (fst kv) (snd kv) obj) ext base.

Module Token.

Module TokenRequest.

Record t : Type := mk {
  grantType : JsVal;
  clientId : JsVal;
  clientSecret : JsVal
}.

(** [grant_type === g && requireClientAuthentication[g] &&
    !credentials.clientSecret]. *)
Definition secretMissing (grant_type requireClientAuthentication clientSecret : JsVal)
           (g : string) : JsError + bool :=
  if strict_eq grant_type (JStr g) then
    match get requireClientAuthentication g with
    | inl e => inl e
    | inr flag => inr (truthy flag && js_not clientSecret)
    end
  else inr false.

Definition new (request : Request.t) (allowedGrants : list string)
           (requireClientAuthentication0 : JsVal) : JsError + t :=
  let requireClientAuthentication :=
    default_to (JObj [("password", JBool true); ("refresh_token", JBool true)])
               requireClientAuthentication0 in
  if negb (Request.method request =? "POST")%string
  then inl (InvalidRequestError "Invalid request: method must be POST")
  else if negb (Request.is_form request)
  then inl (InvalidRequestError
              "Invalid request: content must be application/x-www-form-urlencoded")
  else
    let grant_type := field (Request.body request) "grant_type" in
    if js_not grant_type
    then inl (InvalidRequestError "Missing parameter: `grant_type`")
    else if negb (Is.nchar grant_type) && negb (Is.uri grant_type)
    then inl (InvalidRequestError "Invalid parameter: `grant_type`")
    else if negb (existsb (fun g => strict_eq grant_type (JStr g)) allowedGrants)
    then inl (UnsupportedGrantTypeError
                "Unsupported grant type: `grant_type` is invalid")
    else
      let '(clientId, clientSecret) :=
        match Request.basic_auth request with
        | Some (name, pass) => (JStr name, JStr pass)
        | None => (field (Request.body request) "client_id",
                   field (Request.body request) "client_secret")
        end in
      if js_not clientId
      then inl (InvalidRequestError "Missing parameter: `client_id`")
      else
        match secretMissing grant_type requireClientAuthentication clientSecret
                "password" with
        | inl e => inl e
        | inr true => inl (InvalidRequestError "Missing parameter: `client_secret`")
        | inr false =>
            match secretMissing grant_type requireClientAuthentication clientSecret
                    "refresh_token" with
            | inl e => inl e
            | inr true =>
                inl (InvalidRequestError "Missing parameter: `client_secret`")
            | inr false =>
                if negb (Is.vschar clientId)
                then inl (InvalidRequestError "Invalid parameter: `client_id`")
                else if truthy clientSecret && negb (Is.vschar clientSecret)
                then inl (InvalidRequestError "Invalid parameter: `client_secret`")
                else inr {| grantType := grant_type; clientId := clientId;
                            clientSecret := clientSecret |}
            end
        end.

End TokenRequest.

Module TokenResponse.
Section Defs.
Context {σ : Type}.

Definition setSuccessResponse (accessToken : JsVal) : H σ unit :=
  setHeader "Content-Type" (JStr "application/json;charset=UTF-8") ;;;
  setHeader "Cache-Control" (JStr "no-store") ;;;
  setHeader "Pragma" (JStr "no-cache") ;;;
  setBody accessToken.

Definition setErrorResponse (error : JsError) (isAuthorizationHeader : JsVal)
  : H σ unit :=
  setHeader "Content-Type" (JStr "application/json;charset=UTF-8") ;;;
  setHeader "Cache-Control" (JStr "no-store") ;;;
  setHeader "Pragma" (JStr "no-cache") ;;;
  if (err_name error =? "invalid_client")%string && truthy isAuthorizationHeader
  then
    setHeader "WWW-Authenticate"
      (JStr ("Basic realm=" ++ dquote ++ "Service" ++ dquote)) ;;;
    setBody (error_body error) ;;;
    setStatus (JNum 401)
  else
    let error' :=
      if instanceofOAuthError error then error else ServerError_wrap error in
    setBody (error_body error') ;;;
    setStatus (err_status error').

End Defs.
End TokenResponse.

Module TokenHandler.
Section Defs.
Context {σ : Type} (rt : Runtime.t σ).

(** The options a grant is built with. *)
Record GrantOptions : Type := mkOptions {
  optAccessTokenLifetime : Z;
  optRefreshTokenLifetime : Z;
  optAlwaysIssueNewRefreshToken : JsVal;
  optAllowExtendedTokenAttributes : JsVal
}.

(** A grant type: [new GrantType(model, options)] throws or yields an
    instance, whose [execute(request, response, client)] runs on the
    response of the endpoint. *)
Definition GrantType : Type :=
  Model.t σ -> UserModel.t σ -> GrantOptions
  -> JsError + (Request.t -> JsVal -> H σ JsVal).

Definition authorization_code : GrantType :=
  fun model users o =>
    match AbstractGrant.new model (optAccessTokenLifetime o)
            (optRefreshTokenLifetime o) (optAlwaysIssueNewRefreshToken o)
            (optAllowExtendedTokenAttributes o) with
    | inl e => inl e
    | inr g => inr (fun request client =>
                      liftH (AuthorizationCodeGrant.execute rt g request client))
    end.

Definition client_credentials : GrantType :=
  fun model users o =>
    match ClientCredentialGrant.new model users (optAccessTokenLifetime o)
            (optRefreshTokenLifetime o) (optAlwaysIssueNewRefreshToken o)
            (optAllowExtendedTokenAttributes o) with
    | inl e => inl e
    | inr g => inr (fun request client =>
                      liftH (ClientCredentialGrant.execute rt g request client))
    end.

Definition password : GrantType :=
  fun model users o =>
    match PasswordGrant.new model users (optAccessTokenLifetime o)
            (optRefreshTokenLifetime o) (optAlwaysIssueNewRefreshToken o)
            (optAllowExtendedTokenAttributes o) with
    | inl e => inl e
    | inr g => inr (fun request client =>
                      liftH (PasswordGrant.execute rt g request client))
    end.

Definition refresh_token : GrantType :=
  fun model users o =>
    match AbstractGrant.new model (optAccessTokenLifetime o)
            (optRefreshTokenLifetime o) (optAlwaysIssueNewRefreshToken o)
            (optAllowExtendedTokenAttributes o) with
    | inl e => inl e
    | inr g => inr (fun request client =>
                      liftH (RefreshTokenGrant.execute rt g request client))
    end.

(** Supported grant types. *)
Definition grantTypes : list (string * GrantType) :=
  [("authorization_code", authorization_code);
   ("client_credentials", client_credentials);
   ("password", password);
   ("refresh_token", refresh_token)].

Record t : Type := mk {
  model : Model.t σ;
  users : UserModel.t σ;
  accessTokenLifetime : Z;
  refreshTokenLifetime : Z;
  allowExtendedTokenAttributes : JsVal;
  requireClientAuthentication : JsVal;
  alwaysIssueNewRefreshToken : JsVal;
  handlerGrantTypes : list (string * GrantType)
}.

(** The constructor: the supported grant types are the built-in ones
    extended, or overridden, by [options.extendedGrantTypes]. *)
Definition new (model : Model.t σ) (users : UserModel.t σ)
           (accessTokenLifetime refreshTokenLifetime : Z)
           (alwaysIssueNewRefreshToken requireClientAuthentication
              allowExtendedTokenAttributes : JsVal)
           (extendedGrantTypes : list (string * GrantType)) : t :=
  {| model := model;
     users := users;
     accessTokenLifetime := accessTokenLifetime;
     refreshTokenLifetime := refreshTokenLifetime;
     allowExtendedTokenAttributes := allowExtendedTokenAttributes;
     requireClientAuthentication := requireClientAuthentication;
     alwaysIssueNewRefreshToken := alwaysIssueNewRefreshToken;
     handlerGrantTypes := spread grantTypes extendedGrantTypes |}.

(** [Object.keys(this.grantTypes)]. *)
Definition allowedGrants (this : t) : list string :=
  map fst (handlerGrantTypes this).

Definition authenticateClient (this : t) (tokenRequest : TokenRequest.t)
  : M σ JsVal :=
  client <- await (Model.getClient (model this)
                     (TokenRequest.clientId tokenRequest)
                     (TokenRequest.clientSecret tokenRequest))
              (GetClient (TokenRequest.clientId tokenRequest)
                         (TokenRequest.clientSecret tokenRequest)) ;;
  throw_if (js_not client) (InvalidClientError "Invalid client: client is invalid") ;;;
  throw_if (js_not (prop client "grants"))
    (ServerError "Server error: missing client `grants`") ;;;
  throw_if (negb (match prop client "grants" with JArr _ => true | _ => false end))
    (ServerError "Server error: `grants` must be an array") ;;;
  inc <- lift (includes "client.grants" (prop client "grants")
                 (TokenRequest.grantType tokenRequest)) ;;
  throw_if (negb inc)
    (UnauthorizedClientError "Unauthorized client: `grant_type` is invalid") ;;;
  ret client.

(** [processGrant(request, response, client, grantType)]: a lifetime of the
    client overrides the one of the endpoint. *)
Definition processGrant (this : t) (request : Request.t) (client grantType : JsVal)
  : H σ JsVal :=
  let GrantType :=
    match toStr grantType with
    | Some k => entry k (handlerGrantTypes this)
    | None => None
    end in
  cat <- lift (get client "accessTokenLifetime") ;;
  crt <- lift (get client "refreshTokenLifetime") ;;
  let options :=
    {| optAccessTokenLifetime := lifetime_or cat (accessTokenLifetime this);
       optRefreshTokenLifetime := lifetime_or crt (refreshTokenLifetime this);
       optAlwaysIssueNewRefreshToken := alwaysIssueNewRefreshToken this;
       optAllowExtendedTokenAttributes := allowExtendedTokenAttributes this |} in
  match GrantType with
  | None => throw (NativeError "TypeError" "GrantType is not a constructor")
  | Some G =>
      instance <- lift (G (model this) (users this) options) ;;
      instance request client
  end.

Definition execute (this : t) (request : Request.t) : H σ unit :=
  try_catch
    (tokenRequest <-
       lift (TokenRequest.new request (allowedGrants this)
               (requireClientAuthentication this)) ;;
     client <- liftH (authenticateClient this tokenRequest) ;;
     accessToken <- processGrant this request client
                      (TokenRequest.grantType tokenRequest) ;;
     TokenResponse.setSuccessResponse accessToken)
    (fun e =>
       let isAuthorizationHeader := Request.get request "authorization" in
       TokenResponse.setErrorResponse e isAuthorizationHeader ;;;
       throw e).

End Defs.
Arguments t σ : clear implicits.
End TokenHandler.

End Token.

(* ================================================================== *)
(** ** The server ([lib/server.js]) *)
(* ================================================================== *)

Module OAuth2Server.

(** ['' + v === text].  (The text of a Date is not modelled; it is neither
    [true] nor [false].) *)
Definition reads_as (v : JsVal) (text : string) : bool :=
  match toStr v with
  | Some s => (s =? text)%string
  | None => false
  end.

(** [cleanOptions(options)] on an options object: [Object.keys(options)]
    reduced into a new object. *)
Definition cleanOptions (options : list (string * JsVal)) : list (string * JsVal) :=
  fold_left
    (fun acc key =>
       match field options key with
       | JUndefined => acc
       | v =>
           let acc1 := assoc_set key v acc in
           let acc2 :=
             if reads_as v "true" then assoc_set key (JBool true) acc1 else acc1 in
           if reads_as v "false" then assoc_set key (JBool false) acc2 else acc2
       end)
    (map fst options) [].

Section Defs.
Context {σ : Type} (rt : Runtime.t σ).

Record t : Type := mk { model : Model.t σ }.

(** Introspection endpoint default settings. *)
Definition introspectOptions : list (string * JsVal) :=
  [("isClientSecretRequired", JBool true)].

(** [Object.keys(options)] throws when no options object is passed. *)
Definition keysOfNothing : JsError :=
  NativeError "TypeError" "Cannot convert undefined or null to object".

(** [introspect(request, response, options)]; [options] is the options
    object, or [None] when the argument is left out. *)
Definition introspect (this : t) (request : Request.t)
           (options : option (list (string * JsVal))) : H σ unit :=
  match options with
  | None => throw keysOfNothing
  | Some o =>
      let cleanOpts := cleanOptions o in
      let opts :=
        fold_left (fun obj kv => assoc_set (fst kv) (snd kv) obj)
                  cleanOpts introspectOptions in
      IntrospectHandler.execute rt
        {| IntrospectHandler.model := model this;
           IntrospectHandler.isClientSecretRequired :=
             field opts "isClientSecretRequired" |}
        request
  end.

End Defs.
Arguments t σ : clear implicits.
End OAuth2Server.

(* ================================================================== *)
(** ** A concrete host, for running the engine on examples *)
(* ================================================================== *)

Module Demo.

(** The state of the host: the wall clock (epoch milliseconds) and the
    number of random tokens drawn so far. *)
Definition State : Type := (Z * Z)%type.

Definition rt : Runtime.t State :=
  {| Runtime.now := fun s => fst s;
     Runtime.generateRandomToken :=
       fun s => ("random" ++ Z_to_string (snd s), (fst s, snd s + 1)) |}.

(** The answers of a Model that stores nothing: what each lookup returns
    and whether a revocation succeeds. *)
Record Answers : Type := mkAnswers {
  client : JsVal;
  code : JsVal;
  accessToken : JsVal;
  refreshToken : JsVal;
  revoked : JsVal
}.

(** A usual [saveToken(client, user, token)]: the token record completed
    with the first two arguments as its [client] and [user]. *)
Definition save (arg1 arg2 arg3 : JsVal) : JsVal :=
  JObj (TokenModel.own_props arg3 ++ [("client", arg1); ("user", arg2)]).

Definition model (a : Answers) : Model.t State :=
  {| Model.getClient := fun _ _ s => (client a, s);
     Model.getAuthorizationCode := fun _ s => (code a, s);
     Model.revokeAuthorizationCode := fun _ s => (revoked a, s);
     Model.saveAuthorizationCode :=
       fun c u r s => (JObj (TokenModel.own_props r ++ [("client", c); ("user", u)]), s);
     Model.saveToken := fun c u t s => (save c u t, s);
     Model.getAccessToken := fun _ s => (accessToken a, s);
     Model.getRefreshToken := fun _ s => (refreshToken a, s);
     Model.revokeAccessToken := fun _ s => (revoked a, s);
     Model.revokeRefreshToken := fun _ s => (revoked a, s);
     Model.validateScope := None;
     Model.verifyScope := None;
     Model.generateAccessToken := None;
     Model.generateRefreshToken := None;
     Model.generateAuthorizationCode := None |}.

Definition c1 : JsVal :=
  JObj [("id", JStr "c1");
        ("grants", JArr [JStr "authorization_code"; JStr "refresh_token"]);
        ("redirectUris", JArr [JStr "https://app/cb"; JStr "https://app/cb?foo=1"])].

Definition c2 : JsVal := JObj [("id", JStr "c2")].

Definition alice : JsVal := JObj [("username", JStr "alice")].

(** An authorization code issued to [c1] for [alice], expiring at [e]. *)
Definition codeRecord (e : Z) : JsVal :=
  JObj [("authorizationCode", JStr "abc");
        ("client", JObj [("id", JStr "c1")]);
        ("user", alice);
        ("scope", JStr "read");
        ("expiresAt", JDate e)].

(** A token record of [owner] for [alice]; [expiry] lists its expiry
    properties. *)
Definition tokenRecord (owner : JsVal) (expiry : list (string * JsVal)) : JsVal :=
  JObj ([("accessToken", JStr "A1");
         ("refreshToken", JStr "R1");
         ("scope", JStr "read");
         ("client", owner);
         ("user", alice)] ++ expiry).

Definition grant (a : Answers) : AbstractGrant.t State :=
  {| AbstractGrant.model := model a;
     AbstractGrant.accessTokenLifetime := 1800;
     AbstractGrant.refreshTokenLifetime := 86400;
     AbstractGrant.alwaysIssueNewRefreshToken := JBool true;
     AbstractGrant.allowExtendedTokenAttributes := JBool false |}.

Definition answers (code accessToken refreshToken : JsVal) : Answers :=
  {| client := c1; code := code; accessToken := accessToken;
     refreshToken := refreshToken; revoked := JBool true |}.

Definition post (body : list (string * JsVal)) : Request.t :=
  {| Request.method := "POST"; Request.headers := []; Request.query := [];
     Request.body := body; Request.is_form := true;
     Request.basic_auth := None |}.

Definition get_ (headers query : list (string * JsVal)) : Request.t :=
  {| Request.method := "GET"; Request.headers := headers; Request.query := query;
     Request.body := []; Request.is_form := false;
     Request.basic_auth := None |}.

Definition bearer (a : Answers) : AuthenticateHandler.t State :=
  {| AuthenticateHandler.model := model a;
     AuthenticateHandler.scope := JUndefined;
     AuthenticateHandler.addAcceptedScopesHeader := JBool true;
     AuthenticateHandler.addAuthorizedScopesHeader := JBool true;
     AuthenticateHandler.allowBearerTokensInQueryString := JBool false |}.

(** An authorization endpoint whose resource-owner authenticator always
    answers [alice]. *)
Definition authorize (a : Answers) : AuthorizeHandler.t State :=
  {| AuthorizeHandler.model := model a;
     AuthorizeHandler.accessTokenLifetime := 1800;
     AuthorizeHandler.authorizationCodeLifetime := 300;
     AuthorizeHandler.allowEmptyState := JBool false;
     AuthorizeHandler.bearerHandler := bearer a;
     AuthorizeHandler.authenticateHandler := Some (fun _ => ret alice) |}.

Definition introspect (a : Answers) : IntrospectHandler.t State :=
  {| IntrospectHandler.model := model a;
     IntrospectHandler.isClientSecretRequired := JBool true |}.

Definition revoke (a : Answers) : RevokeHandler.t State :=
  {| RevokeHandler.model := model a;
     RevokeHandler.isClientSecretRequired := JBool true |}.

(** The clock reads 1000 and no random token was drawn. *)
Definition s0 : State := (1000, 0).

(** Resource owners: every lookup answers [user]. *)
Definition users (user : JsVal) : UserModel.t State :=
  {| UserModel.getUser := Some (fun _ _ s => (user, s));
     UserModel.getUserFromClient := Some (fun _ s => (user, s)) |}.

(** The client [c1] with the grants of the token endpoint and a user of its
    own. *)
Definition c1u : JsVal :=
  JObj [("id", JStr "c1");
        ("grants", JArr [JStr "authorization_code"; JStr "client_credentials";
                         JStr "password"; JStr "refresh_token"]);
        ("user", alice)].


(** The password and client-credentials grants over a Model whose user
    lookups answer [user]. *)
Definition passwordGrant (a : Answers) (user : JsVal) : PasswordGrant.t State :=
  {| PasswordGrant.grant := grant a;
     PasswordGrant.getUser := fun _ _ s => (user, s) |}.

Definition clientCredentialGrant (a : Answers) (user : JsVal)
  : ClientCredentialGrant.t State :=
  {| ClientCredentialGrant.grant := grant a;
     ClientCredentialGrant.getUserFromClient := fun _ s => (user, s) |}.

(** A form posted with HTTP Basic credentials. *)
Definition postBasic (name pass : string) (body : list (string * JsVal))
  : Request.t :=
  {| Request.method := "POST";
     Request.headers := [("authorization", JStr "Basic (credentials)")];
     Request.query := [];
     Request.body := body; Request.is_form := true;
     Request.basic_auth := Some (name, pass) |}.

(** A token endpoint with the default settings of the server. *)
Definition token (a : Answers) (user : JsVal) : Token.TokenHandler.t State :=
  Token.TokenHandler.new rt (model a) (users user) 1800 86400 (JBool true)
    (JObj [("password", JBool true); ("refresh_token", JBool true)])
    (JBool false) [].



End Demo.

(* ================================================================== *)
(** ** Vocabulary of the properties *)
(* ================================================================== *)

(** The characters the NCHAR class accepts: word characters, and the four
    characters listed in the class. *)
Definition nchar_char (c : ascii) : bool :=
  Is.word_char c || existsb (Ascii.eqb c) ["-"; "."; "_"; "|"]%char.

(** The three places a bearer token may come from: the [Authorization]
    header, the [access_token] query parameter, the [access_token] body
    field.  A source is present when its value is truthy (a missing or an
    empty value is not). *)
Definition bearer_sources (request : Request.t) : list JsVal :=
  [Request.get request "Authorization";
   field (Request.query request) "access_token";
   field (Request.body request) "access_token"].

Definition sources_present (request : Request.t) : nat :=
  List.length (filter truthy (bearer_sources request)).

(** The fragment of a URL object as text. *)
Definition fragment (u : Url.UrlObject) : string :=
  match Url.hash u with Some h => h | None => "" end.

(** The authorization request of the examples: [GET /authorize] with the
    given query parameters. *)
Definition authorize_query (redirect_uri : list (string * JsVal))
           (state : list (string * JsVal)) : Request.t :=
  Demo.get_ []
    ([("response_type", JStr "code"); ("client_id", JStr "c1")]
       ++ redirect_uri ++ [("scope", JStr "read")] ++ state).

(** The response a handler leaves behind, and what it returned or threw. *)
Definition response_of {σ A} (r : (JsError + A) * (σ * Response.t) * list Call)
  : Response.t := snd (snd (fst r)).

Definition outcome_of {σ A} (r : (JsError + A) * (σ * Response.t) * list Call)
  : JsError + A := fst (fst r).

(** The lookup an introspection or revocation request selects with its
    [token_hint], the event it leaves in the trace, and the expiry property
    the hint designates. *)
Definition load_token {σ} (m : Model.t σ) (hint token : JsVal)
  : σ -> JsVal * σ :=
  if strict_eq hint (JStr "access_token")
  then Model.getAccessToken m token
  else Model.getRefreshToken m token.

Definition load_event (hint token : JsVal) : JsVal -> Call :=
  if strict_eq hint (JStr "access_token")
  then GetAccessToken token
  else GetRefreshToken token.

Definition hinted_expiry (hint : JsVal) : string :=
  if strict_eq hint (JStr "access_token")
  then "accessTokenExpiresAt"
  else "refreshTokenExpiresAt".



(** A loaded record carries a [client] (one can read [record.client.id]). *)
Definition has_client (record : JsVal) : bool :=
  negb (nullish (prop record "client")).

(** The loaded token was issued to the client: [token.client.id ===
    client.id]. *)
Definition issued_to (token client : JsVal) : bool :=
  strict_eq (prop (prop token "client") "id") (prop client "id").

(** The checks a loaded authorization code goes through apart from the
    comparison of its expiry with the clock: the record and the client are
    there, the record has a [client] and a [user], it was issued to the
    client, and its [redirectUri], when set, is a URI. *)
Definition code_checks (code client : JsVal) : bool :=
  truthy code && negb (nullish client)
  && truthy (prop code "client") && truthy (prop code "user")
  && issued_to code client
  && negb (truthy (prop code "redirectUri") && negb (Is.uri (prop code "redirectUri"))).

(** The same for a loaded refresh token. *)
Definition refresh_checks (token client : JsVal) : bool :=
  truthy token && negb (nullish client)
  && truthy (prop token "client") && truthy (prop token "user")
  && issued_to token client.

(** The checks a loaded access token goes through at the bearer endpoint
    apart from its expiry. *)
Definition access_checks (token : JsVal) : bool :=
  truthy token && truthy (prop token "user").

(** What makes the introspection result of a verified token readable: the
    record has a [client] and a [user]. *)
Definition introspect_checks (token : JsVal) : bool :=
  truthy token && has_client token && negb (nullish (prop token "user")).

(** The introspection result of an active token. *)
Definition active_result (token expiresAt : JsVal) : JsVal :=
  JObj [("active", JBool true);
        ("client_id", prop (prop token "client") "id");
        ("username", prop (prop token "user") "username");
        ("scope", prop token "scope");
        ("expires_at", expiresAt)].

Definition inactive_result : JsVal := JObj [("active", JBool false)].

(** Events of the trace: a token was saved; the consumed credential was
    revoked and the Model reported success. *)
Definition is_save (c : Call) : bool :=
  match c with SaveToken _ _ _ _ => true | _ => false end.

(** Every [saveToken] of the trace comes after the credential presented as
    [key] was consumed: the trace opens with the lookup [load key cred] of
    the credential and with the call [revoke cred st] that revokes what the
    lookup returned, and that call returned a truthy value. *)
Definition saves_follow (load revoke : JsVal -> JsVal -> Call) (key : JsVal)
           (t : list Call) : Prop :=
  forall pre c post,
    t = (pre ++ c :: post)%list -> is_save c = true ->
    exists cred st rest,
      pre = (load key cred :: revoke cred st :: rest)%list /\ truthy st = true.

(** No token was saved. *)
Definition no_save (t : list Call) : Prop :=
  forallb (fun c => negb (is_save c)) t = true.

(** A computation that makes no Model call. *)
Definition quiet {σ A} (m : M σ A) : Prop :=
  forall s r s' t, m s = (r, s', t) -> t = [].

(** A revocation of a consumed credential, whatever its outcome. *)
Definition is_revocation (c : Call) : bool :=
  match c with
  | RevokeAuthorizationCode _ _ | RevokeRefreshToken _ _ => true
  | _ => false
  end.

(** A computation all of whose Model calls satisfy [P]. *)
Definition emits {σ A} (P : Call -> bool) (m : M σ A) : Prop :=
  forall s r s' t, m s = (r, s', t) -> forallb P t = true.

Definition not_revocation (c : Call) : bool := negb (is_revocation c).

(** A computation that, when it returns, returns [v]. *)
Definition yields {σ A} (v : A) (m : M σ A) : Prop :=
  forall s r s' t, m s = (r, s', t) -> forall a, r = inr a -> a = v.

Definition not_save (c : Call) : bool := negb (is_save c).

(** The redirect URI an authorization request asks for:
    [body.redirect_uri || query.redirect_uri]. *)
Definition requested_redirect_uri (request : Request.t) : JsVal :=
  js_or (field (Request.body request) "redirect_uri")
        (field (Request.query request) "redirect_uri").

(** The errors the authorization endpoint answers with a redirect: all but
    [invalid_client] and [unauthorized_request]. *)
Definition redirects_on_error (name : string) : bool :=
  negb ((name =? "invalid_client")%string
        || (name =? "unauthorized_request")%string).

(** The URI has a query string. *)
Definition has_query_string (uri : string) : bool :=
  match Url.search (Url.parse uri true) with Some _ => true | None => false end.



(** A value that is falsy or a Date. *)
Definition date_or_falsy (v : JsVal) : bool :=
  negb (truthy v) || instanceofDate v.

(** The keys of an object value. *)
Definition keys (v : JsVal) : list string :=
  map fst (TokenModel.own_props v).

(** A computation all of whose Model calls have the property [P]; a
    computation whose results have the property [Q]. *)
Definition always {σ A} (P : Call -> Prop) (m : M σ A) : Prop :=
  forall s r s' t, m s = (r, s', t) -> Forall P t.

Definition returns {σ A} (Q : A -> Prop) (m : M σ A) : Prop :=
  forall s a s' t, m s = (inr a, s', t) -> Q a.

(** The property [P] of the arguments of every [saveToken]. *)
Definition saves (P : JsVal -> JsVal -> JsVal -> Prop) (c : Call) : Prop :=
  match c with
  | SaveToken arg1 arg2 arg3 _ => P arg1 arg2 arg3
  | _ => True
  end.

(** The client credentials of a request: those of its HTTP Basic
    [Authorization] header when it has one, otherwise the [client_id] and
    [client_secret] of its body. *)
Definition request_credentials (request : Request.t) : JsVal * JsVal :=
  match Request.basic_auth request with
  | Some (name, pass) => (JStr name, JStr pass)
  | None => (field (Request.body request) "client_id",
             field (Request.body request) "client_secret")
  end.

(** The error an endpoint puts on the wire: an error that is not an
    [OAuthError] is wrapped in a [server_error]. *)
Definition wire_error (e : JsError) : JsError :=
  if instanceofOAuthError e then e else ServerError_wrap e.

(** The client lists the grant type among its [grants]. *)
Definition client_may_use (client grantType : JsVal) : bool :=
  match prop client "grants" with
  | JArr l => existsb (strict_eq grantType) l
  | _ => false
  end.

(** The response carries the headers of a token response. *)
Definition not_cacheable (resp : Response.t) : Prop :=
  Response.get resp "Content-Type" = JStr "application/json;charset=UTF-8"
  /\ Response.get resp "Cache-Control" = JStr "no-store"
  /\ Response.get resp "Pragma" = JStr "no-cache".

(** A string without white space: no character of [\s] starts at any of
    its positions. *)
Fixpoint no_space (s : string) : bool :=
  match s with
  | EmptyString => true
  | String c r => negb (AuthenticateRequest.is_space (String c r)) && no_space r
  end.

(** What an option given as [v] is once cleaned: the texts [true] and
    [false] become booleans. *)
Definition cleaned (v : JsVal) : JsVal :=
  if OAuth2Server.reads_as v "true" then JBool true
  else if OAuth2Server.reads_as v "false" then JBool false
  else v.

(* ================================================================== *)
(** * Properties *)
(* ================================================================== *)

(** ** Property lists *)

Lemma assoc_set_same k v l : assoc k (assoc_set k v l) = Some v.
Proof.
  induction l as [|[k' v'] l IH]; simpl.
  - now rewrite String.eqb_refl.
  - destruct (k' =? k)%string eqn:E; simpl.
    + now rewrite String.eqb_refl.
    + now rewrite E.
Qed.

Lemma assoc_set_other k k' v l :
  k' <> k -> assoc k' (assoc_set k v l) = assoc k' l.
Proof.
  intros Hne. induction l as [|[k0 v0] l IH]; simpl.
  - destruct (k =? k')%string eqn:E; [|reflexivity].
    apply String.eqb_eq in E. congruence.
  - destruct (k0 =? k)%string eqn:E; simpl.
    + apply String.eqb_eq in E. subst k0.
      destruct (k =? k')%string eqn:E'; [|reflexivity].
      apply String.eqb_eq in E'. congruence.
    + now rewrite IH.
Qed.

Lemma assoc_set_fresh k v l :
  assoc k l = None -> assoc_set k v l = (l ++ [(k, v)])%list.
Proof.
  induction l as [|[k0 v0] l IH]; simpl; [reflexivity|].
  destruct (k0 =? k)%string; [discriminate|].
  intros H. now rewrite IH.
Qed.

Lemma field_set_same k v l : field (assoc_set k v l) k = v.
Proof. unfold field. now rewrite assoc_set_same. Qed.

Lemma Response_get_set r name v :
  Response.get (Response.set r name v) name = v.
Proof. unfold Response.get, Response.set; simpl. apply field_set_same. Qed.

(* ------------------------------------------------------------------ *)
(** ** Character classes *)

Lemma NCHAR_class_matches c :
  Is.class_matches
    [Is.Chr "-"; Is.Chr "|"; Is.Chr "."; Is.Chr "|"; Is.Chr "_"; Is.Chr "|";
     Is.WordChar] c = nchar_char c.
Proof.
  unfold Is.class_matches, nchar_char. simpl.
  destruct (Is.word_char c), (c =? "-")%char, (c =? "|")%char,
    (c =? ".")%char, (c =? "_")%char; reflexivity.
Qed.

Lemma NCHAR_all_in s :
  Is.all_in
    [Is.Chr "-"; Is.Chr "|"; Is.Chr "."; Is.Chr "|"; Is.Chr "_"; Is.Chr "|";
     Is.WordChar] s = forallb nchar_char (list_ascii_of_string s).
Proof.
  induction s as [|c r IH]; [reflexivity|].
  cbn [Is.all_in list_ascii_of_string forallb].
  now rewrite NCHAR_class_matches, IH.
Qed.

(** What [nchar] decides on strings: the string is not empty and each of
    its characters is a word character or one of [- . _ |]. *)
Lemma nchar_iff s :
  Is.nchar (JStr s) = true <->
  s <> "" /\ forallb nchar_char (list_ascii_of_string s) = true.
Proof.
  unfold Is.nchar, Is.test, Is.Rules.NCHAR. cbn [toStr Is.matches].
  destruct s as [|c r].
  - split; [discriminate | intros [H _]; congruence].
  - rewrite NCHAR_all_in.
    split; [intros H; split; [discriminate|exact H] | intros [_ H]; exact H].
Qed.

(** C9.  The anchored NCHAR test is meant to accept exactly the non-empty
    strings made of word characters, [-], [.] and [_].  The test of the
    source accepts the non-empty strings made of word characters, [-], [.],
    [_] and the bar, which its character class lists as well: the string
    made of the single character [|] passes, and so does a bar among
    accepted characters; a string with a space is still rejected. *)
Theorem C9_nchar_accepts_bar :
  (forall s,
      Is.nchar (JStr s)
      = negb (s =? "")%string && forallb nchar_char (list_ascii_of_string s))
  /\ nchar_char "|" = true
  /\ Is.nchar (JStr "|") = true
  /\ Is.nchar (JStr "read|write") = true
  /\ Is.nchar (JStr "a b") = false.
Proof.
  split; [|repeat split; reflexivity].
  intros s. unfold Is.nchar, Is.test, Is.Rules.NCHAR. cbn [toStr Is.matches].
  destruct s as [|c r]; [reflexivity|].
  rewrite NCHAR_all_in. reflexivity.
Qed.

(* ------------------------------------------------------------------ *)
(** ** Bearer authentication: where the token comes from *)

Lemma AuthenticateRequest_no_source request allow :
  sources_present request = 0%nat ->
  AuthenticateRequest.new request allow
  = inl (UnauthorizedRequestError "Unauthorized request: no authentication given").
Proof.
  unfold sources_present, bearer_sources, AuthenticateRequest.new.
  cbn [filter].
  destruct (truthy (Request.get request "Authorization")),
    (truthy (field (Request.query request) "access_token")),
    (truthy (field (Request.body request) "access_token"));
    cbn; intros H; try discriminate H; reflexivity.
Qed.

Lemma AuthenticateRequest_several_sources request allow :
  (1 < sources_present request)%nat ->
  AuthenticateRequest.new request allow
  = inl (InvalidRequestError
           "Invalid request: only one authentication method is allowed").
Proof.
  unfold sources_present, bearer_sources, AuthenticateRequest.new.
  cbn [filter].
  destruct (truthy (Request.get request "Authorization")),
    (truthy (field (Request.query request) "access_token")),
    (truthy (field (Request.body request) "access_token"));
    cbn; intros H; try reflexivity; exfalso; lia.
Qed.

(** C7.  A bearer-authenticate request that presents no token (no
    Authorization header, no [access_token] in the query or in the body)
    fails with [unauthorized_request]: status 401, header
    [WWW-Authenticate: Bearer realm="Service"], JSON error body, and no
    Model call.  A request that presents a token in more than one of the
    three places fails with [invalid_request] (status 400). *)
Theorem C7_bearer_source_count
        {σ : Type} (rt : Runtime.t σ) (this : AuthenticateHandler.t σ)
        (request : Request.t) (s : σ) (resp : Response.t) :
  (sources_present request = 0%nat ->
   exists resp',
     AuthenticateHandler.execute rt this request (s, resp)
     = (inl (OAuthError "unauthorized_request" 401
               "Unauthorized request: no authentication given"),
        (s, resp'), [])
     /\ Response.status resp' = 401
     /\ Response.get resp' "WWW-Authenticate"
        = JStr ("Bearer realm=" ++ dquote ++ "Service" ++ dquote)
     /\ Response.body resp'
        = JObj [("error", JStr "unauthorized_request");
                ("error_description",
                 JStr "Unauthorized request: no authentication given")])
  /\
  ((1 < sources_present request)%nat ->
   exists resp',
     AuthenticateHandler.execute rt this request (s, resp)
     = (inl (OAuthError "invalid_request" 400
               "Invalid request: only one authentication method is allowed"),
        (s, resp'), [])
     /\ Response.status resp' = 400
     /\ Response.body resp'
        = JObj [("error", JStr "invalid_request");
                ("error_description",
                 JStr "Invalid request: only one authentication method is allowed")]).
Proof.
  split; intros Hn.
  - eexists. unfold AuthenticateHandler.execute, try_catch, bind.
    rewrite (AuthenticateRequest_no_source _ _ Hn). cbn.
    repeat split. apply field_set_same.
  - eexists. unfold AuthenticateHandler.execute, try_catch, bind.
    rewrite (AuthenticateRequest_several_sources _ _ Hn). cbn.
    repeat split.
Qed.

Lemma C7_bearer_source_count_witness :
  sources_present (Demo.get_ [] []) = 0%nat
  /\ (1 < sources_present
            (Demo.get_ [("authorization", JStr "Bearer A1")]
                       [("access_token", JStr "A1")]))%nat
  /\ (exists resp',
        AuthenticateHandler.execute Demo.rt
          (Demo.bearer (Demo.answers JUndefined JUndefined JUndefined))
          (Demo.get_ [] []) (Demo.s0, Response.fresh)
        = (inl (OAuthError "unauthorized_request" 401
                  "Unauthorized request: no authentication given"),
           (Demo.s0, resp'), [])
        /\ Response.status resp' = 401
        /\ Response.get resp' "WWW-Authenticate"
           = JStr ("Bearer realm=" ++ dquote ++ "Service" ++ dquote)
        /\ Response.body resp'
           = JObj [("error", JStr "unauthorized_request");
                   ("error_description",
                    JStr "Unauthorized request: no authentication given")])
  /\ (exists resp',
        AuthenticateHandler.execute Demo.rt
          (Demo.bearer (Demo.answers JUndefined JUndefined JUndefined))
          (Demo.get_ [("authorization", JStr "Bearer A1")]
                     [("access_token", JStr "A1")])
          (Demo.s0, Response.fresh)
        = (inl (OAuthError "invalid_request" 400
                  "Invalid request: only one authentication method is allowed"),
           (Demo.s0, resp'), [])
        /\ Response.status resp' = 400
        /\ Response.body resp'
           = JObj [("error", JStr "invalid_request");
                   ("error_description",
                    JStr "Invalid request: only one authentication method is allowed")]).
Proof.
  split; [reflexivity|].
  split; [vm_compute; lia|].
  split.
  - apply (proj1 (C7_bearer_source_count Demo.rt _ (Demo.get_ [] []) _ _)).
    reflexivity.
  - apply (proj2 (C7_bearer_source_count Demo.rt _
                    (Demo.get_ [("authorization", JStr "Bearer A1")]
                               [("access_token", JStr "A1")]) _ _)).
    vm_compute; lia.
Defined.

(* ------------------------------------------------------------------ *)
(** ** Redirect URLs of the authorization endpoint *)

Lemma append_nonempty_r (a b : string) : b <> "" -> a ++ b <> "".
Proof. destruct a; simpl; [auto | discriminate]. Qed.

Lemma append_nonempty_l (a b : string) : a <> "" -> a ++ b <> "".
Proof. destruct a; simpl; [congruence | discriminate]. Qed.

Lemma eqb_empty_false (a : string) : a <> "" -> (a =? "")%string = false.
Proof. intros H. apply String.eqb_neq. exact H. Qed.

Lemma qs_stringify_from_nonempty fields props :
  fields <> "" -> Url.qs_stringify_from fields props <> "".
Proof.
  revert fields. induction props as [|[k v] rest IH]; intros fields Hf.
  - exact Hf.
  - cbn [Url.qs_stringify_from].
    destruct v as [| | | | | |l|]; try (apply IH; now apply append_nonempty_l).
    destruct l; [now apply IH | apply IH; now apply append_nonempty_l].
Qed.

Lemma qs_stringify_from_has_string fields props k c :
  assoc k props = Some (JStr c) -> Url.qs_stringify_from fields props <> "".
Proof.
  revert fields. induction props as [|[k0 v0] rest IH]; intros fields H.
  - discriminate.
  - cbn [assoc] in H. cbn [Url.qs_stringify_from].
    destruct (k0 =? k)%string.
    + injection H as ->. apply qs_stringify_from_nonempty.
      apply append_nonempty_r, append_nonempty_r, append_nonempty_l.
      apply append_nonempty_r. discriminate.
    + destruct v0 as [| | | | | |l|]; try (now apply IH).
      destruct l; now apply IH.
Qed.

Lemma parse_hash_shape uri pq :
  match Url.hash (Url.parse uri pq) with
  | Some h => exists x, h = String "#" x
  | None => True
  end.
Proof.
  unfold Url.parse.
  destruct (Url.cut "#" uri) as [before [h|]];
    destruct (Url.cut "?" before) as [b q]; cbn; eauto.
Qed.

(** The formatted URL of an object without [search] whose parameters hold a
    string: base, question mark, parameters, fragment. *)
Lemma format_of_query u k c :
  Url.search u = None ->
  assoc k (Url.query u) = Some (JStr c) ->
  (match Url.hash u with Some h => exists x, h = String "#" x | None => True end) ->
  Url.format u = Url.base u ++ "?" ++ Url.qs_stringify (Url.query u) ++ fragment u.
Proof.
  intros Hs Hq Hh. unfold Url.format, fragment. rewrite Hs.
  assert (Hne : Url.qs_stringify (Url.query u) <> "")
    by (eapply qs_stringify_from_has_string; eauto).
  rewrite (eqb_empty_false _ Hne). cbn.
  destruct (Url.hash u) as [h|]; [|reflexivity].
  destruct Hh as [x ->]. reflexivity.
Qed.

(** C3, as the code has it.  The redirect URL of a [code] response is the
    requested [redirect_uri] with its query string parsed into the parameter
    map, to which [code], then [scope] if present, then [state] if present
    are written; the original query text is dropped and the map is formatted
    back.  The parameters the [redirect_uri] carried are therefore kept
    (one named [code], [scope] or [state] is overwritten). *)
Theorem C3_redirect_keeps_query (code : string) (scope state : JsVal) (uri : string) :
  exists u,
    CodeResponse.buildRedirectUri (JStr code) scope (JStr uri) state = inr u
    /\ Url.base u = Url.base (Url.parse uri true)
    /\ Url.hash u = Url.hash (Url.parse uri true)
    /\ assoc "code" (Url.query u) = Some (JStr code)
    /\ (truthy scope = true -> assoc "scope" (Url.query u) = Some scope)
    /\ (truthy state = true -> assoc "state" (Url.query u) = Some state)
    /\ (forall k, k <> "code" -> k <> "scope" -> k <> "state" ->
        assoc k (Url.query u) = assoc k (Url.query (Url.parse uri true)))
    /\ (assoc "code" (Url.query (Url.parse uri true)) = None ->
        assoc "scope" (Url.query (Url.parse uri true)) = None ->
        assoc "state" (Url.query (Url.parse uri true)) = None ->
        Url.query u
        = (Url.query (Url.parse uri true)
             ++ [("code", JStr code)]
             ++ (if truthy scope then [("scope", scope)] else [])
             ++ (if truthy state then [("state", state)] else []))%list)
    /\ Url.format u
       = Url.base u ++ "?" ++ Url.qs_stringify (Url.query u) ++ fragment u.
Proof.
  unfold CodeResponse.buildRedirectUri. cbn [Url.parse_val].
  eexists. split; [reflexivity|]. cbn [Url.base Url.hash Url.query Url.search].
  set (q := Url.query (Url.parse uri true)).
  assert (Hcode :
            assoc "code"
              (if truthy state
               then assoc_set "state" state
                      (if truthy scope
                       then assoc_set "scope" scope (assoc_set "code" (JStr code) q)
                       else assoc_set "code" (JStr code) q)
               else if truthy scope
                    then assoc_set "scope" scope (assoc_set "code" (JStr code) q)
                    else assoc_set "code" (JStr code) q) = Some (JStr code)).
  { destruct (truthy state), (truthy scope);
      repeat (rewrite assoc_set_other by discriminate);
      apply assoc_set_same. }
  repeat split.
  - exact Hcode.
  - intros Hs. rewrite Hs.
    destruct (truthy state);
      repeat (rewrite assoc_set_other by discriminate); apply assoc_set_same.
  - intros Hs. rewrite Hs. apply assoc_set_same.
  - intros k Hc Hsc Hst.
    destruct (truthy state), (truthy scope);
      repeat (rewrite assoc_set_other by congruence); reflexivity.
  - intros Hc Hsc Hst.
    assert (H1 : assoc_set "code" (JStr code) q = (q ++ [("code", JStr code)])%list)
      by now apply assoc_set_fresh.
    assert (H2 : forall v,
               assoc_set "scope" v (assoc_set "code" (JStr code) q)
               = (q ++ [("code", JStr code)] ++ [("scope", v)])%list).
    { intros v. rewrite assoc_set_fresh.
      - now rewrite H1, <- app_assoc.
      - now rewrite assoc_set_other by discriminate. }
    destruct (truthy state), (truthy scope).
    + rewrite assoc_set_fresh.
      * now rewrite H2, <- !app_assoc.
      * now rewrite !assoc_set_other by discriminate.
    + rewrite assoc_set_fresh.
      * now rewrite H1, <- !app_assoc.
      * now rewrite !assoc_set_other by discriminate.
    + now rewrite H2, app_nil_r.
    + now rewrite H1.
  - rewrite (format_of_query _ "code" code); cbn; auto.
    apply parse_hash_shape.
Qed.

Lemma C3_redirect_keeps_query_witness :
  exists u,
    CodeResponse.buildRedirectUri (JStr "abc") (JStr "read")
      (JStr "https://app/cb?foo=1") (JStr "xyz") = inr u
    /\ assoc "foo" (Url.query u) = Some (JStr "1")
    /\ assoc "scope" (Url.query u) = Some (JStr "read")
    /\ assoc "state" (Url.query u) = Some (JStr "xyz")
    /\ Url.query u
       = [("foo", JStr "1"); ("code", JStr "abc"); ("scope", JStr "read");
          ("state", JStr "xyz")].
Proof.
  destruct (C3_redirect_keeps_query "abc" (JStr "read") (JStr "xyz")
              "https://app/cb?foo=1")
    as (u & Hu & _ & _ & _ & Hscope & Hstate & Hkeep & Horder & _).
  exists u. split; [exact Hu|]. split; [|split; [|split]].
  - rewrite Hkeep by discriminate. reflexivity.
  - apply Hscope. reflexivity.
  - apply Hstate. reflexivity.
  - apply Horder; reflexivity.
Defined.

(** C3, as stated, fails: for the authorization request with
    [redirect_uri=https://app/cb?foo=1] the success redirect still carries
    [foo=1], ahead of [code], [scope] and [state]. *)
Lemma C3_counterexample :
  let r := AuthorizeHandler.execute Demo.rt
             (Demo.authorize (Demo.answers JUndefined JUndefined JUndefined))
             (authorize_query [("redirect_uri", JStr "https://app/cb?foo=1")]
                              [("state", JStr "xyz")])
             (Demo.s0, Response.fresh) in
  outcome_of r = inr tt
  /\ Response.status (response_of r) = 302
  /\ Response.get (response_of r) "Location"
     = JStr "https://app/cb?foo=1&code=random0&scope=read&state=xyz".
Proof. vm_compute. repeat split. Qed.

Lemma append_empty_r (a : string) : a ++ "" = a.
Proof. induction a; simpl; congruence. Qed.

(** The query string of the two error parameters. *)
Lemma qs_stringify_error n m :
  Url.qs_stringify [("error", JStr n); ("error_description", JStr m)]
  = "error=" ++ Url.escape n ++ "&error_description=" ++ Url.escape m.
Proof.
  unfold Url.qs_stringify. cbn [Url.qs_stringify_from Url.convert].
  change (Url.escape "error") with "error".
  change (Url.escape "error_description") with "error_description".
  cbn [append String.eqb]. reflexivity.
Qed.

Lemma format_empty_query n m :
  Url.format {| Url.base := ""; Url.search := None;
                Url.query := [("error", JStr n); ("error_description", JStr m)];
                Url.hash := None |}
  = "?error=" ++ Url.escape n ++ "&error_description=" ++ Url.escape m.
Proof.
  unfold Url.format. cbn [Url.base Url.search Url.query Url.hash].
  rewrite qs_stringify_error. cbn [append String.eqb Ascii.eqb Bool.eqb].
  rewrite append_empty_r. reflexivity.
Qed.

(** The error path of the authorization endpoint when no [redirect_uri] is
    at hand (and the error is not one of the two answered with 401): the
    response is still a redirect, to a URL made of the error parameters
    alone. *)
Lemma setErrorResponse_without_uri {σ : Type} (name message : string)
      (status : Z) (uri : JsVal) (st : σ * Response.t) :
  name <> "invalid_client" -> name <> "unauthorized_request" ->
  message <> "" -> truthy uri = false ->
  exists resp',
    AuthorizationResponse.setErrorResponse (OAuthError name status message) uri st
    = (inr tt, (fst st, resp'), [])
    /\ Response.status resp' = 302
    /\ Response.get resp' "Location"
       = JStr ("?error=" ++ Url.escape name
                 ++ "&error_description=" ++ Url.escape message)
    /\ Response.body resp' = error_body (OAuthError name status message).
Proof.
  intros Hn1 Hn2 Hm Hu. destruct st as [s resp].
  unfold AuthorizationResponse.setErrorResponse. cbn [err_name err_message].
  apply String.eqb_neq in Hn1, Hn2. rewrite Hn1, Hn2, Hu.
  rewrite (eqb_empty_false _ Hm).
  cbn [orb negb lift bind ret Url.empty Url.query Url.base Url.search Url.hash assoc_set].
  change (("error" =? "error_description")%string) with false. cbv iota.
  rewrite format_empty_query.
  cbv [bind setHeader setStatus setBody modifyResponse fst snd app].
  eexists. split; [reflexivity|].
  cbn [Response.status Response.setStatus Response.setBody Response.body Response.set Response.get Response.headers].
  repeat split.
  apply field_set_same.
Qed.

Lemma append_assoc_str (a b c : string) : (a ++ b) ++ c = a ++ b ++ c.
Proof. induction a; simpl; congruence. Qed.

Lemma cut_spec c s :
  match Url.cut c s with
  | (a, Some b) => s = a ++ String c b
  | (a, None) => s = a
  end.
Proof.
  induction s as [|x r IH]; cbn [Url.cut]; [reflexivity|].
  destruct (x =? c)%char eqn:E.
  - apply Ascii.eqb_eq in E. now subst.
  - destruct (Url.cut c r) as [a [b|]]; cbn; now rewrite IH.
Qed.

(** A URL whose query string is kept in [search] formats back to itself,
    whatever its parameter object has become. *)
Lemma format_keeps_search uri params :
  Url.search (Url.parse uri true) <> None ->
  Url.format {| Url.base := Url.base (Url.parse uri true);
                Url.search := Url.search (Url.parse uri true);
                Url.query := params;
                Url.hash := Url.hash (Url.parse uri true) |}
  = uri.
Proof.
  unfold Url.parse, Url.format.
  pose proof (cut_spec "#" uri) as Hh.
  destruct (Url.cut "#" uri) as [before h].
  pose proof (cut_spec "?" before) as Hq.
  destruct (Url.cut "?" before) as [b [q|]]; cbn; [intros _|congruence].
  destruct h as [h|]; cbn; subst.
  - now rewrite append_assoc_str.
  - now rewrite append_empty_r.
Qed.

(** The error path of the authorization endpoint when the [redirect_uri]
    has a query string (and the error is not one of the two answered with
    401): the redirect goes to the [redirect_uri] as it was given, without
    the error parameters. *)
Lemma setErrorResponse_behind_query {σ : Type} (e : JsError) (uri : string)
      (st : σ * Response.t) :
  err_name e <> "invalid_client" -> err_name e <> "unauthorized_request" ->
  Url.search (Url.parse uri true) <> None ->
  exists resp',
    AuthorizationResponse.setErrorResponse e (JStr uri) st
    = (inr tt, (fst st, resp'), [])
    /\ Response.status resp' = 302
    /\ Response.get resp' "Location" = JStr uri
    /\ Response.body resp' = error_body e.
Proof.
  intros Hn1 Hn2 Hs. destruct st as [s resp].
  unfold AuthorizationResponse.setErrorResponse.
  apply String.eqb_neq in Hn1, Hn2. rewrite Hn1, Hn2.
  assert (Hu : truthy (JStr uri) = true).
  { destruct uri; [|reflexivity]. exfalso. apply Hs. reflexivity. }
  rewrite Hu. cbn [orb Url.parse_val lift].
  cbv [bind ret]. cbn [Url.base Url.search Url.hash].
  rewrite format_keeps_search by exact Hs.
  cbv [bind setHeader setStatus setBody modifyResponse fst snd app].
  eexists. split; [reflexivity|].
  cbn [Response.status Response.setStatus Response.setBody Response.body
       Response.set Response.get Response.headers].
  repeat split. apply field_set_same.
Qed.

(** The two requests of the examples: without [redirect_uri] the response
    is a 302 whose [Location] is the bare error query; with a
    [redirect_uri] that has a query string of its own the [Location] is that
    URI unchanged. *)
Lemma authorize_error_redirect_evaluated :
  let h := Demo.authorize (Demo.answers JUndefined JUndefined JUndefined) in
  let r1 := AuthorizeHandler.execute Demo.rt h
              (authorize_query [] [("state", JStr "xyz")])
              (Demo.s0, Response.fresh) in
  let r2 := AuthorizeHandler.execute Demo.rt h
              (authorize_query [("redirect_uri", JStr "https://app/cb?foo=1")] [])
              (Demo.s0, Response.fresh) in
  (outcome_of r1
   = inl (OAuthError "invalid_request" 400 "Missing parameter: `redirect_uri`")
   /\ Response.status (response_of r1) = 302
   /\ Response.get (response_of r1) "Location"
      = JStr "?error=invalid_request&error_description=Missing%20parameter%3A%20%60redirect_uri%60")
  /\
  (outcome_of r2
   = inl (OAuthError "invalid_request" 400 "Missing parameter: `state`")
   /\ Response.status (response_of r2) = 302
   /\ Response.get (response_of r2) "Location" = JStr "https://app/cb?foo=1").
Proof. vm_compute. repeat split. Qed.

(* ------------------------------------------------------------------ *)
(** ** Running computations *)

Lemma bind_inr {σ A B} (m : M σ A) (f : A -> M σ B) s a s1 t1 :
  m s = (inr a, s1, t1) ->
  bind m f s = (let '(r, s2, t2) := f a s1 in (r, s2, (t1 ++ t2)%list)).
Proof. intros H. unfold bind. rewrite H. destruct (f a s1) as [[r s2] t2]. reflexivity. Qed.

Lemma bind_inl {σ A B} (m : M σ A) (f : A -> M σ B) s e s1 t1 :
  m s = (inl e, s1, t1) -> bind m f s = (inl e, s1, t1).
Proof. intros H. unfold bind. now rewrite H. Qed.

Lemma await_run {σ} (f : σ -> JsVal * σ) ev s r s1 :
  f s = (r, s1) -> await f ev s = (inr r, s1, [ev r]).
Proof. intros H. unfold await. now rewrite H. Qed.

Lemma truthy_not_nullish v : truthy v = true -> nullish v = false.
Proof. destruct v; simpl; congruence. Qed.

Lemma get_defined v p : nullish v = false -> get v p = inr (prop v p).
Proof. intros H. unfold get. now rewrite H. Qed.

Lemma get_truthy v p : truthy v = true -> get v p = inr (prop v p).
Proof. intros H. apply get_defined, truthy_not_nullish, H. Qed.

Lemma liftH_run {σ A} (m : M σ A) s resp r s1 t :
  m s = (r, s1, t) -> liftH m (s, resp) = (r, (s1, resp), t).
Proof. intros H. unfold liftH. cbn [fst snd]. now rewrite H. Qed.

(* ------------------------------------------------------------------ *)
(** ** Error responses of the authorization endpoint *)

Section AuthorizeErrors.
Context {σ : Type} (rt : Runtime.t σ).

(** C4.  The specification has a failing authorization request answered
    without a redirect when no redirect URI is known, and redirected with
    [error] and [error_description] added to the query otherwise.  The code
    does neither when the request itself is rejected with an error other
    than [invalid_client] and [unauthorized_request]: without a
    [redirect_uri] the response is a 302 whose [Location] is the bare error
    query; with a [redirect_uri] that has a query string of its own the
    [Location] is that URI unchanged, the error parameters being lost. *)
Theorem C4_error_redirect
        (this : AuthorizeHandler.t σ) (request : Request.t)
        (s : σ) (resp : Response.t) (name message : string) (status : Z) :
  AuthorizationRequest.new request (AuthorizeHandler.allowEmptyState this)
  = inl (OAuthError name status message) ->
  redirects_on_error name = true ->
  (message =? "")%string = false ->
  (truthy (requested_redirect_uri request) = false ->
   exists resp',
     AuthorizeHandler.execute rt this request (s, resp)
     = (inl (OAuthError name status message), (s, resp'), [])
     /\ Response.status resp' = 302
     /\ Response.get resp' "Location"
        = JStr ("?error=" ++ Url.escape name
                  ++ "&error_description=" ++ Url.escape message))
  /\
  (forall uri,
      requested_redirect_uri request = JStr uri ->
      has_query_string uri = true ->
      exists resp',
        AuthorizeHandler.execute rt this request (s, resp)
        = (inl (OAuthError name status message), (s, resp'), [])
        /\ Response.status resp' = 302
        /\ Response.get resp' "Location" = JStr uri).
Proof.
  intros Hparse Hred Hm.
  unfold redirects_on_error in Hred.
  apply negb_true_iff, orb_false_iff in Hred as [Hn1 Hn2].
  apply String.eqb_neq in Hn1, Hn2, Hm.
  assert (Hrun : forall resp',
             AuthorizationResponse.setErrorResponse
               (OAuthError name status message)
               (requested_redirect_uri request) (s, resp)
             = (inr tt, (s, resp'), []) ->
             AuthorizeHandler.execute rt this request (s, resp)
             = (inl (OAuthError name status message), (s, resp'), [])).
  { intros resp' Hset.
    unfold AuthorizeHandler.execute, try_catch.
    rewrite (bind_inl _ _ (s, resp) (OAuthError name status message) (s, resp) [])
      by (rewrite Hparse; reflexivity).
    fold (requested_redirect_uri request).
    rewrite (bind_inr _ _ _ _ _ _ Hset). reflexivity. }
  split.
  - intros Hu.
    destruct (setErrorResponse_without_uri name message status
                (requested_redirect_uri request) (s, resp) Hn1 Hn2 Hm Hu)
      as (resp' & Hset & Hst & Hloc & _).
    exists resp'. split; [apply Hrun, Hset | split; assumption].
  - intros uri Huri Hs.
    assert (Hs' : Url.search (Url.parse uri true) <> None).
    { unfold has_query_string in Hs.
      destruct (Url.search (Url.parse uri true)); [discriminate | discriminate Hs]. }
    destruct (setErrorResponse_behind_query (OAuthError name status message)
                uri (s, resp) Hn1 Hn2 Hs')
      as (resp' & Hset & Hst & Hloc & _).
    exists resp'. rewrite Huri in Hrun.
    split; [apply Hrun, Hset | split; assumption].
Qed.

End AuthorizeErrors.

Lemma C4_error_redirect_witness :
  let h := Demo.authorize (Demo.answers JUndefined JUndefined JUndefined) in
  (exists resp',
     AuthorizeHandler.execute Demo.rt h
       (authorize_query [] [("state", JStr "xyz")]) (Demo.s0, Response.fresh)
     = (inl (OAuthError "invalid_request" 400 "Missing parameter: `redirect_uri`"),
        (Demo.s0, resp'), [])
     /\ Response.status resp' = 302
     /\ Response.get resp' "Location"
        = JStr ("?error=" ++ Url.escape "invalid_request"
                  ++ "&error_description="
                  ++ Url.escape "Missing parameter: `redirect_uri`"))
  /\
  (exists resp',
     AuthorizeHandler.execute Demo.rt h
       (authorize_query [("redirect_uri", JStr "https://app/cb?foo=1")] [])
       (Demo.s0, Response.fresh)
     = (inl (OAuthError "invalid_request" 400 "Missing parameter: `state`"),
        (Demo.s0, resp'), [])
     /\ Response.status resp' = 302
     /\ Response.get resp' "Location" = JStr "https://app/cb?foo=1").
Proof.
  intros h. split.
  - apply (proj1 (C4_error_redirect Demo.rt h
                    (authorize_query [] [("state", JStr "xyz")])
                    Demo.s0 Response.fresh
                    "invalid_request" "Missing parameter: `redirect_uri`" 400
                    eq_refl eq_refl eq_refl)).
    reflexivity.
  - apply (proj2 (C4_error_redirect Demo.rt h
                    (authorize_query
                       [("redirect_uri", JStr "https://app/cb?foo=1")] [])
                    Demo.s0 Response.fresh
                    "invalid_request" "Missing parameter: `state`" 400
                    eq_refl eq_refl eq_refl)
             "https://app/cb?foo=1"); reflexivity.
Defined.

(* ------------------------------------------------------------------ *)
(** ** Introspection *)

Section Introspect.
Context {σ : Type} (rt : Runtime.t σ).

Lemma authenticateClient_ok (this : IntrospectHandler.t σ) rr s client s1 :
  Model.getClient (IntrospectHandler.model this)
    (IntrospectRequest.clientId rr) (IntrospectRequest.clientSecret rr) s
  = (client, s1) ->
  truthy client = true ->
  IntrospectHandler.authenticateClient this rr s
  = (inr client, s1,
     [GetClient (IntrospectRequest.clientId rr)
                (IntrospectRequest.clientSecret rr) client]).
Proof.
  intros Hc Ht. unfold IntrospectHandler.authenticateClient.
  rewrite (bind_inr _ _ _ _ _ _ (await_run _ _ _ _ _ Hc)).
  unfold js_not. rewrite Ht. reflexivity.
Qed.

Lemma verifyToken_load (this : IntrospectHandler.t σ) rr client s tok s1 :
  load_token (IntrospectHandler.model this) (IntrospectRequest.tokenHint rr)
    (IntrospectRequest.token rr) s = (tok, s1) ->
  IntrospectHandler.verifyToken this rr client s
  = (let '(r, s2, t2) :=
       (if truthy tok then
          token_client <- lift (get tok "client") ;;
          token_client_id <- lift (get token_client "id") ;;
          client_id <- lift (get client "id") ;;
          ret (if strict_eq token_client_id client_id then tok else JBool false)
        else ret (JBool false)) s1 in
     (r, s2, (load_event (IntrospectRequest.tokenHint rr)
                 (IntrospectRequest.token rr) tok :: t2))).
Proof.
  unfold load_token, load_event, IntrospectHandler.verifyToken. intros H.
  destruct (strict_eq (IntrospectRequest.tokenHint rr) (JStr "access_token"));
    rewrite (bind_inr _ _ _ _ _ _ (await_run _ _ _ _ _ H)); reflexivity.
Qed.

Lemma verifyToken_verified (this : IntrospectHandler.t σ) rr client s tok s1 :
  load_token (IntrospectHandler.model this) (IntrospectRequest.tokenHint rr)
    (IntrospectRequest.token rr) s = (tok, s1) ->
  truthy tok = true -> truthy client = true ->
  nullish (prop tok "client") = false ->
  IntrospectHandler.verifyToken this rr client s
  = (inr (if strict_eq (prop (prop tok "client") "id") (prop client "id")
          then tok else JBool false), s1,
     [load_event (IntrospectRequest.tokenHint rr)
        (IntrospectRequest.token rr) tok]).
Proof.
  intros H Ht Hc Hn. rewrite (verifyToken_load _ _ _ _ _ _ H). rewrite Ht.
  rewrite (get_truthy _ _ Ht), (get_truthy _ _ Hc).
  cbv [bind lift ret]. rewrite (get_defined _ _ Hn). reflexivity.
Qed.


Lemma hinted_get tok hint :
  truthy tok = true ->
  (if strict_eq hint (JStr "access_token")
   then get tok "accessTokenExpiresAt"
   else get tok "refreshTokenExpiresAt")
  = inr (prop tok (hinted_expiry hint)).
Proof.
  intros Ht. unfold hinted_expiry.
  destruct (strict_eq hint (JStr "access_token")); apply get_truthy, Ht.
Qed.

Lemma composeIntrospectResult_no_expiry rr tok s :
  truthy tok = true ->
  prop tok (hinted_expiry (IntrospectRequest.tokenHint rr)) = JUndefined ->
  IntrospectHandler.composeIntrospectResult rt rr tok s
  = (inl (TypeError_read "getTime" JUndefined), s, []).
Proof.
  intros Ht He. unfold IntrospectHandler.composeIntrospectResult, js_not.
  rewrite Ht, (hinted_get _ _ Ht), He. reflexivity.
Qed.

(** C10.  An introspection request whose token is found and was issued to
    the authenticated client, but whose record lacks the expiry the
    [token_hint] designates, is not answered [{active: false}]: reading the
    time of the missing expiry throws a [TypeError], which the error
    response wraps as [server_error] with status 500. *)
Theorem C10_introspect_missing_expiry
        (this : IntrospectHandler.t σ) (request : Request.t)
        (s : σ) (resp : Response.t)
        (rr : IntrospectRequest.t) (client tok : JsVal) (s1 s2 : σ) :
  IntrospectRequest.new request
    (default_to (JBool true) (IntrospectHandler.isClientSecretRequired this))
  = inr rr ->
  Model.getClient (IntrospectHandler.model this)
    (IntrospectRequest.clientId rr) (IntrospectRequest.clientSecret rr) s
  = (client, s1) ->
  truthy client = true ->
  load_token (IntrospectHandler.model this) (IntrospectRequest.tokenHint rr)
    (IntrospectRequest.token rr) s1 = (tok, s2) ->
  truthy tok = true ->
  nullish (prop tok "client") = false ->
  strict_eq (prop (prop tok "client") "id") (prop client "id") = true ->
  prop tok (hinted_expiry (IntrospectRequest.tokenHint rr)) = JUndefined ->
  exists resp',
    IntrospectHandler.execute rt this request (s, resp)
    = (inl (TypeError_read "getTime" JUndefined), (s2, resp'),
       [GetClient (IntrospectRequest.clientId rr)
                  (IntrospectRequest.clientSecret rr) client;
        load_event (IntrospectRequest.tokenHint rr)
                   (IntrospectRequest.token rr) tok])
    /\ Response.status resp' = 500
    /\ Response.body resp'
       = JObj [("error", JStr "server_error");
               ("error_description",
                JStr (err_message (TypeError_read "getTime" JUndefined)))]
    /\ Response.body resp' <> JObj [("active", JBool false)]
    /\ Response.headers resp' = Response.headers resp.
Proof.
  intros Hparse Hclient Hct Hload Htt Hcl Hid Hexp.
  unfold IntrospectHandler.execute, try_catch.
  rewrite (bind_inr _ _ (s, resp) rr (s, resp) [])
    by (rewrite Hparse; reflexivity).
  rewrite (bind_inr _ _ _ _ _ _
             (liftH_run _ _ _ _ _ _ (authenticateClient_ok _ _ _ _ _ Hclient Hct))).
  rewrite (bind_inr _ _ _ _ _ _
             (liftH_run _ _ _ _ _ _
                (verifyToken_verified _ _ _ _ _ _ Hload Htt Hct Hcl))).
  rewrite Hid.
  rewrite (bind_inl _ _ _ _ _ _
             (liftH_run _ _ _ _ _ _
                (composeIntrospectResult_no_expiry _ _ _ Htt Hexp))).
  eexists. split; [reflexivity|].
  cbn. repeat split. discriminate.
Qed.

End Introspect.

Lemma C10_introspect_missing_expiry_witness :
  let request :=
    Demo.post [("client_id", JStr "c1"); ("client_secret", JStr "s1");
               ("token", JStr "A1"); ("token_hint", JStr "access_token")] in
  let a := Demo.answers JUndefined (Demo.tokenRecord Demo.c1 []) JUndefined in
  exists resp',
    IntrospectHandler.execute Demo.rt (Demo.introspect a) request
      (Demo.s0, Response.fresh)
    = (inl (TypeError_read "getTime" JUndefined), (Demo.s0, resp'),
       [GetClient (JStr "c1") (JStr "s1") Demo.c1;
        GetAccessToken (JStr "A1") (Demo.tokenRecord Demo.c1 [])])
    /\ Response.status resp' = 500
    /\ Response.body resp'
       = JObj [("error", JStr "server_error");
               ("error_description",
                JStr (err_message (TypeError_read "getTime" JUndefined)))]
    /\ Response.body resp' <> JObj [("active", JBool false)]
    /\ Response.headers resp' = Response.headers Response.fresh.
Proof.
  intros request a.
  apply (C10_introspect_missing_expiry Demo.rt (Demo.introspect a) request
           Demo.s0 Response.fresh
           {| IntrospectRequest.clientId := JStr "c1";
              IntrospectRequest.clientSecret := JStr "s1";
              IntrospectRequest.tokenHint := JStr "access_token";
              IntrospectRequest.token := JStr "A1" |}
           Demo.c1 (Demo.tokenRecord Demo.c1 []) Demo.s0 Demo.s0);
    reflexivity.
Defined.

(* ------------------------------------------------------------------ *)
(** ** Revocation *)

Section Revoke.
Context {σ : Type}.





End Revoke.


(** A token record that the Model found and that carries no [client]: the
    request parses and its client authenticates, yet [token.client.id] throws
    a [TypeError] in [verifyToken]; the handler rethrows it, no revocation is
    made and the response is the error, not the 200. *)
Lemma C8_counterexample :
  let token := JObj [("accessToken", JStr "A1")] in
  let this := Demo.revoke (Demo.answers JUndefined token JUndefined) in
  let request :=
    Demo.post [("client_id", JStr "c1"); ("client_secret", JStr "s1");
               ("token", JStr "A1"); ("token_hint", JStr "access_token")] in
  let run := RevokeHandler.execute this request (Demo.s0, Response.fresh) in
  RevokeRequest.new request (JBool true)
  = inr {| IntrospectRequest.clientId := JStr "c1";
           IntrospectRequest.clientSecret := JStr "s1";
           IntrospectRequest.tokenHint := JStr "access_token";
           IntrospectRequest.token := JStr "A1" |}
  /\ snd run = [GetClient (JStr "c1") (JStr "s1") Demo.c1;
                GetAccessToken (JStr "A1") token]
  /\ truthy Demo.c1 = true
  /\ outcome_of run = inl (TypeError_read "id" JUndefined)
  /\ Response.status (response_of run) = 500
  /\ Response.body (response_of run) <> JObj [].
Proof. vm_compute. repeat split. discriminate. Qed.

(* ------------------------------------------------------------------ *)
(** ** Expiry comparisons *)

(** Unfolding of the monad operations, for running a computation step by
    step. *)
Ltac mrun :=
  cbv beta iota zeta delta [bind lift ret throw throw_if Date_now js_not await].

Section Expiry.
Context {σ : Type} (rt : Runtime.t σ).

(** Each of the four places that compare an expiry with the clock, on a
    record that passes the other checks: the outcome in terms of the strict
    comparison [e < now]. *)
Lemma validateAuthorizationCode_expiry
      (this : AbstractGrant.t σ) (req : AuthorizationCodeGrant.AccessTokenRequest.t)
      (client code : JsVal) (e : Z) (s s1 : σ) :
  Model.getAuthorizationCode (AbstractGrant.model this)
    (AuthorizationCodeGrant.AccessTokenRequest.code req) s = (code, s1) ->
  code_checks code client = true ->
  prop code "expiresAt" = JDate e ->
  AuthorizationCodeGrant.validateAuthorizationCode rt this req client s
  = ((if e <? Runtime.now rt s
      then inl (InvalidGrantError "Invalid grant: authorization code has expired")
      else inr code), s1,
     [GetAuthorizationCode (AuthorizationCodeGrant.AccessTokenRequest.code req) code]).
Proof.
  unfold code_checks, issued_to. intros Hget Hc He.
  apply andb_true_iff in Hc as [Hc Hru]. apply andb_true_iff in Hc as [Hc Hid].
  apply andb_true_iff in Hc as [Hc Hus]. apply andb_true_iff in Hc as [Hc Hcl].
  apply andb_true_iff in Hc as [Hc Hnc]. apply negb_true_iff in Hnc.
  unfold AuthorizationCodeGrant.validateAuthorizationCode. mrun.
  rewrite Hget.
  rewrite !(get_truthy _ _ Hc), !(get_truthy _ _ Hcl), !(get_defined _ _ Hnc).
  rewrite Hc, Hcl, Hus, Hid, He.
  cbn [negb instanceofDate getTime].
  destruct (e <? Runtime.now rt s); [reflexivity|].
  apply negb_true_iff in Hru. rewrite Hru. reflexivity.
Qed.

Lemma validateAccessToken_expiry
      (this : AuthenticateHandler.t σ) (token tok : JsVal) (e : Z) (s s1 : σ) :
  Model.getAccessToken (AuthenticateHandler.model this) token s = (tok, s1) ->
  access_checks tok = true ->
  prop tok "accessTokenExpiresAt" = JDate e ->
  AuthenticateHandler.validateAccessToken rt this token s
  = ((if e <? Runtime.now rt s
      then inl (InvalidTokenError "Invalid token: access token has expired")
      else inr tok), s1, [GetAccessToken token tok]).
Proof.
  unfold access_checks. intros Hget Hc He.
  apply andb_true_iff in Hc as [Hc Hus].
  unfold AuthenticateHandler.validateAccessToken. mrun.
  rewrite Hget.
  rewrite !(get_truthy _ _ Hc).
  rewrite Hc, Hus, He.
  cbn [negb instanceofDate getTime].
  destruct (e <? Runtime.now rt s); reflexivity.
Qed.

Lemma validateRefreshToken_expiry
      (this : AbstractGrant.t σ) (req : RefreshTokenGrant.AccessTokenRequest.t)
      (client tok : JsVal) (s s1 : σ) :
  Model.getRefreshToken (AbstractGrant.model this)
    (RefreshTokenGrant.AccessTokenRequest.refreshToken req) s = (tok, s1) ->
  refresh_checks tok client = true ->
  RefreshTokenGrant.validateRefreshToken rt this req client s
  = ((match prop tok "refreshTokenExpiresAt" with
      | JDate e =>
          if e <? Runtime.now rt s1
          then inl (InvalidGrantError "Invalid grant: refresh token has expired")
          else inr tok
      | v =>
          if truthy v
          then inl (ServerError
                      "Server error: `refreshTokenExpiresAt` must be a Date instance")
          else inr tok
      end), s1,
     [GetRefreshToken (RefreshTokenGrant.AccessTokenRequest.refreshToken req) tok]).
Proof.
  unfold refresh_checks, issued_to. intros Hget Hc.
  apply andb_true_iff in Hc as [Hc Hid]. apply andb_true_iff in Hc as [Hc Hus].
  apply andb_true_iff in Hc as [Hc Hcl]. apply andb_true_iff in Hc as [Hc Hnc].
  apply negb_true_iff in Hnc.
  unfold RefreshTokenGrant.validateRefreshToken. mrun.
  rewrite Hget.
  rewrite !(get_truthy _ _ Hc), !(get_truthy _ _ Hcl), !(get_defined _ _ Hnc).
  rewrite Hc, Hcl, Hus, Hid.
  cbn [negb].
  destruct (prop tok "refreshTokenExpiresAt") as [| |b|n|x|e|l|o];
    cbn [truthy negb instanceofDate getTime andb]; try reflexivity.
  - destruct b; reflexivity.
  - destruct (negb (n =? 0)); reflexivity.
  - destruct (negb (x =? "")%string); reflexivity.
  - destruct (e <? Runtime.now rt s1); reflexivity.
Qed.

Lemma composeIntrospectResult_expiry rr tok e s :
  introspect_checks tok = true ->
  prop tok (hinted_expiry (IntrospectRequest.tokenHint rr)) = JDate e ->
  IntrospectHandler.composeIntrospectResult rt rr tok s
  = (inr (if e <? Runtime.now rt s then inactive_result
          else active_result tok (JDate e)), s, []).
Proof.
  unfold introspect_checks, has_client. intros Hc He.
  apply andb_true_iff in Hc as [Hc Hus]. apply andb_true_iff in Hc as [Hc Hcl].
  apply negb_true_iff in Hus, Hcl.
  unfold IntrospectHandler.composeIntrospectResult, js_not.
  rewrite Hc. cbn [negb]. mrun.
  rewrite (hinted_get _ _ Hc), He. cbn [getTime].
  destruct (e <? Runtime.now rt s); [reflexivity|].
  rewrite !(get_truthy _ _ Hc), !(get_defined _ _ Hus), !(get_defined _ _ Hcl).
  reflexivity.
Qed.

(** C5, as the code has it.  At each of the four expiry comparisons
    (redemption of an authorization code, validation of a bearer access
    token, validation of a refresh token, introspection) a credential whose
    expiry instant is equal to the current time is accepted as still valid:
    the comparisons are strict, only an earlier expiry counts as expired. *)
Theorem C5_expiry_equal_to_now_is_valid :
  (forall (this : AbstractGrant.t σ) req client code s s1,
      Model.getAuthorizationCode (AbstractGrant.model this)
        (AuthorizationCodeGrant.AccessTokenRequest.code req) s = (code, s1) ->
      code_checks code client = true ->
      prop code "expiresAt" = JDate (Runtime.now rt s) ->
      AuthorizationCodeGrant.validateAuthorizationCode rt this req client s
      = (inr code, s1,
         [GetAuthorizationCode
            (AuthorizationCodeGrant.AccessTokenRequest.code req) code]))
  /\
  (forall (this : AuthenticateHandler.t σ) token tok s s1,
      Model.getAccessToken (AuthenticateHandler.model this) token s = (tok, s1) ->
      access_checks tok = true ->
      prop tok "accessTokenExpiresAt" = JDate (Runtime.now rt s) ->
      AuthenticateHandler.validateAccessToken rt this token s
      = (inr tok, s1, [GetAccessToken token tok]))
  /\
  (forall (this : AbstractGrant.t σ) req client tok s s1,
      Model.getRefreshToken (AbstractGrant.model this)
        (RefreshTokenGrant.AccessTokenRequest.refreshToken req) s = (tok, s1) ->
      refresh_checks tok client = true ->
      prop tok "refreshTokenExpiresAt" = JDate (Runtime.now rt s1) ->
      RefreshTokenGrant.validateRefreshToken rt this req client s
      = (inr tok, s1,
         [GetRefreshToken
            (RefreshTokenGrant.AccessTokenRequest.refreshToken req) tok]))
  /\
  (forall (rr : IntrospectRequest.t) tok s,
      introspect_checks tok = true ->
      prop tok (hinted_expiry (IntrospectRequest.tokenHint rr))
      = JDate (Runtime.now rt s) ->
      IntrospectHandler.composeIntrospectResult rt rr tok s
      = (inr (active_result tok (JDate (Runtime.now rt s))), s, [])).
Proof.
  repeat split.
  - intros this req client code s s1 Hget Hc He.
    rewrite (validateAuthorizationCode_expiry _ _ _ _ _ _ _ Hget Hc He).
    now rewrite Z.ltb_irrefl.
  - intros this token tok s s1 Hget Hc He.
    rewrite (validateAccessToken_expiry _ _ _ _ _ _ Hget Hc He).
    now rewrite Z.ltb_irrefl.
  - intros this req client tok s s1 Hget Hc He.
    rewrite (validateRefreshToken_expiry _ _ _ _ _ _ Hget Hc), He.
    now rewrite Z.ltb_irrefl.
  - intros rr tok s Hc He.
    rewrite (composeIntrospectResult_expiry _ _ _ _ Hc He).
    now rewrite Z.ltb_irrefl.
Qed.

End Expiry.

Lemma C5_expiry_equal_to_now_is_valid_witness :
  (* the clock of [Demo.s0] reads 1000, and so does each expiry *)
  let code := Demo.codeRecord 1000 in
  let access := Demo.tokenRecord Demo.c1 [("accessTokenExpiresAt", JDate 1000)] in
  let refresh := Demo.tokenRecord Demo.c1 [("refreshTokenExpiresAt", JDate 1000)] in
  let a := Demo.answers code access refresh in
  AuthorizationCodeGrant.validateAuthorizationCode Demo.rt (Demo.grant a)
    {| AuthorizationCodeGrant.AccessTokenRequest.code := JStr "abc";
       AuthorizationCodeGrant.AccessTokenRequest.redirectUri := JStr "https://app/cb" |}
    Demo.c1 Demo.s0
  = (inr code, Demo.s0, [GetAuthorizationCode (JStr "abc") code])
  /\
  AuthenticateHandler.validateAccessToken Demo.rt (Demo.bearer a) (JStr "A1") Demo.s0
  = (inr access, Demo.s0, [GetAccessToken (JStr "A1") access])
  /\
  RefreshTokenGrant.validateRefreshToken Demo.rt (Demo.grant a)
    {| RefreshTokenGrant.AccessTokenRequest.refreshToken := JStr "R1";
       RefreshTokenGrant.AccessTokenRequest.scope := JUndefined |}
    Demo.c1 Demo.s0
  = (inr refresh, Demo.s0, [GetRefreshToken (JStr "R1") refresh])
  /\
  IntrospectHandler.composeIntrospectResult Demo.rt
    {| IntrospectRequest.clientId := JStr "c1";
       IntrospectRequest.clientSecret := JStr "s1";
       IntrospectRequest.tokenHint := JStr "access_token";
       IntrospectRequest.token := JStr "A1" |}
    access Demo.s0
  = (inr (active_result access (JDate 1000)), Demo.s0, []).
Proof.
  intros code access refresh a.
  destruct (@C5_expiry_equal_to_now_is_valid Demo.State Demo.rt)
    as (H1 & H2 & H3 & H4).
  split; [|split; [|split]].
  - apply (H1 (Demo.grant a)); reflexivity.
  - apply (H2 (Demo.bearer a)); reflexivity.
  - apply (H3 (Demo.grant a)); reflexivity.
  - apply H4; reflexivity.
Defined.

(** C5, as stated, fails at every one of the four places: with the clock at
    1000 and credentials expiring at 1000, the bearer endpoint authenticates
    the user, the introspection endpoint answers [active: true], the
    authorization code is accepted and the refresh-token grant issues a new
    token. *)
Lemma C5_counterexample :
  let code := Demo.codeRecord 1000 in
  let access := Demo.tokenRecord Demo.c1 [("accessTokenExpiresAt", JDate 1000)] in
  let refresh := Demo.tokenRecord Demo.c1 [("refreshTokenExpiresAt", JDate 1000)] in
  let a := Demo.answers code access refresh in
  Runtime.now Demo.rt Demo.s0 = 1000
  /\ outcome_of
       (AuthenticateHandler.execute Demo.rt (Demo.bearer a)
          (Demo.get_ [("authorization", JStr "Bearer A1")] [])
          (Demo.s0, Response.fresh))
     = inr Demo.alice
  /\ Response.body
       (response_of
          (IntrospectHandler.execute Demo.rt (Demo.introspect a)
             (Demo.post [("client_id", JStr "c1"); ("client_secret", JStr "s1");
                         ("token", JStr "A1"); ("token_hint", JStr "access_token")])
             (Demo.s0, Response.fresh)))
     = active_result access (JDate 1000)
  /\ fst (fst (AuthorizationCodeGrant.validateAuthorizationCode Demo.rt
                 (Demo.grant a)
                 {| AuthorizationCodeGrant.AccessTokenRequest.code := JStr "abc";
                    AuthorizationCodeGrant.AccessTokenRequest.redirectUri :=
                      JStr "https://app/cb" |}
                 Demo.c1 Demo.s0))
     = inr code
  /\ fst (fst (RefreshTokenGrant.execute Demo.rt (Demo.grant a)
                 (Demo.post [("refresh_token", JStr "R1")]) Demo.c1 Demo.s0))
     = inr (JObj [("access_token", JStr "random0");
                  ("token_type", JStr "Bearer");
                  ("expires_in", JNum 1800);
                  ("refresh_token", JStr "random1");
                  ("scope", JStr "read")]).
Proof. vm_compute. repeat split. Qed.

(* ------------------------------------------------------------------ *)
(** ** Refresh-token grant: expiry of the presented token *)

Section RefreshExpiry.
Context {σ : Type} (rt : Runtime.t σ).

(** C2, as the code has it.  For a refresh-token request whose loaded record
    passes the client and user checks: when [refreshTokenExpiresAt] is a
    Date earlier than the current time the grant fails with [invalid_grant]
    (nothing is revoked or saved); when [refreshTokenExpiresAt] is absent no
    expiry is enforced and the validation accepts the record. *)
Theorem C2_refresh_token_expiry
        (this : AbstractGrant.t σ) (request : Request.t) (client : JsVal)
        (req : RefreshTokenGrant.AccessTokenRequest.t) (tok : JsVal) (s s1 : σ) :
  RefreshTokenGrant.AccessTokenRequest.new request client = inr req ->
  Model.getRefreshToken (AbstractGrant.model this)
    (RefreshTokenGrant.AccessTokenRequest.refreshToken req) s = (tok, s1) ->
  refresh_checks tok client = true ->
  (forall e,
      prop tok "refreshTokenExpiresAt" = JDate e ->
      e < Runtime.now rt s1 ->
      RefreshTokenGrant.execute rt this request client s
      = (inl (OAuthError "invalid_grant" 400
                "Invalid grant: refresh token has expired"), s1,
         [GetRefreshToken
            (RefreshTokenGrant.AccessTokenRequest.refreshToken req) tok]))
  /\
  (prop tok "refreshTokenExpiresAt" = JUndefined ->
   RefreshTokenGrant.validateRefreshToken rt this req client s
   = (inr tok, s1,
      [GetRefreshToken
         (RefreshTokenGrant.AccessTokenRequest.refreshToken req) tok])).
Proof.
  intros Hparse Hget Hc. split.
  - intros e He Hlt.
    unfold RefreshTokenGrant.execute, try_catch.
    rewrite (bind_inr _ _ s req s []) by (rewrite Hparse; reflexivity).
    assert (Hv := validateRefreshToken_expiry rt this req client tok s s1 Hget Hc).
    rewrite He in Hv.
    apply Z.ltb_lt in Hlt. rewrite Hlt in Hv.
    rewrite (bind_inl _ _ _ _ _ _ Hv). reflexivity.
  - intros He.
    rewrite (validateRefreshToken_expiry rt this req client tok s s1 Hget Hc), He.
    reflexivity.
Qed.

End RefreshExpiry.

Lemma C2_refresh_token_expiry_witness :
  let request := Demo.post [("refresh_token", JStr "R1")] in
  let req := {| RefreshTokenGrant.AccessTokenRequest.refreshToken := JStr "R1";
                RefreshTokenGrant.AccessTokenRequest.scope := JUndefined |} in
  let expired := Demo.tokenRecord Demo.c1 [("refreshTokenExpiresAt", JDate 999)] in
  let open_ended := Demo.tokenRecord Demo.c1 [] in
  RefreshTokenGrant.execute Demo.rt
    (Demo.grant (Demo.answers JUndefined JUndefined expired)) request Demo.c1 Demo.s0
  = (inl (OAuthError "invalid_grant" 400 "Invalid grant: refresh token has expired"),
     Demo.s0, [GetRefreshToken (JStr "R1") expired])
  /\
  RefreshTokenGrant.validateRefreshToken Demo.rt
    (Demo.grant (Demo.answers JUndefined JUndefined open_ended)) req Demo.c1 Demo.s0
  = (inr open_ended, Demo.s0, [GetRefreshToken (JStr "R1") open_ended]).
Proof.
  intros request req expired open_ended. split.
  - apply (proj1 (C2_refresh_token_expiry Demo.rt
                    (Demo.grant (Demo.answers JUndefined JUndefined expired))
                    request Demo.c1 req expired Demo.s0 Demo.s0
                    eq_refl eq_refl eq_refl) 999).
    + reflexivity.
    + vm_compute. reflexivity.
  - apply (proj2 (C2_refresh_token_expiry Demo.rt
                    (Demo.grant (Demo.answers JUndefined JUndefined open_ended))
                    request Demo.c1 req open_ended Demo.s0 Demo.s0
                    eq_refl eq_refl eq_refl)).
    reflexivity.
Defined.

(** C2, as stated, fails for an absent expiry: the refresh-token grant run
    on a record without [refreshTokenExpiresAt] does not fail with
    [invalid_grant]; the old token is revoked and a new bearer token is
    returned. *)
Lemma C2_counterexample :
  let record := Demo.tokenRecord Demo.c1 [] in
  let r := RefreshTokenGrant.execute Demo.rt
             (Demo.grant (Demo.answers JUndefined JUndefined record))
             (Demo.post [("refresh_token", JStr "R1")]) Demo.c1 Demo.s0 in
  prop record "refreshTokenExpiresAt" = JUndefined
  /\ fst (fst r)
     = inr (JObj [("access_token", JStr "random0");
                  ("token_type", JStr "Bearer");
                  ("expires_in", JNum 1800);
                  ("refresh_token", JStr "random1");
                  ("scope", JStr "read")]).
Proof. vm_compute. repeat split. Qed.

(* ------------------------------------------------------------------ *)
(** ** Traces of Model calls *)

Lemma lift_inr {σ' A} (x : JsError + A) s (a : A) s' t :
  @lift σ' A x s = (inr a, s', t) -> x = inr a /\ s' = s /\ t = [].
Proof.
  unfold lift. destruct x as [e|b]; [discriminate|].
  intros H. injection H as <- <- <-. auto.
Qed.

Lemma RTG_request_token request client req :
  RefreshTokenGrant.AccessTokenRequest.new request client = inr req ->
  RefreshTokenGrant.AccessTokenRequest.refreshToken req
  = field (Request.body request) "refresh_token".
Proof.
  unfold RefreshTokenGrant.AccessTokenRequest.new. intros H.
  repeat match type of H with
         | context [if ?c then _ else _] => destruct c; try discriminate H
         end.
  now injection H as <-.
Qed.

Lemma ACG_request request client req :
  AuthorizationCodeGrant.AccessTokenRequest.new request client = inr req ->
  AuthorizationCodeGrant.AccessTokenRequest.code req
  = field (Request.body request) "code"
  /\ AuthorizationCodeGrant.AccessTokenRequest.redirectUri req
     = requested_redirect_uri request.
Proof.
  unfold AuthorizationCodeGrant.AccessTokenRequest.new. intros H.
  repeat match type of H with
         | context [if ?c then _ else _] => destruct c; try discriminate H
         end.
  injection H as <-. split; reflexivity.
Qed.

Lemma try_catch_rethrow {σ A} (m : M σ A) s :
  try_catch m (fun e => throw e) s = m s.
Proof.
  unfold try_catch, throw. destruct (m s) as [[[e|a] s1] t1]; [|reflexivity].
  now rewrite app_nil_r.
Qed.

Lemma bind_cases {σ A B} (m : M σ A) (f : A -> M σ B) s r s' t :
  bind m f s = (r, s', t) ->
  (exists e, m s = (inl e, s', t) /\ r = inl e)
  \/ (exists a s1 t1 t2,
        m s = (inr a, s1, t1) /\ f a s1 = (r, s', t2) /\ t = (t1 ++ t2)%list).
Proof.
  unfold bind. destruct (m s) as [[[e|a] s1] t1].
  - intros H. injection H as <- <- <-. left. eauto.
  - destruct (f a s1) as [[r2 s2] t2] eqn:Hf.
    intros H. injection H as <- <- <-. right. exists a, s1, t1, t2. auto.
Qed.

Lemma quiet_ret {σ A} (a : A) : quiet (@ret σ A a).
Proof. intros s r s' t H. now injection H as <- <- <-. Qed.

Lemma quiet_throw {σ A} e : quiet (@throw σ A e).
Proof. intros s r s' t H. now injection H as <- <- <-. Qed.

Lemma quiet_lift {σ A} (x : JsError + A) : quiet (@lift σ A x).
Proof. destruct x; [apply quiet_throw | apply quiet_ret]. Qed.

Lemma quiet_throw_if {σ} c e : quiet (@throw_if σ c e).
Proof. destruct c; [apply quiet_throw | apply quiet_ret]. Qed.

Lemma quiet_Date_now {σ} (rt : Runtime.t σ) : quiet (Date_now rt).
Proof. intros s r s' t H. now injection H as <- <- <-. Qed.

Lemma quiet_randomToken {σ} (rt : Runtime.t σ) : quiet (randomToken rt).
Proof.
  intros s r s' t. unfold randomToken.
  destruct (Runtime.generateRandomToken rt s). intros H. now injection H as <- <- <-.
Qed.

Lemma quiet_bind {σ A B} (m : M σ A) (f : A -> M σ B) :
  quiet m -> (forall a, quiet (f a)) -> quiet (bind m f).
Proof.
  intros Hm Hf s r s' t H.
  apply bind_cases in H as [(e & H & _) | (a & s1 & t1 & t2 & H1 & H2 & ->)].
  - eapply Hm, H.
  - now rewrite (Hm _ _ _ _ H1), (Hf _ _ _ _ _ H2).
Qed.

Ltac quiet_tac :=
  repeat first
    [ apply quiet_ret | apply quiet_throw | apply quiet_lift
    | apply quiet_throw_if | apply quiet_Date_now | apply quiet_randomToken
    | apply quiet_bind; [|intros]
    | match goal with |- quiet (if ?c then _ else _) => destruct c end ].

Lemma yields_ret {σ A} (v : A) : yields v (@ret σ A v).
Proof. intros s r s' t H a ->. now injection H as <- _ _. Qed.

Lemma yields_bind {σ A B} (v : B) (m : M σ A) (f : A -> M σ B) :
  (forall a, yields v (f a)) -> yields v (bind m f).
Proof.
  intros Hf s r s' t H b ->.
  apply bind_cases in H as [(e & _ & H) | (a & s1 & t1 & t2 & _ & H2 & _)].
  - discriminate H.
  - eapply Hf; eauto.
Qed.

Ltac yields_tac := repeat (apply yields_bind; intros); apply yields_ret.

(** A Model call followed by steps that make none, and that return the
    value of the call when they return: the trace holds the call alone, and
    the value returned is the one of the call. *)
Lemma await_then_quiet {σ} (f : σ -> JsVal * σ) ev (k : JsVal -> M σ JsVal)
      s r s' t :
  (forall a, quiet (k a)) ->
  (forall a, yields a (k a)) ->
  bind (await f ev) k s = (r, s', t) ->
  t = [ev (fst (f s))] /\ (forall v, r = inr v -> v = fst (f s)).
Proof.
  intros Hk Hy H. unfold bind, await in H.
  destruct (f s) as [g s1]. cbn [fst].
  destruct (k g s1) as [[r2 s2] t2] eqn:Hkg.
  injection H as <- <- <-. rewrite (Hk _ _ _ _ _ Hkg). split; [reflexivity|].
  intros v Hv. eapply Hy; eauto.
Qed.

Lemma emits_quiet {σ A} P (m : M σ A) : quiet m -> emits P m.
Proof. intros H s r s' t Hm. now rewrite (H _ _ _ _ Hm). Qed.

Lemma emits_bind {σ A B} P (m : M σ A) (f : A -> M σ B) :
  emits P m -> (forall a, emits P (f a)) -> emits P (bind m f).
Proof.
  intros Hm Hf s r s' t H.
  apply bind_cases in H as [(e & H & _) | (a & s1 & t1 & t2 & H1 & H2 & ->)].
  - eapply Hm, H.
  - rewrite forallb_app, (Hm _ _ _ _ H1), (Hf _ _ _ _ _ H2). reflexivity.
Qed.

Lemma emits_await {σ} P (f : σ -> JsVal * σ) ev :
  (forall g, P (ev g) = true) -> emits P (await f ev).
Proof.
  intros Hev s r s' t. unfold await. destruct (f s) as [g s1].
  intros H. injection H as <- <- <-. cbn. now rewrite Hev.
Qed.

Lemma emits_try_rethrow {σ A} P (m : M σ A) :
  emits P m -> emits P (try_catch m (fun e => throw e)).
Proof. intros H s r s' t. rewrite try_catch_rethrow. apply H. Qed.

Create HintDb emits.

Ltac emits_tac :=
  repeat first
    [ solve [auto with emits nocore]
    | apply emits_await; intros; reflexivity
    | apply emits_quiet; solve [quiet_tac]
    | apply emits_bind; [|intros]
    | match goal with
      | |- emits _ (if ?c then _ else _) => destruct c
      | |- emits _ (match ?o with Some _ => _ | None => _ end) => destruct o
      end ].

Section Traces.
Context {σ : Type} (rt : Runtime.t σ).

Lemma validateAuthorizationCode_trace (this : AbstractGrant.t σ) req client s r s' t :
  AuthorizationCodeGrant.validateAuthorizationCode rt this req client s = (r, s', t) ->
  exists g,
    t = [GetAuthorizationCode (AuthorizationCodeGrant.AccessTokenRequest.code req) g]
    /\ (forall code, r = inr code -> code = g).
Proof.
  unfold AuthorizationCodeGrant.validateAuthorizationCode. intros H.
  apply bind_cases in H as [(e & H & _) | (now & s1 & t1 & t2 & H1 & H2 & ->)].
  - discriminate H.
  - injection H1 as <- <- <-. apply await_then_quiet in H2.
    + eexists. exact H2.
    + intros code. quiet_tac.
    + intros code. yields_tac.
Qed.

Lemma validateRefreshToken_trace (this : AbstractGrant.t σ) req client s r s' t :
  RefreshTokenGrant.validateRefreshToken rt this req client s = (r, s', t) ->
  exists g,
    t = [GetRefreshToken (RefreshTokenGrant.AccessTokenRequest.refreshToken req) g]
    /\ (forall tok, r = inr tok -> tok = g).
Proof.
  unfold RefreshTokenGrant.validateRefreshToken. intros H.
  apply await_then_quiet in H.
  - eexists. exact H.
  - intros tok. quiet_tac.
  - intros tok. yields_tac.
Qed.

Lemma TokenModel_new_quiet data allow : quiet (TokenModel.new rt data allow).
Proof.
  unfold TokenModel.new. quiet_tac.
  destruct (prop _ "accessTokenExpiresAt"); quiet_tac.
Qed.

#[local] Hint Resolve TokenModel_new_quiet : emits.
#[local] Hint Extern 1 (emits _ (TokenModel.new _ _ _)) =>
  apply emits_quiet, TokenModel_new_quiet : emits.

Lemma ACG_createToken_emits (this : AbstractGrant.t σ) client code :
  emits not_revocation (AuthorizationCodeGrant.createToken rt this client code).
Proof.
  unfold AuthorizationCodeGrant.createToken, AbstractGrant.validateScope,
    AbstractGrant.generateAccessToken, AbstractGrant.generateRefreshToken,
    AbstractGrant.setAccessTokenExpiresAt, AbstractGrant.setRefreshTokenExpiresAt.
  emits_tac.
Qed.

#[local] Hint Resolve ACG_createToken_emits : emits.

Lemma RTG_createToken_emits (this : AbstractGrant.t σ) client user scope :
  emits not_revocation (RefreshTokenGrant.createToken rt this client user scope).
Proof.
  unfold RefreshTokenGrant.createToken,
    AbstractGrant.generateAccessToken, AbstractGrant.generateRefreshToken,
    AbstractGrant.setAccessTokenExpiresAt, AbstractGrant.setRefreshTokenExpiresAt.
  emits_tac.
Qed.


#[local] Hint Resolve RTG_createToken_emits : emits.

Lemma deleteAuthorizationCode_run (this : AbstractGrant.t σ) code s :
  AuthorizationCodeGrant.deleteAuthorizationCode this code s
  = (let '(st, s1) :=
       Model.revokeAuthorizationCode (AbstractGrant.model this) code s in
     ((if truthy st then inr tt
       else inl (InvalidGrantError "Invalid grant: authorization code is invalid")),
      s1, [RevokeAuthorizationCode code st])).
Proof.
  unfold AuthorizationCodeGrant.deleteAuthorizationCode, bind, await.
  destruct (Model.revokeAuthorizationCode (AbstractGrant.model this) code s)
    as [st s1].
  unfold throw_if, js_not. destruct (truthy st); reflexivity.
Qed.

(** The trace of a redemption: nothing, or the lookup of the code alone
    (the request or the code was rejected), or the lookup, the revocation
    and what follows it, which is empty when the revocation failed and holds
    no further revocation. *)
Lemma ACG_execute_shape (this : AbstractGrant.t σ) request client s r s' t :
  AuthorizationCodeGrant.execute rt this request client s = (r, s', t) ->
  t = []
  \/ (exists g, t = [GetAuthorizationCode (field (Request.body request) "code") g])
  \/ (exists code st t3,
        t = GetAuthorizationCode (field (Request.body request) "code") code
            :: RevokeAuthorizationCode code st :: t3
        /\ forallb not_revocation t3 = true
        /\ (truthy st = false ->
            t3 = []
            /\ r = inl (InvalidGrantError
                          "Invalid grant: authorization code is invalid"))).
Proof.
  unfold AuthorizationCodeGrant.execute. rewrite try_catch_rethrow. intros H.
  apply bind_cases in H as [(e & H & _) | (req & s1 & t1 & t2 & H1 & H & ->)].
  { left. eapply quiet_lift, H. }
  apply lift_inr in H1 as (Hreq & -> & ->). cbn [app].
  apply ACG_request in Hreq as [Hkey _]. rewrite <- Hkey.
  apply bind_cases in H as [(e & H & _) | (code & s2 & t1' & t2' & H1 & H & ->)].
  { right; left. apply validateAuthorizationCode_trace in H as [g [-> _]].
    eexists; reflexivity. }
  apply validateAuthorizationCode_trace in H1 as (g & -> & Hg).
  specialize (Hg code eq_refl). subst g.
  apply bind_cases in H as [(e & H & _) | ([] & s3 & t3 & t4 & H2 & H & ->)].
  { right; left. rewrite (quiet_lift _ _ _ _ _ H).
    eexists; reflexivity. }
  rewrite (quiet_lift _ _ _ _ _ H2). cbn [app]. clear H2.
  right; right.
  apply bind_cases in H as [(e & H & ->) | ([] & s4 & t5 & t6 & H3 & H & ->)].
  - (* the revocation failed *)
    rewrite deleteAuthorizationCode_run in H.
    destruct (Model.revokeAuthorizationCode (AbstractGrant.model this) code s3)
      as [st s6].
    destruct (truthy st) eqn:Hst; [discriminate H|].
    injection H as <- <- <-.
    exists code, st, [].
    repeat split.
  - rewrite deleteAuthorizationCode_run in H3.
    destruct (Model.revokeAuthorizationCode (AbstractGrant.model this) code s3)
      as [st s6].
    destruct (truthy st) eqn:Hst; [|discriminate H3].
    injection H3 as <- <-.
    exists code, st, t6.
    split; [reflexivity|]. split; [|congruence].
    revert H.
    match goal with
    | |- ?m ?x = _ -> _ =>
        assert (Hem : emits not_revocation m)
    end.
    { emits_tac. }
    apply Hem.
Qed.


Lemma deleteRefreshToken_run (this : AbstractGrant.t σ) tok s :
  truthy (AbstractGrant.alwaysIssueNewRefreshToken this) = true ->
  RefreshTokenGrant.deleteRefreshToken this tok s
  = (let '(st, s1) :=
       Model.revokeRefreshToken (AbstractGrant.model this) tok s in
     ((if truthy st then inr tt
       else inl (InvalidGrantError "Invalid grant: refresh token is invalid")),
      s1, [RevokeRefreshToken tok st])).
Proof.
  intros Ha. unfold RefreshTokenGrant.deleteRefreshToken, js_not. rewrite Ha.
  cbn [negb]. unfold bind, await.
  destruct (Model.revokeRefreshToken (AbstractGrant.model this) tok s)
    as [st s1].
  unfold throw_if, js_not. destruct (truthy st); reflexivity.
Qed.

(** The trace of a refresh-token exchange that rotates the refresh token:
    the same three shapes. *)
Lemma RTG_execute_shape (this : AbstractGrant.t σ) request client s r s' t :
  truthy (AbstractGrant.alwaysIssueNewRefreshToken this) = true ->
  RefreshTokenGrant.execute rt this request client s = (r, s', t) ->
  t = []
  \/ (exists g, t = [GetRefreshToken (field (Request.body request) "refresh_token") g])
  \/ (exists tok st t3,
        t = GetRefreshToken (field (Request.body request) "refresh_token") tok
            :: RevokeRefreshToken tok st :: t3
        /\ forallb not_revocation t3 = true
        /\ (truthy st = false ->
            t3 = []
            /\ r = inl (InvalidGrantError
                          "Invalid grant: refresh token is invalid"))).
Proof.
  intros Ha. unfold RefreshTokenGrant.execute. rewrite try_catch_rethrow. intros H.
  apply bind_cases in H as [(e & H & _) | (req & s1 & t1 & t2 & H1 & H & ->)].
  { left. eapply quiet_lift, H. }
  apply lift_inr in H1 as (Hreq & -> & ->). cbn [app].
  apply RTG_request_token in Hreq as Hkey. rewrite <- Hkey.
  apply bind_cases in H as [(e & H & _) | (tok & s2 & t1' & t2' & H1 & H & ->)].
  { right; left. apply validateRefreshToken_trace in H as [g [-> _]].
    eexists; reflexivity. }
  apply validateRefreshToken_trace in H1 as (g & -> & Hg).
  specialize (Hg tok eq_refl). subst g.
  right; right.
  apply bind_cases in H as [(e & H & ->) | ([] & s4 & t5 & t6 & H3 & H & ->)].
  - rewrite (deleteRefreshToken_run _ _ _ Ha) in H.
    destruct (Model.revokeRefreshToken (AbstractGrant.model this) tok s2)
      as [st s6].
    destruct (truthy st) eqn:Hst; [discriminate H|].
    injection H as <- <- <-.
    exists tok, st, [].
    repeat split.
  - rewrite (deleteRefreshToken_run _ _ _ Ha) in H3.
    destruct (Model.revokeRefreshToken (AbstractGrant.model this) tok s2)
      as [st s6].
    destruct (truthy st) eqn:Hst; [|discriminate H3].
    injection H3 as <- <-.
    exists tok, st, t6.
    split; [reflexivity|]. split; [|congruence].
    revert H.
    match goal with
    | |- ?m ?x = _ -> _ =>
        assert (Hem : emits not_revocation m)
    end.
    { emits_tac. }
    apply Hem.
Qed.

End Traces.

(** From the shape of a trace to the order of its events. *)
Lemma saves_follow_shape (load revoke : JsVal -> JsVal -> Call)
      (key cred st : JsVal) (t3 : list Call) :
  is_save (load key cred) = false -> is_save (revoke cred st) = false ->
  (truthy st = false -> t3 = []) ->
  saves_follow load revoke key (load key cred :: revoke cred st :: t3).
Proof.
  intros Hg Hv Hr pre c post Heq Hsave.
  destruct pre as [|p0 [|p1 pre]]; cbn [app] in Heq.
  - injection Heq as <- _. congruence.
  - injection Heq as _ <- _. congruence.
  - injection Heq as <- <- Hrest. exists cred, st, pre. split; [reflexivity|].
    destruct (truthy st); [reflexivity|].
    specialize (Hr eq_refl). subst t3. destruct pre; discriminate Hrest.
Qed.

Lemma saves_follow_short (load revoke : JsVal -> JsVal -> Call) (key : JsVal)
      (t : list Call) :
  forallb (fun c => negb (is_save c)) t = true -> saves_follow load revoke key t.
Proof.
  intros Hn pre c post -> Hsave.
  rewrite forallb_app in Hn. apply andb_true_iff in Hn as [_ Hn].
  cbn [forallb] in Hn. rewrite Hsave in Hn. discriminate Hn.
Qed.

Lemma revocation_in_tail (c : Call) (t3 : list Call) :
  forallb not_revocation t3 = true -> is_revocation c = true -> ~ In c t3.
Proof.
  intros Hall Hc Hin. rewrite forallb_forall in Hall.
  specialize (Hall _ Hin). unfold not_revocation in Hall.
  rewrite Hc in Hall. discriminate Hall.
Qed.


Section Ordering.
Context {σ : Type} (rt : Runtime.t σ).

(** C6.  In the authorization-code flow, and in the refresh-token flow when
    a new refresh token is always issued, every [saveToken] call of a run
    comes after the call revoking the consumed credential: the trace opens
    with the lookup of the credential presented in the request
    ([body.code], [body.refresh_token]) and with the revocation of the
    record that this lookup returned, and the revocation returned a truthy
    value.  No other revocation is made; when the revocation returns a
    falsy value the run fails with [invalid_grant] and no token is saved. *)
Theorem C6_revocation_precedes_save :
  (forall (this : AbstractGrant.t σ) request client s r s' t,
      AuthorizationCodeGrant.execute rt this request client s = (r, s', t) ->
      saves_follow GetAuthorizationCode RevokeAuthorizationCode
        (field (Request.body request) "code") t
      /\ (forall cred st,
             In (RevokeAuthorizationCode cred st) t ->
             In (GetAuthorizationCode (field (Request.body request) "code") cred) t
             /\ (truthy st = false ->
                 r = inl (OAuthError "invalid_grant" 400
                            "Invalid grant: authorization code is invalid")
                 /\ no_save t)))
  /\
  (forall (this : AbstractGrant.t σ) request client s r s' t,
      truthy (AbstractGrant.alwaysIssueNewRefreshToken this) = true ->
      RefreshTokenGrant.execute rt this request client s = (r, s', t) ->
      saves_follow GetRefreshToken RevokeRefreshToken
        (field (Request.body request) "refresh_token") t
      /\ (forall cred st,
             In (RevokeRefreshToken cred st) t ->
             In (GetRefreshToken (field (Request.body request) "refresh_token") cred) t
             /\ (truthy st = false ->
                 r = inl (OAuthError "invalid_grant" 400
                            "Invalid grant: refresh token is invalid")
                 /\ no_save t))).
Proof.
  split.
  - intros this request client s r s' t H.
    apply ACG_execute_shape in H
      as [-> | [(g & ->) | (code & st & t3 & -> & Hall & Hfail)]].
    + split; [now apply saves_follow_short | intros ? ? []].
    + split; [now apply saves_follow_short|].
      intros cred st [Heq|[]]. discriminate Heq.
    + split.
      * apply saves_follow_shape; try reflexivity.
        intros Hst. now apply Hfail.
      * intros cred st' [Heq|[Heq|Hin]].
        -- discriminate Heq.
        -- injection Heq as -> ->. split; [left; reflexivity|].
           intros Hst'. destruct (Hfail Hst') as [-> ->]. split; reflexivity.
        -- exfalso. apply (revocation_in_tail _ _ Hall) in Hin; [exact Hin | reflexivity].
  - intros this request client s r s' t Ha H.
    apply (RTG_execute_shape rt _ _ _ _ _ _ _ Ha) in H
      as [-> | [(g & ->) | (tok & st & t3 & -> & Hall & Hfail)]].
    + split; [now apply saves_follow_short | intros ? ? []].
    + split; [now apply saves_follow_short|].
      intros cred st [Heq|[]]. discriminate Heq.
    + split.
      * apply saves_follow_shape; try reflexivity.
        intros Hst. now apply Hfail.
      * intros cred st' [Heq|[Heq|Hin]].
        -- discriminate Heq.
        -- injection Heq as -> ->. split; [left; reflexivity|].
           intros Hst'. destruct (Hfail Hst') as [-> ->]. split; reflexivity.
        -- exfalso. apply (revocation_in_tail _ _ Hall) in Hin; [exact Hin | reflexivity].
Qed.

End Ordering.

Lemma C6_revocation_precedes_save_witness :
  let code := Demo.codeRecord 2000 in
  let token := Demo.tokenRecord Demo.c1 [("refreshTokenExpiresAt", JDate 2000)] in
  let redeem := Demo.post [("code", JStr "abc");
                           ("redirect_uri", JStr "https://app/cb")] in
  let refresh := Demo.post [("refresh_token", JStr "R1")] in
  let ok := Demo.answers code JUndefined token in
  let ko := {| Demo.client := Demo.c1; Demo.code := code;
               Demo.accessToken := JUndefined; Demo.refreshToken := token;
               Demo.revoked := JBool false |} in
  let run1 := AuthorizationCodeGrant.execute Demo.rt (Demo.grant ok) redeem
                Demo.c1 Demo.s0 in
  let run2 := RefreshTokenGrant.execute Demo.rt (Demo.grant ok) refresh
                Demo.c1 Demo.s0 in
  let run3 := AuthorizationCodeGrant.execute Demo.rt (Demo.grant ko) redeem
                Demo.c1 Demo.s0 in
  let run4 := RefreshTokenGrant.execute Demo.rt (Demo.grant ko) refresh
                Demo.c1 Demo.s0 in
  (exists save rest,
      snd run1 = GetAuthorizationCode (JStr "abc") code
                 :: RevokeAuthorizationCode code (JBool true) :: save :: rest
      /\ is_save save = true)
  /\ saves_follow GetAuthorizationCode RevokeAuthorizationCode (JStr "abc") (snd run1)
  /\ (exists save rest,
        snd run2 = GetRefreshToken (JStr "R1") token
                   :: RevokeRefreshToken token (JBool true) :: save :: rest
        /\ is_save save = true)
  /\ saves_follow GetRefreshToken RevokeRefreshToken (JStr "R1") (snd run2)
  /\ (fst (fst run3)
      = inl (OAuthError "invalid_grant" 400
               "Invalid grant: authorization code is invalid")
      /\ no_save (snd run3))
  /\ (fst (fst run4)
      = inl (OAuthError "invalid_grant" 400
               "Invalid grant: refresh token is invalid")
      /\ no_save (snd run4)).
Proof.
  intros code token redeem refresh ok ko run1 run2 run3 run4.
  destruct (@C6_revocation_precedes_save Demo.State Demo.rt) as [Hcode Hrefresh].
  split; [do 2 eexists; split; reflexivity|].
  split; [|split; [do 2 eexists; split; reflexivity|split; [|split]]].
  - apply (Hcode (Demo.grant ok) redeem Demo.c1 Demo.s0
             (fst (fst run1)) (snd (fst run1)) (snd run1)).
    reflexivity.
  - apply (Hrefresh (Demo.grant ok) refresh Demo.c1 Demo.s0
             (fst (fst run2)) (snd (fst run2)) (snd run2)); reflexivity.
  - apply (proj2 (Hcode (Demo.grant ko) redeem Demo.c1 Demo.s0
                    (fst (fst run3)) (snd (fst run3)) (snd run3) eq_refl)
             code (JBool false)).
    + vm_compute. right; left; reflexivity.
    + reflexivity.
  - apply (proj2 (Hrefresh (Demo.grant ko) refresh Demo.c1 Demo.s0
                    (fst (fst run4)) (snd (fst run4)) (snd run4) eq_refl eq_refl)
             token (JBool false)).
    + vm_compute. right; left; reflexivity.
    + reflexivity.
Defined.

(* ------------------------------------------------------------------ *)
(** ** Redemption of an authorization code: what is saved *)

Section Redeem.
Context {σ : Type} (rt : Runtime.t σ).

Lemma not_save_not_in (t : list Call) x y z w :
  forallb not_save t = true -> ~ In (SaveToken x y z w) t.
Proof.
  intros Hall Hin. rewrite forallb_forall in Hall.
  specialize (Hall _ Hin). discriminate Hall.
Qed.

Lemma validateScope_no_save (this : AbstractGrant.t σ) a b c :
  emits not_save (AbstractGrant.validateScope this a b c).
Proof. unfold AbstractGrant.validateScope. emits_tac. Qed.

Lemma generateAccessToken_no_save (this : AbstractGrant.t σ) a b c :
  emits not_save (AbstractGrant.generateAccessToken rt this a b c).
Proof. unfold AbstractGrant.generateAccessToken. emits_tac. Qed.

Lemma generateRefreshToken_no_save (this : AbstractGrant.t σ) a b c :
  emits not_save (AbstractGrant.generateRefreshToken rt this a b c).
Proof. unfold AbstractGrant.generateRefreshToken. emits_tac. Qed.

(** What [createToken(first, second)] hands to [saveToken]: its first
    parameter, and the [user] property of its second one. *)
Lemma createToken_saves (this : AbstractGrant.t σ) first second s r s' t :
  AuthorizationCodeGrant.createToken rt this first second s = (r, s', t) ->
  forall x y z w,
    In (SaveToken x y z w) t ->
    x = first /\ y = prop second "user"
    /\ (Model.validateScope (AbstractGrant.model this) = None ->
        prop z "scope" = prop second "scope").
Proof.
  unfold AuthorizationCodeGrant.createToken. intros H x y z w Hin.
  apply bind_cases in H as [(e & H & _) | (user & s1 & t1 & t2 & H1 & H & ->)].
  { rewrite (quiet_lift _ _ _ _ _ H) in Hin. destruct Hin. }
  rewrite (quiet_lift _ _ _ _ _ H1) in Hin. cbn [app] in Hin.
  assert (Huser : user = prop second "user").
  { unfold lift, get in H1. destruct (nullish second); [discriminate H1|].
    now injection H1 as <- _. }
  clear H1.
  apply bind_cases in H as [(e & H & _) | (scope & s2 & t3 & t4 & H1 & H & ->)].
  { rewrite (quiet_lift _ _ _ _ _ H) in Hin. destruct Hin. }
  rewrite (quiet_lift _ _ _ _ _ H1) in Hin. cbn [app] in Hin.
  assert (Hscope : scope = prop second "scope").
  { unfold lift, get in H1. destruct (nullish second); [discriminate H1|].
    now injection H1 as <- _. }
  clear H1.
  apply bind_cases in H as [(e & H & _) | (a1 & s3 & t5 & t6 & H1 & H & ->)].
  { exfalso. eapply not_save_not_in; [eapply validateScope_no_save, H | exact Hin]. }
  apply in_app_or in Hin as [Hin|Hin].
  { exfalso. eapply not_save_not_in; [eapply validateScope_no_save, H1 | exact Hin]. }
  assert (Ha1 : Model.validateScope (AbstractGrant.model this) = None -> a1 = scope).
  { intros Hnone. unfold AbstractGrant.validateScope in H1. rewrite Hnone in H1.
    now injection H1 as <- _ _. }
  clear H1.
  apply bind_cases in H as [(e & H & _) | (a2 & s4 & t7 & t8 & H1 & H & ->)].
  { exfalso. eapply not_save_not_in; [eapply generateAccessToken_no_save, H | exact Hin]. }
  apply in_app_or in Hin as [Hin|Hin].
  { exfalso. eapply not_save_not_in; [eapply generateAccessToken_no_save, H1 | exact Hin]. }
  clear H1.
  apply bind_cases in H as [(e & H & _) | (a3 & s5 & t9 & t10 & H1 & H & ->)].
  { exfalso. eapply not_save_not_in; [eapply generateRefreshToken_no_save, H | exact Hin]. }
  apply in_app_or in Hin as [Hin|Hin].
  { exfalso. eapply not_save_not_in; [eapply generateRefreshToken_no_save, H1 | exact Hin]. }
  clear H1.
  apply bind_cases in H as [(e & H & _) | (a4 & s6 & t11 & t12 & H1 & H & ->)].
  { discriminate H. }
  injection H1 as _ _ <-. cbn [app] in Hin.
  apply bind_cases in H as [(e & H & _) | (a5 & s7 & t13 & t14 & H1 & H & ->)].
  { discriminate H. }
  injection H1 as _ _ <-. cbn [app] in Hin.
  unfold await in H.
  destruct (Model.saveToken _ _ _ _ _) as [res s8].
  injection H as _ _ <-.
  destruct Hin as [Heq|[]]. injection Heq as <- <- <- _.
  repeat split; [exact Huser|].
  intros Hnone. rewrite <- Hscope, <- (Ha1 Hnone). reflexivity.
Qed.

(** C1.  The specification has the token of a redeemed authorization code
    saved by [saveToken(client, user, token)] with the authenticated client
    and the user of the code.  The redemption calls [createToken(code, client)] while
    [createToken] is declared with the client first: in every run, whatever
    [saveToken] receives as its first argument is the record that
    [getAuthorizationCode] returned, its second argument is the [user]
    property of the authenticated client, and (when the Model has no
    [validateScope]) the scope of the token is the [scope] property of the
    authenticated client, not the scope of the code. *)
Theorem C1_saveToken_receives_code_record
        (this : AbstractGrant.t σ) (request : Request.t) (client : JsVal)
        (s : σ) (r : JsError + JsVal) (s' : σ) (t : list Call) :
  AuthorizationCodeGrant.execute rt this request client s = (r, s', t) ->
  forall x y z w,
    In (SaveToken x y z w) t ->
    (exists c, In (GetAuthorizationCode c x) t)
    /\ y = prop client "user"
    /\ (Model.validateScope (AbstractGrant.model this) = None ->
        prop z "scope" = prop client "scope").
Proof.
  unfold AuthorizationCodeGrant.execute. rewrite try_catch_rethrow.
  intros H x y z w Hin.
  apply bind_cases in H as [(e & H & _) | (req & s1 & t1 & t2 & H1 & H & ->)].
  { rewrite (quiet_lift _ _ _ _ _ H) in Hin. destruct Hin. }
  rewrite (quiet_lift _ _ _ _ _ H1) in *. cbn [app] in *. clear H1.
  apply bind_cases in H as [(e & H & _) | (code & s2 & t1' & t2' & H1 & H & ->)].
  { apply validateAuthorizationCode_trace in H as [g [-> _]].
    destruct Hin as [Heq|[]]. discriminate Heq. }
  apply validateAuthorizationCode_trace in H1 as (g & -> & Hg).
  specialize (Hg code eq_refl). subst g. cbn [app] in *.
  destruct Hin as [Heq|Hin]; [discriminate Heq|].
  apply bind_cases in H as [(e & H & _) | ([] & s3 & t3 & t4 & H2 & H & ->)].
  { rewrite (quiet_lift _ _ _ _ _ H) in Hin. destruct Hin. }
  rewrite (quiet_lift _ _ _ _ _ H2) in *. cbn [app] in *. clear H2.
  apply bind_cases in H as [(e & H & _) | ([] & s4 & t5 & t6 & H3 & H & ->)].
  { rewrite deleteAuthorizationCode_run in H.
    destruct (Model.revokeAuthorizationCode _ _ _) as [st s6].
    injection H as _ _ <-. destruct Hin as [Heq|[]]. discriminate Heq. }
  rewrite deleteAuthorizationCode_run in H3.
  destruct (Model.revokeAuthorizationCode _ _ _) as [st s6].
  injection H3 as _ _ <-. cbn [app] in *.
  destruct Hin as [Heq|Hin]; [discriminate Heq|].
  assert (Hsave : exists s5 r5 s5' t5,
             AuthorizationCodeGrant.createToken rt this code client s5
             = (r5, s5', t5) /\ In (SaveToken x y z w) t5).
  { apply bind_cases in H as [(e & H & _) | (data & s5 & t7 & t8 & H4 & H & ->)].
    { eauto 8. }
    apply in_app_or in Hin as [Hin|Hin]; [eauto 8|].
    exfalso.
    apply bind_cases in H as [(e & H & _) | (tm & s7 & t9 & t10 & H5 & H & ->)].
    { rewrite (TokenModel_new_quiet rt _ _ _ _ _ _ H) in Hin. destruct Hin. }
    rewrite (TokenModel_new_quiet rt _ _ _ _ _ _ H5) in Hin.
    rewrite (quiet_lift _ _ _ _ _ H) in Hin. destruct Hin. }
  destruct Hsave as (s5 & r5 & s5' & t5 & Hct & Hin5).
  destruct (createToken_saves this code client _ _ _ _ Hct _ _ _ _ Hin5)
    as (-> & -> & Hsc).
  split; [|split; [reflexivity | exact Hsc]].
  eexists. left. reflexivity.
Qed.

End Redeem.

Lemma C1_saveToken_receives_code_record_witness :
  let code := Demo.codeRecord 2000 in
  let run := AuthorizationCodeGrant.execute Demo.rt
               (Demo.grant (Demo.answers code JUndefined JUndefined))
               (Demo.post [("code", JStr "abc");
                           ("redirect_uri", JStr "https://app/cb")])
               Demo.c1 Demo.s0 in
  let token := JObj [("accessToken", JStr "random0");
                     ("accessTokenExpiresAt", JDate 1801000);
                     ("refreshToken", JStr "random1");
                     ("refreshTokenExpiresAt", JDate 86401000);
                     ("scope", JUndefined)] in
  In (SaveToken code JUndefined token (Demo.save code JUndefined token)) (snd run)
  /\ (exists c, In (GetAuthorizationCode c code) (snd run))
  /\ JUndefined = prop Demo.c1 "user"
  /\ prop token "scope" = prop Demo.c1 "scope".
Proof.
  intros code run token.
  assert (Hin : In (SaveToken code JUndefined token
                      (Demo.save code JUndefined token)) (snd run))
    by (vm_compute; right; right; left; reflexivity).
  split; [exact Hin|].
  destruct (C1_saveToken_receives_code_record Demo.rt
           (Demo.grant (Demo.answers code JUndefined JUndefined))
           (Demo.post [("code", JStr "abc");
                       ("redirect_uri", JStr "https://app/cb")])
           Demo.c1 Demo.s0
           (fst (fst run)) (snd (fst run)) (snd run) eq_refl _ _ _ _ Hin)
    as (Hget & Huser & Hscope).
  split; [exact Hget|]. split; [exact Huser|]. apply Hscope. reflexivity.
Defined.

(** The redemption of a valid, unexpired code of client [c1] by [c1], on a
    Model whose [saveToken] completes the token with the client and the user
    it is given: the code is revoked, [saveToken] receives the code record
    as client, [undefined] as user and a token whose scope is [undefined],
    and the grant fails on the saved record, which has no user. *)
Lemma C1_redeem_evaluated :
  let code := Demo.codeRecord 2000 in
  let token := JObj [("accessToken", JStr "random0");
                     ("accessTokenExpiresAt", JDate 1801000);
                     ("refreshToken", JStr "random1");
                     ("refreshTokenExpiresAt", JDate 86401000);
                     ("scope", JUndefined)] in
  AuthorizationCodeGrant.execute Demo.rt
    (Demo.grant (Demo.answers code JUndefined JUndefined))
    (Demo.post [("code", JStr "abc"); ("redirect_uri", JStr "https://app/cb")])
    Demo.c1 Demo.s0
  = (inl (OAuthError "invalid_argument" 500 "Missing parameter: `user`"),
     (1000, 2),
     [GetAuthorizationCode (JStr "abc") code;
      RevokeAuthorizationCode code (JBool true);
      SaveToken code JUndefined token (Demo.save code JUndefined token)]).
Proof. vm_compute. reflexivity. Qed.

(** The implicit grant hands its arguments to the Model in yet another
    order: [saveToken(token, client, user)]. *)
Lemma ImplicitGrant_saveToken_evaluated :
  let grant := {| ImplicitGrant.model :=
                    Demo.model (Demo.answers JUndefined JUndefined JUndefined);
                  ImplicitGrant.user := Demo.alice;
                  ImplicitGrant.scope := JStr "read";
                  ImplicitGrant.accessTokenLifetime := 1800;
                  ImplicitGrant.allowExtendedTokenAttributes := JUndefined |} in
  let token := JObj [("accessToken", JStr "random0");
                     ("accessTokenExpiresAt", JDate 1801000);
                     ("scope", JStr "read")] in
  snd (ImplicitGrant.createAccessToken Demo.rt grant Demo.c1 Demo.s0)
  = [SaveToken token Demo.c1 Demo.alice (Demo.save token Demo.c1 Demo.alice)].
Proof. vm_compute. reflexivity. Qed.

(* ================================================================== *)
(** * Further properties *)
(* ================================================================== *)

(* ------------------------------------------------------------------ *)
(** ** The validators *)

Lemma class_incl_all_in cls1 cls2 s :
  (forall c, Is.class_matches cls1 c = true -> Is.class_matches cls2 c = true) ->
  Is.all_in cls1 s = true -> Is.all_in cls2 s = true.
Proof.
  intros Hc. induction s as [|c r IH]; cbn; [reflexivity|].
  rewrite !andb_true_iff. intros [H1 H2]. split; [apply Hc, H1 | apply IH, H2].
Qed.

Lemma whole_plus_incl cls1 cls2 value :
  (forall c, Is.class_matches cls1 c = true -> Is.class_matches cls2 c = true) ->
  Is.test (Is.WholePlus cls1) value = true ->
  Is.test (Is.WholePlus cls2) value = true.
Proof.
  intros Hc. unfold Is.test. destruct (toStr value) as [s|]; [|discriminate].
  cbn. destruct s as [|c r]; [discriminate|].
  apply class_incl_all_in, Hc.
Qed.

Ltac all_chars c :=
  destruct c as [[] [] [] [] [] [] [] []]; vm_compute; try reflexivity; try discriminate.

Lemma NCHAR_in_NQCHAR c :
  Is.class_matches [Is.Chr "-"; Is.Chr "|"; Is.Chr "."; Is.Chr "|"; Is.Chr "_";
                    Is.Chr "|"; Is.WordChar] c = true ->
  Is.class_matches [Is.Chr "!"; Is.Chr "|"; Is.Range "#" "["; Is.Chr "|";
                    Is.Range "]" "~"] c = true.
Proof. all_chars c. Qed.

Lemma NQCHAR_in_NQSCHAR c :
  Is.class_matches [Is.Chr "!"; Is.Chr "|"; Is.Range "#" "["; Is.Chr "|";
                    Is.Range "]" "~"] c = true ->
  Is.class_matches [Is.Range " " "!"; Is.Chr "|"; Is.Range "#" "["; Is.Chr "|";
                    Is.Range "]" "~"] c = true.
Proof. all_chars c. Qed.

Lemma NQSCHAR_in_VSCHAR c :
  Is.class_matches [Is.Range " " "!"; Is.Chr "|"; Is.Range "#" "["; Is.Chr "|";
                    Is.Range "]" "~"] c = true ->
  Is.class_matches [Is.Range " " "~"] c = true.
Proof. all_chars c. Qed.

Lemma VSCHAR_unit c :
  Is.class_matches [Is.Range " " "~"] c = true ->
  (Is.byte c <? 0x80) = true
  /\ Is.unit_class_matches Is.Rules.UNICODECHARNOCRLF (Is.byte c) = true.
Proof. all_chars c; split; reflexivity. Qed.

Lemma VSCHAR_units s :
  Is.all_in [Is.Range " " "~"] s = true ->
  forallb (Is.unit_class_matches Is.Rules.UNICODECHARNOCRLF) (Is.units s) = true.
Proof.
  induction s as [|c r IH]; [reflexivity|].
  cbn [Is.all_in]. rewrite andb_true_iff. intros [Hc Hr].
  destruct (VSCHAR_unit c Hc) as [Hlt Hin].
  cbn [Is.units]. cbv zeta. rewrite Hlt. cbn [forallb]. now rewrite Hin, (IH Hr).
Qed.

(** X1.  The validators are nested: a value accepted by [nchar] is accepted
    by [nqchar], one accepted by [nqchar] by [nqschar], one accepted by
    [nqschar] by [vschar], and one accepted by [vschar] by [uchar]. *)
Theorem X1_validators_nested (value : JsVal) :
  (Is.nchar value = true -> Is.nqchar value = true)
  /\ (Is.nqchar value = true -> Is.nqschar value = true)
  /\ (Is.nqschar value = true -> Is.vschar value = true)
  /\ (Is.vschar value = true -> Is.uchar value = true).
Proof.
  repeat split.
  - apply whole_plus_incl, NCHAR_in_NQCHAR.
  - apply whole_plus_incl, NQCHAR_in_NQSCHAR.
  - apply whole_plus_incl, NQSCHAR_in_VSCHAR.
  - unfold Is.vschar, Is.uchar, Is.test.
    destruct (toStr value) as [s|]; [|discriminate].
    cbn [Is.matches Is.Rules.VSCHAR]. destruct s as [|c r]; [discriminate|].
    intros H. pose proof (VSCHAR_units _ H) as Hu.
    cbn [Is.all_in] in H. apply andb_true_iff in H as [Hc _].
    destruct (VSCHAR_unit c Hc) as [Hlt _].
    unfold Is.whole_plus_units. cbn [Is.units] in *. cbv zeta in *.
    rewrite Hlt in *. exact Hu.
Qed.

Lemma X1_validators_nested_witness :
  Is.nchar (JStr "read") = true
  /\ Is.nqchar (JStr "read") = true
  /\ Is.nqschar (JStr "read") = true
  /\ Is.vschar (JStr "read") = true
  /\ Is.uchar (JStr "read") = true.
Proof.
  pose proof (X1_validators_nested (JStr "read")) as (H1 & H2 & H3 & H4).
  assert (Hn : Is.nchar (JStr "read") = true) by reflexivity.
  split; [exact Hn|].
  split; [exact (H1 Hn)|].
  split; [exact (H2 (H1 Hn))|].
  split; [exact (H3 (H2 (H1 Hn)))|].
  exact (H4 (H3 (H2 (H1 Hn)))).
Defined.

Lemma plus_then_colon_app rest seen s t :
  Is.plus_then_colon rest seen s = true ->
  Is.plus_then_colon rest seen (s ++ t) = true.
Proof.
  revert seen. induction s as [|c r IH]; intros seen; cbn; [discriminate|].
  destruct (Is.class_matches rest c); [apply IH | auto].
Qed.

(** X2.  [uri] only looks at the scheme: a value accepted stays accepted
    whatever is appended to it; the scheme must have two characters at
    least. *)
Theorem X2_uri_checks_scheme_only :
  (forall s t, Is.uri (JStr s) = true -> Is.uri (JStr (s ++ t)) = true)
  /\ (forall c t, Is.uri (JStr (String c (String ":" t))) = false).
Proof.
  split.
  - intros s t. unfold Is.uri, Is.test. cbn [toStr Is.matches Is.Rules.URI].
    destruct s as [|c r]; [discriminate|]. cbn [append].
    rewrite !andb_true_iff. intros [H1 H2]. split; [exact H1|].
    apply plus_then_colon_app, H2.
  - intros c t. unfold Is.uri, Is.test. cbn. apply andb_false_r.
Qed.

Lemma X2_uri_checks_scheme_only_witness :
  Is.uri (JStr "https:") = true
  /\ Is.uri (JStr ("https:" ++ "//app/cb?x=1 y")) = true.
Proof.
  split; [reflexivity|].
  apply (proj1 X2_uri_checks_scheme_only "https:" "//app/cb?x=1 y").
  reflexivity.
Defined.






(* ------------------------------------------------------------------ *)
(** ** Token model and bearer token *)

Ltac split_match H :=
  repeat match type of H with
         | context [match ?x with _ => _ end] =>
             let E := fresh "E" in destruct x eqn:E; try discriminate H
         | context [if ?c then _ else _] =>
             let E := fresh "E" in destruct c eqn:E; try discriminate H
         end.

Lemma TokenModel_new_inv {σ} (rt : Runtime.t σ) data allow s tm s' t :
  TokenModel.new rt data allow s = (inr tm, s', t) ->
  let data' := match data with JUndefined => JObj [] | _ => data end in
  s' = s /\ t = []
  /\ truthy (prop data' "accessToken") = true
  /\ truthy (prop data' "client") = true
  /\ truthy (prop data' "user") = true
  /\ date_or_falsy (prop data' "accessTokenExpiresAt") = true
  /\ date_or_falsy (prop data' "refreshTokenExpiresAt") = true
  /\ tm = {| TokenModel.accessToken := prop data' "accessToken";
             TokenModel.accessTokenExpiresAt := prop data' "accessTokenExpiresAt";
             TokenModel.refreshToken := prop data' "refreshToken";
             TokenModel.refreshTokenExpiresAt := prop data' "refreshTokenExpiresAt";
             TokenModel.scope := prop data' "scope";
             TokenModel.client := prop data' "client";
             TokenModel.user := prop data' "user";
             TokenModel.customAttributes :=
               if truthy allow
               then JObj (filter
                            (fun kv => negb (existsb (String.eqb (fst kv))
                                               TokenModel.modelAttributes))
                            (TokenModel.own_props data'))
               else JUndefined;
             TokenModel.accessTokenLifetime :=
               match prop data' "accessTokenExpiresAt" with
               | JDate e => JNum ((e - Runtime.now rt s) / 1000)
               | _ => JUndefined
               end |}.
Proof.
  intros H data'. unfold TokenModel.new in H. fold data' in H.
  unfold get in H.
  destruct (nullish data') eqn:Hn; [discriminate H|].
  cbv beta iota zeta delta [bind lift ret throw throw_if Date_now js_not] in H.
  unfold date_or_falsy.
  destruct (truthy (prop data' "accessToken")) eqn:E1; [|discriminate H].
  destruct (truthy (prop data' "client")) eqn:E2; [|discriminate H].
  destruct (truthy (prop data' "user")) eqn:E3; [|discriminate H].
  cbn [negb] in H.
  destruct (truthy (prop data' "accessTokenExpiresAt")) eqn:E4;
    destruct (instanceofDate (prop data' "accessTokenExpiresAt")) eqn:E5;
    cbn [negb andb] in H; try discriminate H;
    destruct (truthy (prop data' "refreshTokenExpiresAt")) eqn:E6;
    destruct (instanceofDate (prop data' "refreshTokenExpiresAt")) eqn:E7;
    cbn [negb andb] in H; try discriminate H;
    destruct (prop data' "accessTokenExpiresAt") eqn:E8; try discriminate E5;
    cbn [app] in H; injection H as <- <- <-; repeat split; reflexivity.
Qed.

Lemma spread_other k (l o : list (string * JsVal)) :
  ~ In k (map fst l) ->
  assoc k (fold_left (fun o kv => assoc_set (fst kv) (snd kv) o) l o) = assoc k o.
Proof.
  revert o. induction l as [|[k0 v0] l IH]; intros o Hn; cbn; [reflexivity|].
  cbn in Hn. rewrite IH by tauto. apply assoc_set_other. intros ->. tauto.
Qed.

Lemma spread_last k v (l o : list (string * JsVal)) :
  NoDup (map fst l) -> In (k, v) l ->
  assoc k (fold_left (fun o kv => assoc_set (fst kv) (snd kv) o) l o) = Some v.
Proof.
  revert o. induction l as [|[k0 v0] l IH]; intros o Hd Hin; cbn; [destruct Hin|].
  cbn in Hd. apply NoDup_cons_iff in Hd as [Hk0 Hd].
  destruct Hin as [E | Hin].
  - injection E as -> ->. rewrite spread_other by exact Hk0. apply assoc_set_same.
  - apply IH; assumption.
Qed.

Lemma In_filter_keys (f : string * JsVal -> bool) k l :
  In k (map fst (filter f l)) -> exists v, In (k, v) l /\ f (k, v) = true.
Proof.
  rewrite in_map_iff. intros [[k0 v] [E H]]. cbn in E. subst k0.
  apply filter_In in H. eauto.
Qed.

Lemma custom_keys {σ} (rt : Runtime.t σ) data allow s tm s' t k :
  TokenModel.new rt data allow s = (inr tm, s', t) ->
  In k (keys (TokenModel.customAttributes tm)) ->
  existsb (String.eqb k) TokenModel.modelAttributes = false.
Proof.
  intros H. apply TokenModel_new_inv in H as (_ & _ & _ & _ & _ & _ & _ & ->).
  cbn [TokenModel.customAttributes]. unfold keys.
  destruct (truthy allow); cbn [TokenModel.own_props map]; [|intros []].
  intros Hin. apply In_filter_keys in Hin as (v & _ & Hf). cbn [fst] in Hf.
  now apply negb_true_iff in Hf.
Qed.

(** X4.  A token model that could be built leaves the host untouched and
    holds a truthy access token, client and user; its expiry fields are
    falsy or Dates; its lifetime is the whole number of seconds from now to
    the expiry of the access token (rounded down), and is undefined without
    an expiry; custom attributes are collected only on request, and never
    under the name of a model attribute. *)
Theorem X4_TokenModel_invariants
        {σ : Type} (rt : Runtime.t σ) (data allow : JsVal) (s s' : σ)
        (tm : TokenModel.t) (t : list Call) :
  TokenModel.new rt data allow s = (inr tm, s', t) ->
  s' = s /\ t = []
  /\ truthy (TokenModel.accessToken tm) = true
  /\ truthy (TokenModel.client tm) = true
  /\ truthy (TokenModel.user tm) = true
  /\ date_or_falsy (TokenModel.accessTokenExpiresAt tm) = true
  /\ date_or_falsy (TokenModel.refreshTokenExpiresAt tm) = true
  /\ TokenModel.accessTokenLifetime tm
     = match TokenModel.accessTokenExpiresAt tm with
       | JDate e => JNum ((e - Runtime.now rt s) / 1000)
       | _ => JUndefined
       end
  /\ (truthy allow = false -> TokenModel.customAttributes tm = JUndefined)
  /\ (forall k, In k (keys (TokenModel.customAttributes tm)) ->
                ~ In k TokenModel.modelAttributes).
Proof.
  intros H. pose proof (fun k => custom_keys rt data allow s tm s' t k H) as Hk.
  apply TokenModel_new_inv in H as (-> & -> & H1 & H2 & H3 & H4 & H5 & ->).
  cbn [TokenModel.accessToken TokenModel.client TokenModel.user
       TokenModel.accessTokenExpiresAt TokenModel.refreshTokenExpiresAt
       TokenModel.accessTokenLifetime TokenModel.customAttributes] in *.
  repeat (split; [first [reflexivity | assumption]|]).
  split; [intros ->; reflexivity|].
  intros k Hin Hm. specialize (Hk k Hin).
  assert (existsb (String.eqb k) TokenModel.modelAttributes = true) as E.
  { apply existsb_exists. exists k. split; [exact Hm | apply String.eqb_refl]. }
  congruence.
Qed.

Lemma X4_TokenModel_invariants_witness :
  exists tm,
    TokenModel.new Demo.rt (Demo.tokenRecord Demo.c1 [("accessTokenExpiresAt", JDate 4500)])
      (JBool false) Demo.s0 = (inr tm, Demo.s0, [])
    /\ TokenModel.accessTokenLifetime tm = JNum 3
    /\ TokenModel.customAttributes tm = JUndefined.
Proof.
  eexists. split; [reflexivity|].
  pose proof (X4_TokenModel_invariants Demo.rt
                (Demo.tokenRecord Demo.c1 [("accessTokenExpiresAt", JDate 4500)])
                (JBool false) Demo.s0 Demo.s0 _ [] eq_refl)
    as (_ & _ & _ & _ & _ & _ & _ & HL & HC & _).
  split; [exact HL | exact (HC eq_refl)].
Defined.

Lemma bearer_base_keys accessToken lifetime refreshToken scope k :
  ~ In k ["access_token"; "token_type"; "expires_in"; "refresh_token"; "scope"] ->
  assoc k
    (let o0 := [("access_token", accessToken); ("token_type", JStr "Bearer")] in
     let o1 := if truthy lifetime then assoc_set "expires_in" lifetime o0 else o0 in
     let o2 := if truthy refreshToken
               then assoc_set "refresh_token" refreshToken o1 else o1 in
     if truthy scope then assoc_set "scope" scope o2 else o2) = None.
Proof.
  intros Hk. cbv zeta.
  repeat match goal with
         | |- context [if ?c then _ else _] => destruct c
         end;
    repeat (rewrite assoc_set_other by (intros ->; apply Hk; cbn; tauto));
    cbn [assoc];
    repeat match goal with
           | |- context [(?a =? k)%string] =>
               let E := fresh in
               destruct (a =? k)%string eqn:E;
               [apply String.eqb_eq in E; subst k; exfalso; apply Hk; cbn; tauto|]
           end; reflexivity.
Qed.

(** X5.  The bearer token built from a token model never carries the
    records of the model: whatever the data and the options, it has no
    [accessToken], [accessTokenExpiresAt], [refreshToken],
    [refreshTokenExpiresAt], [client] or [user] entry; without extended
    attributes its [access_token] is the access token of the model and its
    [token_type] is [Bearer]. *)
Theorem X5_bearer_hides_model_attributes
        {σ : Type} (rt : Runtime.t σ) (data allow : JsVal) (s s' : σ)
        (tm : TokenModel.t) (t : list Call) :
  TokenModel.new rt data allow s = (inr tm, s', t) ->
  exists props,
    BearerToken.of_model tm = inr (JObj props)
    /\ (forall k, In k TokenModel.modelAttributes -> k <> "scope" ->
                  assoc k props = None)
    /\ (truthy allow = false ->
        assoc "access_token" props = Some (TokenModel.accessToken tm)
        /\ assoc "token_type" props = Some (JStr "Bearer")).
Proof.
  intros H.
  pose proof (Hkeys := fun k => custom_keys rt data allow s tm s' t k H).
  pose proof (TokenModel_new_inv rt data allow s tm s' t H)
    as (_ & _ & H1 & _ & _ & _ & _ & Htm).
  unfold BearerToken.of_model, BearerToken.valueOf, js_not.
  replace (truthy (TokenModel.accessToken tm)) with true
    by (rewrite Htm; cbn; now rewrite H1).
  cbn [negb]. eexists. split; [reflexivity|]. split.
  - intros k Hin Hns. rewrite spread_other.
    + apply bearer_base_keys. cbn in Hin |- *.
      intros [E|[E|[E|[E|[E|[]]]]]]; subst k;
        repeat (destruct Hin as [Hin|Hin]; [discriminate Hin|]);
        try (destruct Hin); congruence.
    + intros Hc. specialize (Hkeys k Hc).
      assert (existsb (String.eqb k) TokenModel.modelAttributes = true) as E.
      { apply existsb_exists. exists k. split; [exact Hin | apply String.eqb_refl]. }
      congruence.
  - intros Hallow.
    assert (TokenModel.customAttributes tm = JUndefined) as ->.
    { rewrite Htm. cbn. now rewrite Hallow. }
    cbn [TokenModel.own_props fold_left].
    repeat match goal with
           | |- context [if ?c then _ else _] => destruct c
           end;
      repeat (rewrite assoc_set_other by discriminate); cbn; split; reflexivity.
Qed.

Lemma X5_bearer_hides_model_attributes_witness :
  let data := Demo.tokenRecord Demo.c1
                [("accessTokenExpiresAt", JDate 4500); ("tenant", JStr "t1")] in
  exists tm props,
    TokenModel.new Demo.rt data (JBool true) Demo.s0 = (inr tm, Demo.s0, [])
    /\ BearerToken.of_model tm = inr (JObj props)
    /\ assoc "tenant" props = Some (JStr "t1")
    /\ assoc "client" props = None
    /\ assoc "user" props = None.
Proof.
  intros data. eexists.
  destruct (X5_bearer_hides_model_attributes Demo.rt data (JBool true)
              Demo.s0 Demo.s0 _ [] eq_refl) as (props & Hv & Hk & _).
  exists props. split; [reflexivity|]. split; [exact Hv|].
  split; [injection Hv as <-; reflexivity|].
  split; apply Hk; cbn; intuition discriminate.
Defined.

(** X6.  The value of a bearer token: the access token is required; the
    entries are [access_token] and [token_type], then [expires_in],
    [refresh_token] and [scope] for those that are truthy (a lifetime of
    zero seconds is left out); every custom attribute is written last, over
    a standard entry of the same name. *)
Theorem X6_bearer_value
        (accessToken lifetime refreshToken scope : JsVal)
        (custom : list (string * JsVal)) :
  (truthy accessToken = false ->
   forall c, BearerToken.valueOf accessToken lifetime refreshToken scope c
             = inl (OAuthError "invalid_argument" 500
                      "Missing parameter: `accessToken`"))
  /\ (truthy accessToken = true ->
      BearerToken.valueOf accessToken lifetime refreshToken scope JUndefined
      = inr (JObj ([("access_token", accessToken); ("token_type", JStr "Bearer")]
                     ++ (if truthy lifetime then [("expires_in", lifetime)] else [])
                     ++ (if truthy refreshToken
                         then [("refresh_token", refreshToken)] else [])
                     ++ (if truthy scope then [("scope", scope)] else []))))
  /\ (truthy accessToken = true -> NoDup (map fst custom) ->
      exists props,
        BearerToken.valueOf accessToken lifetime refreshToken scope (JObj custom)
        = inr (JObj props)
        /\ forall k v, In (k, v) custom -> assoc k props = Some v).
Proof.
  unfold BearerToken.valueOf, js_not. repeat split.
  - intros -> c. reflexivity.
  - intros ->. cbn [negb TokenModel.own_props fold_left].
    destruct (truthy lifetime), (truthy refreshToken), (truthy scope); reflexivity.
  - intros -> Hd. cbn [negb TokenModel.own_props]. eexists. split; [reflexivity|].
    intros k v Hin. apply spread_last; assumption.
Qed.

Lemma X6_bearer_value_witness :
  BearerToken.valueOf (JStr "") (JNum 3) JUndefined JUndefined JUndefined
  = inl (OAuthError "invalid_argument" 500 "Missing parameter: `accessToken`")
  /\ BearerToken.valueOf (JStr "A1") (JNum 0) JUndefined (JStr "read") JUndefined
     = inr (JObj [("access_token", JStr "A1"); ("token_type", JStr "Bearer");
                  ("scope", JStr "read")])
  /\ exists props,
       BearerToken.valueOf (JStr "A1") (JNum 0) JUndefined (JStr "read")
         (JObj [("token_type", JStr "mac")]) = inr (JObj props)
       /\ assoc "token_type" props = Some (JStr "mac").
Proof.
  destruct (X6_bearer_value (JStr "") (JNum 3) JUndefined JUndefined []) as (H1 & _ & _).
  destruct (X6_bearer_value (JStr "A1") (JNum 0) JUndefined (JStr "read")
              [("token_type", JStr "mac")]) as (_ & H2 & H3).
  split; [exact (H1 eq_refl JUndefined)|].
  split; [exact (H2 eq_refl)|].
  destruct (H3 eq_refl) as (props & Hv & Hk).
  { repeat constructor. intros []. }
  exists props. split; [exact Hv|]. apply Hk. left. reflexivity.
Defined.

(* ------------------------------------------------------------------ *)
(** ** What a computation hands to the Model *)

Lemma always_quiet {σ A} P (m : M σ A) : quiet m -> always P m.
Proof. intros H s r s' t Hm. rewrite (H _ _ _ _ Hm). constructor. Qed.

Lemma always_bind {σ A B} P (Q : A -> Prop) (m : M σ A) (f : A -> M σ B) :
  returns Q m -> always P m -> (forall a, Q a -> always P (f a)) ->
  always P (bind m f).
Proof.
  intros HQ Hm Hf s r s' t H.
  apply bind_cases in H as [(e & H & _) | (a & s1 & t1 & t2 & H1 & H2 & ->)].
  - eapply Hm, H.
  - apply Forall_app. split; [eapply Hm, H1|].
    eapply Hf; [eapply HQ, H1 | exact H2].
Qed.

Lemma always_await {σ} (P : Call -> Prop) (f : σ -> JsVal * σ) ev :
  (forall g, P (ev g)) -> always P (await f ev).
Proof.
  intros Hev s r s' t. unfold await. destruct (f s) as [g s1].
  intros H. injection H as <- <- <-. repeat constructor. apply Hev.
Qed.


Lemma returns_any {σ A} (m : M σ A) : returns (fun _ => True) m.
Proof. intros s a s' t _. exact I. Qed.

Lemma returns_get {σ} v p : returns (fun a => a = prop v p) (@lift σ _ (get v p)).
Proof.
  intros s a s' t. unfold lift, get. destruct (nullish v); [discriminate|].
  intros H. now injection H as <- _ _.
Qed.

Lemma quiet_awaitUser {σ} (f : σ -> JsVal * σ) : quiet (awaitUser f).
Proof.
  intros s r s' t. unfold awaitUser. destruct (f s). intros H. now injection H as <- <- <-.
Qed.

Lemma quiet_TokenModel_new {σ} (rt : Runtime.t σ) data allow :
  quiet (TokenModel.new rt data allow).
Proof.
  unfold TokenModel.new. quiet_tac.
  destruct (prop _ "accessTokenExpiresAt"); quiet_tac.
Qed.

(** Steps that make no Model call, then binds whose first step needs no
    knowledge of its result. *)
Ltac always_step :=
  first
    [ apply always_await; intros; cbn; solve [auto]
    | apply always_quiet;
      solve [ quiet_tac | apply quiet_TokenModel_new | apply quiet_awaitUser ]
    | eapply always_bind; [apply returns_any | | intros ? _]
    | match goal with
      | |- always _ (if ?c then _ else _) => destruct c
      | |- always _ (match ?o with Some _ => _ | None => _ end) => destruct o
      end ].

Ltac always_tac := repeat always_step.

Section Issuing.
Context {σ : Type} (rt : Runtime.t σ).

Lemma always_validateScope P (this : AbstractGrant.t σ) a b c :
  (forall g, P (ValidateScope a b c g)) ->
  always P (AbstractGrant.validateScope this a b c).
Proof. intros HP. unfold AbstractGrant.validateScope. always_tac. Qed.

Lemma always_generateAccessToken P (this : AbstractGrant.t σ) a b c :
  (forall g, P (GenerateAccessToken a b c g)) ->
  always P (AbstractGrant.generateAccessToken rt this a b c).
Proof. intros HP. unfold AbstractGrant.generateAccessToken. always_tac. Qed.

Lemma always_generateRefreshToken P (this : AbstractGrant.t σ) a b c :
  (forall g, P (GenerateRefreshToken a b c g)) ->
  always P (AbstractGrant.generateRefreshToken rt this a b c).
Proof. intros HP. unfold AbstractGrant.generateRefreshToken. always_tac. Qed.


Lemma returns_setRefreshTokenExpiresAt (this : AbstractGrant.t σ) :
  returns (fun d => exists n, d = JDate (n + AbstractGrant.refreshTokenLifetime this * 1000))
    (AbstractGrant.setRefreshTokenExpiresAt rt this).
Proof. intros s a s' t H. injection H as <- _ _. eauto. Qed.

Lemma quiet_setAccessTokenExpiresAt (this : AbstractGrant.t σ) :
  quiet (AbstractGrant.setAccessTokenExpiresAt rt this).
Proof. unfold AbstractGrant.setAccessTokenExpiresAt. quiet_tac. Qed.

Lemma quiet_setRefreshTokenExpiresAt (this : AbstractGrant.t σ) :
  quiet (AbstractGrant.setRefreshTokenExpiresAt rt this).
Proof. unfold AbstractGrant.setRefreshTokenExpiresAt. quiet_tac. Qed.

Lemma In_saves P t a1 a2 a3 res :
  Forall (saves P) t -> In (SaveToken a1 a2 a3 res) t -> P a1 a2 a3.
Proof. intros H Hin. rewrite Forall_forall in H. exact (H _ Hin). Qed.

(** What the refresh-token grant hands to [saveToken]. *)
Lemma RTG_createToken_saves (this : AbstractGrant.t σ) client user scope :
  always
    (fun c => is_revocation c = false
              /\ saves (fun a1 a2 a3 =>
                          a1 = client /\ a2 = user /\ prop a3 "scope" = scope
                          /\ if strict_eq (AbstractGrant.alwaysIssueNewRefreshToken this)
                                          (JBool false)
                             then prop a3 "refreshToken" = JUndefined
                                  /\ prop a3 "refreshTokenExpiresAt" = JUndefined
                             else exists e, prop a3 "refreshTokenExpiresAt" = JDate e) c)
    (RefreshTokenGrant.createToken rt this client user scope).
Proof.
  unfold RefreshTokenGrant.createToken.
  eapply always_bind;
    [apply returns_any | apply always_generateAccessToken; cbn; auto | intros accessToken _].
  eapply always_bind;
    [apply returns_any | apply always_generateRefreshToken; cbn; auto | intros refreshToken _].
  eapply always_bind;
    [apply returns_any | apply always_quiet, quiet_setAccessTokenExpiresAt | intros e1 _].
  eapply always_bind;
    [apply returns_setRefreshTokenExpiresAt
    | apply always_quiet, quiet_setRefreshTokenExpiresAt | intros e2 [n ->]].
  apply always_await. intros g. split; [reflexivity|]. cbn [saves].
  destruct (strict_eq _ _); cbn; repeat split; eauto.
Qed.


End Issuing.

Section Exchanges.
Context {σ : Type} (rt : Runtime.t σ).

(** X8.  A refresh-token exchange hands to [saveToken] the authenticated
    client, the user of the stored refresh token and a token whose scope is
    the scope of the stored one: the scope sent with the request is checked
    for its characters and not used. *)
Theorem X8_refresh_carries_user_and_scope
        (this : AbstractGrant.t σ) (request : Request.t) (client : JsVal)
        (s : σ) (r : JsError + JsVal) (s' : σ) (t : list Call) :
  RefreshTokenGrant.execute rt this request client s = (r, s', t) ->
  forall a1 a2 a3 res,
    In (SaveToken a1 a2 a3 res) t ->
    exists tok,
      In (GetRefreshToken (field (Request.body request) "refresh_token") tok) t
      /\ a1 = client /\ a2 = prop tok "user"
      /\ prop a3 "scope" = prop tok "scope".
Proof.
  unfold RefreshTokenGrant.execute. rewrite try_catch_rethrow.
  intros H a1 a2 a3 res Hin.
  apply bind_cases in H as [(e & H & _) | (req & s1 & t1 & t2 & H1 & H & ->)].
  { rewrite (quiet_lift _ _ _ _ _ H) in Hin. destruct Hin. }
  apply lift_inr in H1 as (Hreq & -> & ->). cbn [app] in *.
  apply RTG_request_token in Hreq.
  apply bind_cases in H as [(e & H & _) | (tok & s2 & t3 & t4 & H1 & H & ->)].
  { apply validateRefreshToken_trace in H as [g [-> _]].
    destruct Hin as [Heq|[]]. discriminate Heq. }
  apply validateRefreshToken_trace in H1 as (g & -> & Hg).
  specialize (Hg tok eq_refl). subst g. rewrite Hreq in *. cbn [app] in *.
  destruct Hin as [Heq|Hin]; [discriminate Heq|].
  exists tok. split; [left; reflexivity|].
  revert H Hin. generalize s2 r s' t4.
  match goal with
  | |- forall s0 r0 s0' t0, ?m s0 = _ -> _ =>
      assert (Hall : always
                (saves (fun a1 a2 a3 =>
                          a1 = client /\ a2 = prop tok "user"
                          /\ prop a3 "scope" = prop tok "scope")) m)
  end.
  { eapply always_bind; [apply returns_any | | intros _ _].
    { unfold RefreshTokenGrant.deleteRefreshToken. always_tac. }
    eapply always_bind; [apply returns_get | always_tac | intros user ->].
    eapply always_bind; [apply returns_get | always_tac | intros scope ->].
    eapply always_bind; [apply returns_any | | intros data _]; [|always_tac].
    intros s0 r0 s0' t0 H0.
    eapply Forall_impl; [|eapply RTG_createToken_saves, H0].
    intros c [_ Hs]. destruct c; cbn [saves] in *; try exact I. tauto. }
  intros s0 r0 s0' t0 H0 Hin.
  exact (In_saves _ _ _ _ _ _ (Hall _ _ _ _ H0) Hin).
Qed.

Lemma validateAuthorizationCode_inv (this : AbstractGrant.t σ) req client s code s' t :
  AuthorizationCodeGrant.validateAuthorizationCode rt this req client s
  = (inr code, s', t) ->
  t = [GetAuthorizationCode (AuthorizationCodeGrant.AccessTokenRequest.code req) code]
  /\ truthy code = true
  /\ issued_to code client = true
  /\ exists e, prop code "expiresAt" = JDate e /\ Runtime.now rt s <= e.
Proof.
  intros H.
  destruct (validateAuthorizationCode_trace rt _ _ _ _ _ _ _ H) as (g & -> & Hg).
  specialize (Hg code eq_refl). subst g. split; [reflexivity|].
  unfold AuthorizationCodeGrant.validateAuthorizationCode in H.
  cbv beta iota zeta delta [bind lift ret throw throw_if Date_now js_not await get] in H.
  destruct (Model.getAuthorizationCode _ _ s) as [g s1].
  unfold issued_to.
  destruct (truthy g) eqn:E1; cbn [negb] in H; [|discriminate H].
  rewrite (truthy_not_nullish _ E1) in H.
  destruct (truthy (prop g "client")) eqn:E2; cbn [negb] in H; [|discriminate H].
  destruct (truthy (prop g "user")) eqn:E3; cbn [negb] in H; [|discriminate H].
  rewrite (truthy_not_nullish _ E2) in H.
  destruct (nullish client) eqn:E4; [discriminate H|].
  destruct (strict_eq (prop (prop g "client") "id") (prop client "id")) eqn:E5;
    cbn [negb] in H; [|discriminate H].
  destruct (prop g "expiresAt") eqn:E6; cbn [instanceofDate negb getTime] in H;
    try discriminate H.
  destruct (t <? Runtime.now rt s) eqn:E7; [discriminate H|].
  destruct (truthy (prop g "redirectUri") && negb (Is.uri (prop g "redirectUri")));
    [discriminate H|].
  injection H as <- _. rewrite E1, E5, E6. repeat split.
  exists t. split; [reflexivity|]. apply Z.ltb_ge, E7.
Qed.

(** X9.  A token is issued for an authorization code only when the code
    record is known, was issued to the authenticated client and has not
    expired, when the redirect URI it is bound to (if any) is the one of the
    request, and after the Model has confirmed its revocation. *)
Theorem X9_code_redemption_sound
        (this : AbstractGrant.t σ) (request : Request.t) (client : JsVal)
        (s : σ) (v : JsVal) (s' : σ) (t : list Call) :
  AuthorizationCodeGrant.execute rt this request client s = (inr v, s', t) ->
  exists code st t',
    t = GetAuthorizationCode (field (Request.body request) "code") code
          :: RevokeAuthorizationCode code st :: t'
    /\ truthy code = true
    /\ issued_to code client = true
    /\ (exists e, prop code "expiresAt" = JDate e /\ Runtime.now rt s <= e)
    /\ (truthy (prop code "redirectUri") = true ->
        strict_eq (requested_redirect_uri request) (prop code "redirectUri") = true)
    /\ truthy st = true.
Proof.
  unfold AuthorizationCodeGrant.execute. rewrite try_catch_rethrow. intros H.
  apply bind_cases in H as [(e & H & E) | (req & s1 & t1 & t2 & H1 & H & ->)];
    [discriminate E|].
  apply lift_inr in H1 as (Hreq & -> & ->). cbn [app].
  apply ACG_request in Hreq as [Hc Hu].
  apply bind_cases in H as [(e & H & E) | (code & s2 & t3 & t4 & H1 & H & ->)];
    [discriminate E|].
  apply validateAuthorizationCode_inv in H1 as (-> & Htr & Hiss & Hexp).
  rewrite Hc. cbn [app].
  apply bind_cases in H as [(e & H & E) | ([] & s3 & t5 & t6 & H1 & H & ->)];
    [discriminate E|].
  apply lift_inr in H1 as (Hred & -> & ->). cbn [app].
  apply bind_cases in H as [(e & H & E) | ([] & s4 & t7 & t8 & H1 & H & ->)];
    [discriminate E|].
  rewrite deleteAuthorizationCode_run in H1.
  destruct (Model.revokeAuthorizationCode _ _ _) as [st s5].
  destruct (truthy st) eqn:Hst; [|discriminate H1].
  injection H1 as <- <-. cbn [app].
  exists code, st, t8. repeat split; try assumption.
  intros Htruthy. unfold AuthorizationCodeGrant.validateRedirectUri in Hred.
  rewrite (get_truthy _ _ Htr) in Hred. unfold js_not in Hred.
  rewrite Htruthy, Hu in Hred. cbn [negb] in Hred.
  destruct (strict_eq _ _); [reflexivity | discriminate Hred].
Qed.

End Exchanges.

(* ------------------------------------------------------------------ *)
(** ** Password and client-credentials grants *)

Section UserGrants.
Context {σ : Type} (rt : Runtime.t σ).

Lemma PG_request request client req :
  PasswordGrant.AccessTokenRequest.new request client = inr req ->
  req = {| PasswordGrant.AccessTokenRequest.username :=
             field (Request.body request) "username";
           PasswordGrant.AccessTokenRequest.password :=
             field (Request.body request) "password";
           PasswordGrant.AccessTokenRequest.scope :=
             field (Request.body request) "scope" |}
  /\ truthy client = true
  /\ Is.uchar (field (Request.body request) "username") = true
  /\ Is.uchar (field (Request.body request) "password") = true
  /\ Is.nqschar (field (Request.body request) "scope") = true.
Proof.
  unfold PasswordGrant.AccessTokenRequest.new, js_not. intros H.
  destruct (truthy client); [|discriminate H]. cbn [negb] in H.
  repeat match type of H with
         | context [if negb ?c then _ else _] =>
             destruct c eqn:?; cbn [negb] in H; try discriminate H
         end.
  injection H as <-. repeat split; assumption.
Qed.



(** X11.  When the Model knows no user for the credentials of a well-formed
    password request, the grant fails with [invalid_grant] and no call is
    made to the credential store: nothing is generated or saved. *)
Theorem X11_password_grant_rejects_unknown_user
        (this : PasswordGrant.t σ) (request : Request.t) (client : JsVal) (s : σ)
        (req : PasswordGrant.AccessTokenRequest.t) :
  PasswordGrant.AccessTokenRequest.new request client = inr req ->
  truthy (fst (PasswordGrant.getUser this
                 (field (Request.body request) "username")
                 (field (Request.body request) "password") s)) = false ->
  PasswordGrant.execute rt this request client s
  = (inl (OAuthError "invalid_grant" 400
            "Invalid grant: user credentials are invalid"),
     snd (PasswordGrant.getUser this
            (field (Request.body request) "username")
            (field (Request.body request) "password") s),
     []).
Proof.
  intros Hreq Hu. unfold PasswordGrant.execute. rewrite try_catch_rethrow.
  rewrite Hreq. apply PG_request in Hreq as (-> & _).
  unfold PasswordGrant.validateUser, bind, lift, ret, awaitUser, throw_if, js_not, throw.
  cbn [PasswordGrant.AccessTokenRequest.username
       PasswordGrant.AccessTokenRequest.password].
  destruct (PasswordGrant.getUser this _ _ s) as [u s3]. cbn [fst snd] in *.
  rewrite Hu. reflexivity.
Qed.

End UserGrants.

Section ClientCredentials.
Context {σ : Type} (rt : Runtime.t σ).

Lemma CCG_createToken_saves (this : ClientCredentialGrant.t σ) client user req :
  always
    (saves (fun a1 a2 a3 =>
              a1 = client /\ a2 = user
              /\ prop a3 "refreshToken" = JUndefined
              /\ prop a3 "refreshTokenExpiresAt" = JUndefined))
    (ClientCredentialGrant.createToken rt this client user req).
Proof.
  unfold ClientCredentialGrant.createToken.
  eapply always_bind;
    [apply returns_any | apply always_validateScope; cbn; auto | intros accessScope _].
  eapply always_bind;
    [apply returns_any | apply always_generateAccessToken; cbn; auto | intros accessToken _].
  eapply always_bind;
    [apply returns_any | apply always_quiet, quiet_setAccessTokenExpiresAt | intros e1 _].
  apply always_await. intros g. cbn. repeat split.
Qed.

(** X12.  The client-credentials grant hands to [saveToken] the
    authenticated client, the user the Model associates with it (never a
    falsy one) and a token without a refresh token. *)
Theorem X12_client_credentials_saves
        (this : ClientCredentialGrant.t σ) (request : Request.t) (client : JsVal)
        (s : σ) (r : JsError + JsVal) (s' : σ) (t : list Call) :
  ClientCredentialGrant.execute rt this request client s = (r, s', t) ->
  forall a1 a2 a3 res,
    In (SaveToken a1 a2 a3 res) t ->
    a1 = client
    /\ a2 = fst (ClientCredentialGrant.getUserFromClient this client s)
    /\ truthy a2 = true
    /\ prop a3 "refreshToken" = JUndefined
    /\ prop a3 "refreshTokenExpiresAt" = JUndefined.
Proof.
  unfold ClientCredentialGrant.execute. rewrite try_catch_rethrow.
  intros H a1 a2 a3 res Hin.
  apply bind_cases in H as [(e & H & _) | (req & s1 & t1 & t2 & H1 & H & ->)].
  { rewrite (quiet_lift _ _ _ _ _ H) in Hin. destruct Hin. }
  apply lift_inr in H1 as (_ & -> & ->). cbn [app] in *.
  assert (Hq : quiet (ClientCredentialGrant.validateUser this client)).
  { unfold ClientCredentialGrant.validateUser. quiet_tac. apply quiet_awaitUser. }
  apply bind_cases in H as [(e & H & _) | (user & s2 & t3 & t4 & H1 & H & ->)].
  { rewrite (Hq _ _ _ _ H) in Hin. destruct Hin. }
  rewrite (Hq _ _ _ _ H1) in Hin. cbn [app] in Hin.
  assert (Hu : user = fst (ClientCredentialGrant.getUserFromClient this client s)
               /\ truthy user = true).
  { unfold ClientCredentialGrant.validateUser in H1.
    cbv beta iota zeta delta [bind lift ret throw throw_if js_not awaitUser get] in H1.
    destruct (nullish client); [discriminate H1|].
    destruct (nullish (prop client "user")); [discriminate H1|].
    destruct (ClientCredentialGrant.getUserFromClient this client s) as [u s3].
    destruct (truthy u) eqn:Htu; cbn [negb] in H1; [|discriminate H1].
    injection H1 as <- _ _. auto. }
  destruct Hu as [Hu Htu].
  assert (Hall : Forall
            (saves (fun a1 a2 a3 =>
               a1 = client /\ a2 = user
               /\ prop a3 "refreshToken" = JUndefined
               /\ prop a3 "refreshTokenExpiresAt" = JUndefined)) t4).
  { revert H. generalize s2 r s' t4.
    match goal with
    | |- forall s0 r0 s0' t0, ?m s0 = _ -> Forall ?P t0 => change (always P m)
    end.
    eapply always_bind; [apply returns_any | | intros data _]; [|always_tac].
    apply CCG_createToken_saves. }
  destruct (In_saves _ _ _ _ _ _ Hall Hin) as (-> & -> & H3 & H4).
  rewrite <- Hu. repeat split; assumption.
Qed.

(** X13.  The client-credentials grant reads [client.user.username] before
    it asks the Model: for a client record without a [user] it fails with a
    [TypeError], the host untouched and no call made. *)
Theorem X13_client_credentials_needs_client_user
        (this : ClientCredentialGrant.t σ) (request : Request.t) (client : JsVal)
        (s : σ) (req : ClientCredentialGrant.AccessTokenRequest.t) :
  ClientCredentialGrant.AccessTokenRequest.new request client = inr req ->
  nullish (prop client "user") = true ->
  ClientCredentialGrant.execute rt this request client s
  = (inl (TypeError_read "username" (prop client "user")), s, []).
Proof.
  intros Hreq Hn. unfold ClientCredentialGrant.execute. rewrite try_catch_rethrow.
  rewrite Hreq.
  assert (Hc : nullish client = false).
  { unfold ClientCredentialGrant.AccessTokenRequest.new, js_not in Hreq.
    destruct (truthy client) eqn:E; [|discriminate Hreq].
    apply truthy_not_nullish, E. }
  unfold ClientCredentialGrant.validateUser.
  cbv beta iota zeta delta [bind lift ret throw throw_if js_not awaitUser get].
  rewrite Hc, Hn. reflexivity.
Qed.

End ClientCredentials.

(* ------------------------------------------------------------------ *)
(** ** The grants on the example host *)


Lemma X8_refresh_carries_user_and_scope_witness :
  let run := RefreshTokenGrant.execute Demo.rt
               (Demo.grant (Demo.answers JUndefined JUndefined
                              (Demo.tokenRecord Demo.c1 [])))
               (Demo.post [("refresh_token", JStr "R1"); ("scope", JStr "admin")])
               Demo.c1 Demo.s0 in
  (exists a3 res, In (SaveToken Demo.c1 Demo.alice a3 res) (snd run))
  /\ forall a1 a2 a3 res,
       In (SaveToken a1 a2 a3 res) (snd run) ->
       exists tok,
         In (GetRefreshToken (JStr "R1") tok) (snd run)
         /\ a1 = Demo.c1 /\ a2 = prop tok "user"
         /\ prop a3 "scope" = prop tok "scope".
Proof.
  intros run. split; [do 2 eexists; right; right; left; reflexivity|].
  exact (X8_refresh_carries_user_and_scope Demo.rt
           (Demo.grant (Demo.answers JUndefined JUndefined
                          (Demo.tokenRecord Demo.c1 [])))
           (Demo.post [("refresh_token", JStr "R1"); ("scope", JStr "admin")])
           Demo.c1 Demo.s0 (fst (fst run)) (snd (fst run)) (snd run) eq_refl).
Defined.

Lemma X9_code_redemption_sound_witness :
  let request := Demo.post [("code", JStr "abc");
                            ("redirect_uri", JStr "https://app/cb")] in
  let run := AuthorizationCodeGrant.execute Demo.rt
               (Demo.grant (Demo.answers (Demo.codeRecord 2000) JUndefined JUndefined))
               request Demo.c1u Demo.s0 in
  exists v, fst (fst run) = inr v
  /\ exists code st t',
       snd run = GetAuthorizationCode (JStr "abc") code
                   :: RevokeAuthorizationCode code st :: t'
       /\ truthy code = true
       /\ issued_to code Demo.c1u = true
       /\ (exists e, prop code "expiresAt" = JDate e /\ 1000 <= e)
       /\ (truthy (prop code "redirectUri") = true ->
           strict_eq (requested_redirect_uri request) (prop code "redirectUri") = true)
       /\ truthy st = true.
Proof.
  intros request run.
  pose (v := match fst (fst run) with inr v => v | inl _ => JUndefined end).
  exists v. split; [reflexivity|].
  exact (X9_code_redemption_sound Demo.rt
           (Demo.grant (Demo.answers (Demo.codeRecord 2000) JUndefined JUndefined))
           request Demo.c1u Demo.s0 v (snd (fst run)) (snd run) eq_refl).
Defined.


Lemma X11_password_grant_rejects_unknown_user_witness :
  PasswordGrant.execute Demo.rt
    (Demo.passwordGrant (Demo.answers JUndefined JUndefined JUndefined) JNull)
    (Demo.post [("username", JStr "alice"); ("password", JStr "pw")])
    Demo.c1u Demo.s0
  = (inl (OAuthError "invalid_grant" 400
            "Invalid grant: user credentials are invalid"), Demo.s0, []).
Proof.
  exact (X11_password_grant_rejects_unknown_user Demo.rt
           (Demo.passwordGrant (Demo.answers JUndefined JUndefined JUndefined) JNull)
           (Demo.post [("username", JStr "alice"); ("password", JStr "pw")])
           Demo.c1u Demo.s0
           {| PasswordGrant.AccessTokenRequest.username := JStr "alice";
              PasswordGrant.AccessTokenRequest.password := JStr "pw";
              PasswordGrant.AccessTokenRequest.scope := JUndefined |}
           eq_refl eq_refl).
Defined.

Lemma X12_client_credentials_saves_witness :
  let run := ClientCredentialGrant.execute Demo.rt
               (Demo.clientCredentialGrant
                  (Demo.answers JUndefined JUndefined JUndefined) Demo.alice)
               (Demo.post []) Demo.c1u Demo.s0 in
  (exists a3 res, In (SaveToken Demo.c1u Demo.alice a3 res) (snd run))
  /\ forall a1 a2 a3 res,
       In (SaveToken a1 a2 a3 res) (snd run) ->
       a1 = Demo.c1u /\ a2 = Demo.alice /\ truthy a2 = true
       /\ prop a3 "refreshToken" = JUndefined
       /\ prop a3 "refreshTokenExpiresAt" = JUndefined.
Proof.
  intros run. split; [do 2 eexists; left; reflexivity|].
  exact (X12_client_credentials_saves Demo.rt
           (Demo.clientCredentialGrant
              (Demo.answers JUndefined JUndefined JUndefined) Demo.alice)
           (Demo.post []) Demo.c1u Demo.s0
           (fst (fst run)) (snd (fst run)) (snd run) eq_refl).
Defined.

Lemma X13_client_credentials_needs_client_user_witness :
  ClientCredentialGrant.execute Demo.rt
    (Demo.clientCredentialGrant
       (Demo.answers JUndefined JUndefined JUndefined) Demo.alice)
    (Demo.post []) Demo.c1 Demo.s0
  = (inl (TypeError_read "username" JUndefined), Demo.s0, []).
Proof.
  exact (X13_client_credentials_needs_client_user Demo.rt
           (Demo.clientCredentialGrant
              (Demo.answers JUndefined JUndefined JUndefined) Demo.alice)
           (Demo.post []) Demo.c1 Demo.s0
           {| ClientCredentialGrant.AccessTokenRequest.scope := JUndefined |}
           eq_refl eq_refl).
Defined.

(* ------------------------------------------------------------------ *)
(** ** The token endpoint *)

Lemma strict_eq_JStr v g : strict_eq v (JStr g) = true -> v = JStr g.
Proof.
  destruct v; cbn; try discriminate. intros H. apply String.eqb_eq in H. now subst.
Qed.

(** X14.  A token request that is accepted was sent with POST as a form; its
    grant type is one of the allowed ones; its credentials are those of the
    Basic header when there is one and those of the body otherwise; the
    client id is non-empty and made of printable characters, and so is the
    secret when there is one; for the [password] and [refresh_token] grants
    the secret is there whenever the endpoint requires client
    authentication for the grant. *)
Theorem X14_token_request_accepted
        (request : Request.t) (allowedGrants : list string)
        (requireClientAuthentication : JsVal) (tr : Token.TokenRequest.t) :
  Token.TokenRequest.new request allowedGrants requireClientAuthentication = inr tr ->
  Request.method request = "POST"
  /\ Request.is_form request = true
  /\ (exists g, Token.TokenRequest.grantType tr = JStr g /\ In g allowedGrants
                /\ field (Request.body request) "grant_type" = JStr g)
  /\ (Token.TokenRequest.clientId tr, Token.TokenRequest.clientSecret tr)
     = request_credentials request
  /\ truthy (Token.TokenRequest.clientId tr) = true
  /\ Is.vschar (Token.TokenRequest.clientId tr) = true
  /\ (truthy (Token.TokenRequest.clientSecret tr) = true ->
      Is.vschar (Token.TokenRequest.clientSecret tr) = true)
  /\ (forall g, g = "password" \/ g = "refresh_token" ->
                Token.TokenRequest.grantType tr = JStr g ->
                truthy (prop (default_to
                                (JObj [("password", JBool true);
                                       ("refresh_token", JBool true)])
                                requireClientAuthentication) g) = true ->
                truthy (Token.TokenRequest.clientSecret tr) = true).
Proof.
  unfold Token.TokenRequest.new, request_credentials. intros H.
  destruct (Request.method request =? "POST")%string eqn:Em; cbn [negb] in H;
    [|discriminate H].
  destruct (Request.is_form request) eqn:Ef; cbn [negb] in H; [|discriminate H].
  destruct (js_not (field (Request.body request) "grant_type")); [discriminate H|].
  destruct (negb (Is.nchar _) && negb (Is.uri _)); [discriminate H|].
  destruct (existsb _ allowedGrants) eqn:Eg; cbn [negb] in H; [|discriminate H].
  apply existsb_exists in Eg as (g & Hg & Eg). apply strict_eq_JStr in Eg.
  set (creds := match Request.basic_auth request with
                | Some (name, pass) => (JStr name, JStr pass)
                | None => (field (Request.body request) "client_id",
                           field (Request.body request) "client_secret")
                end) in *.
  destruct creds as [clientId clientSecret].
  unfold js_not in H.
  destruct (truthy clientId) eqn:Eid; cbn [negb] in H; [|discriminate H].
  set (rca := default_to _ requireClientAuthentication) in *.
  destruct (Token.TokenRequest.secretMissing _ rca clientSecret "password")
    as [e1|[]] eqn:E1; try discriminate H.
  destruct (Token.TokenRequest.secretMissing _ rca clientSecret "refresh_token")
    as [e2|[]] eqn:E2; try discriminate H.
  destruct (Is.vschar clientId) eqn:Ev; cbn [negb] in H; [|discriminate H].
  destruct (truthy clientSecret) eqn:Es; cbn [andb] in H.
  - destruct (Is.vschar clientSecret) eqn:Evs; cbn [negb] in H; [|discriminate H].
    injection H as <-. cbn.
    split; [now apply String.eqb_eq|].
    split; [reflexivity|]. split; [exists g; auto|]. split; [reflexivity|].
    split; [exact Eid|]. split; [exact Ev|]. split; [intros _; exact Evs|].
    intros; exact Es.
  - injection H as <-. cbn.
    split; [now apply String.eqb_eq|].
    split; [reflexivity|]. split; [exists g; auto|]. split; [reflexivity|].
    split; [exact Eid|]. split; [exact Ev|]. split; [congruence|].
    intros g' Hg' Hgt Hflag. rewrite Eg in Hgt. injection Hgt as <-.
    unfold Token.TokenRequest.secretMissing, js_not in E1, E2.
    rewrite Eg, Es in E1, E2. cbn [strict_eq negb] in E1, E2.
    assert (Hn : nullish rca = false).
    { destruct Hg' as [-> | ->].
      - rewrite String.eqb_refl in E1. unfold get in E1.
        destruct (nullish rca); [discriminate E1 | reflexivity].
      - rewrite String.eqb_refl in E2. unfold get in E2.
        destruct (nullish rca); [discriminate E2 | reflexivity]. }
    unfold get in E1, E2. rewrite Hn in E1, E2.
    destruct Hg' as [-> | ->];
      [rewrite String.eqb_refl in E1 | rewrite String.eqb_refl in E2];
      rewrite Hflag in *; discriminate.
Qed.

Lemma Response_get_set_other r n n' v :
  toLowerCase n <> toLowerCase n' ->
  Response.get (Response.set r n v) n' = Response.get r n'.
Proof.
  intros Hne. unfold Response.get, Response.set, field. cbn [Response.headers].
  rewrite assoc_set_other; [reflexivity | congruence].
Qed.

Lemma Response_get_setStatus r n k :
  Response.get (Response.setStatus r n) k = Response.get r k.
Proof. reflexivity. Qed.

Lemma Response_get_setBody r b k :
  Response.get (Response.setBody r b) k = Response.get r k.
Proof. reflexivity. Qed.

Lemma wire_error_status e : exists n, err_status (wire_error e) = JNum n.
Proof. destruct e; cbn; eauto. Qed.

(** The response an error leaves on the token endpoint. *)
Lemma token_setErrorResponse_run {σ} (e : JsError) (auth : JsVal) (s : σ) resp :
  exists resp',
    Token.TokenResponse.setErrorResponse e auth (s, resp) = (inr tt, (s, resp'), [])
    /\ not_cacheable resp'
    /\ (if (err_name e =? "invalid_client")%string && truthy auth
        then Response.status resp' = 401
             /\ Response.get resp' "WWW-Authenticate"
                = JStr ("Basic realm=" ++ dquote ++ "Service" ++ dquote)
             /\ Response.body resp' = error_body e
        else Response.body resp' = error_body (wire_error e)
             /\ err_status (wire_error e) = JNum (Response.status resp')).
Proof.
  unfold Token.TokenResponse.setErrorResponse. fold (wire_error e).
  destruct (wire_error_status e) as [n Hn].
  destruct ((err_name e =? "invalid_client")%string && truthy auth);
    [|rewrite Hn];
    cbv beta iota zeta delta [bind setHeader setBody setStatus modifyResponse fst snd app];
    eexists; (split; [reflexivity|]); unfold not_cacheable;
    cbn [Response.status Response.body Response.setStatus Response.setBody];
    repeat split;
    rewrite ?Response_get_setStatus, ?Response_get_setBody;
    repeat first
      [ reflexivity
      | apply Response_get_set
      | rewrite Response_get_set_other by (vm_compute; discriminate) ].
Qed.

Lemma liftH_inv {σ A} (m : M σ A) s resp r s1 resp1 t :
  liftH m (s, resp) = (r, (s1, resp1), t) -> m s = (r, s1, t) /\ resp1 = resp.
Proof.
  unfold liftH. cbn [fst snd]. destruct (m s) as [[r0 s0] t0].
  intros H. injection H as <- <- <- <-. auto.
Qed.

Lemma secretMissing_error_name gt rca secret g e :
  Token.TokenRequest.secretMissing gt rca secret g = inl e ->
  (err_name e =? "invalid_client")%string = false.
Proof.
  unfold Token.TokenRequest.secretMissing, get.
  destruct (strict_eq gt (JStr g)); [|discriminate].
  destruct (nullish rca); [|discriminate].
  intros H. injection H as <-. reflexivity.
Qed.

Lemma TokenRequest_error_name request allowedGrants rca e :
  Token.TokenRequest.new request allowedGrants rca = inl e ->
  (err_name e =? "invalid_client")%string = false.
Proof.
  unfold Token.TokenRequest.new. intros H.
  destruct (negb (Request.method request =? "POST")%string);
    [injection H as <-; reflexivity|].
  destruct (negb (Request.is_form request)); [injection H as <-; reflexivity|].
  destruct (js_not (field (Request.body request) "grant_type"));
    [injection H as <-; reflexivity|].
  destruct (negb (Is.nchar _) && negb (Is.uri _)); [injection H as <-; reflexivity|].
  destruct (negb (existsb _ allowedGrants)); [injection H as <-; reflexivity|].
  destruct (match Request.basic_auth request with
            | Some (name, pass) => (JStr name, JStr pass)
            | None => (field (Request.body request) "client_id",
                       field (Request.body request) "client_secret")
            end) as [clientId clientSecret].
  destruct (js_not clientId); [injection H as <-; reflexivity|].
  destruct (Token.TokenRequest.secretMissing _ _ clientSecret "password")
    as [e1|[]] eqn:E1.
  - injection H as <-. eapply secretMissing_error_name, E1.
  - injection H as <-; reflexivity.
  - destruct (Token.TokenRequest.secretMissing _ _ clientSecret "refresh_token")
      as [e2|[]] eqn:E2.
    + injection H as <-. eapply secretMissing_error_name, E2.
    + injection H as <-; reflexivity.
    + destruct (negb (Is.vschar clientId)); [injection H as <-; reflexivity|].
      destruct (truthy clientSecret && negb (Is.vschar clientSecret));
        [injection H as <-; reflexivity | discriminate H].
Qed.

Section TokenEndpoint.
Context {σ : Type}.

(** X15.  A request the token endpoint rejects on its form (method, content
    type, grant type, credentials) is answered without any call to the
    Model, the host left as it was. *)
Theorem X15_token_endpoint_rejects_early
        (this : Token.TokenHandler.t σ) (request : Request.t)
        (s : σ) (resp : Response.t) (e : JsError) :
  Token.TokenRequest.new request (Token.TokenHandler.allowedGrants this)
    (Token.TokenHandler.requireClientAuthentication this) = inl e ->
  exists resp',
    Token.TokenHandler.execute this request (s, resp) = (inl e, (s, resp'), [])
    /\ Response.body resp' = error_body (wire_error e)
    /\ err_status (wire_error e) = JNum (Response.status resp').
Proof.
  intros Hreq.
  destruct (token_setErrorResponse_run e (Request.get request "authorization") s resp)
    as (resp' & Hrun & _ & Hresp).
  assert (Hname : (err_name e =? "invalid_client")%string = false)
    by exact (TokenRequest_error_name _ _ _ _ Hreq).
  rewrite Hname in Hresp. cbn [andb] in Hresp.
  exists resp'. split; [|exact Hresp].
  unfold Token.TokenHandler.execute, try_catch.
  unfold bind at 1. unfold lift at 1. rewrite Hreq. unfold throw at 1.
  unfold bind. rewrite Hrun. reflexivity.
Qed.

(** X16.  Whenever the token endpoint fails, the response is marked as not
    cacheable and carries the error as JSON: for [invalid_client] on a
    request with an [Authorization] header, status 401 and a Basic
    challenge; otherwise the status of the error, an error that is not an
    [OAuthError] being reported as [server_error] with status 500.  The
    error thrown to the caller is the original one. *)
Theorem X16_token_endpoint_error_response
        (this : Token.TokenHandler.t σ) (request : Request.t)
        (s s' : σ) (resp resp' : Response.t) (e : JsError) (t : list Call) :
  Token.TokenHandler.execute this request (s, resp) = (inl e, (s', resp'), t) ->
  not_cacheable resp'
  /\ (if (err_name e =? "invalid_client")%string
         && truthy (Request.get request "authorization")
      then Response.status resp' = 401
           /\ Response.get resp' "WWW-Authenticate"
              = JStr ("Basic realm=" ++ dquote ++ "Service" ++ dquote)
           /\ Response.body resp' = error_body e
      else Response.body resp' = error_body (wire_error e)
           /\ err_status (wire_error e) = JNum (Response.status resp')).
Proof.
  unfold Token.TokenHandler.execute, try_catch.
  match goal with |- context [match ?m (s, resp) with _ => _ end] =>
    destruct (m (s, resp)) as [[[e0|a] [s1 resp1]] t1]
  end; [|discriminate].
  destruct (token_setErrorResponse_run e0 (Request.get request "authorization") s1 resp1)
    as (resp2 & Hrun & Hnc & Hresp).
  unfold bind. rewrite Hrun. unfold throw. intros H.
  injection H as <- <- <- <-. auto.
Qed.

End TokenEndpoint.

Section TokenClient.
Context {σ : Type}.

Lemma includes_array owner l v b :
  includes owner (JArr l) v = inr b -> b = existsb (strict_eq v) l.
Proof. cbn. intros H. now injection H as <-. Qed.

(** X17.  The token endpoint authenticates the client with one call,
    [getClient(clientId, clientSecret)], and nothing else; the client it
    accepts is truthy and lists the requested grant type in its [grants]
    array.  An unknown client is [invalid_client]; a client without a
    [grants] array is a [server_error]; a client that may not use the grant
    type is [unauthorized_client]. *)
Theorem X17_token_client_authentication
        (this : Token.TokenHandler.t σ) (tr : Token.TokenRequest.t)
        (s : σ) (r : JsError + JsVal) (s' : σ) (t : list Call) :
  Token.TokenHandler.authenticateClient this tr s = (r, s', t) ->
  let found := fst (Model.getClient (Token.TokenHandler.model this)
                      (Token.TokenRequest.clientId tr)
                      (Token.TokenRequest.clientSecret tr) s) in
  t = [GetClient (Token.TokenRequest.clientId tr)
                 (Token.TokenRequest.clientSecret tr) found]
  /\ r = (if negb (truthy found)
          then inl (OAuthError "invalid_client" 400 "Invalid client: client is invalid")
          else if negb (truthy (prop found "grants"))
          then inl (OAuthError "server_error" 500
                      "Server error: missing client `grants`")
          else if negb (match prop found "grants" with JArr _ => true | _ => false end)
          then inl (OAuthError "server_error" 500
                      "Server error: `grants` must be an array")
          else if negb (client_may_use found (Token.TokenRequest.grantType tr))
          then inl (OAuthError "unauthorized_client" 400
                      "Unauthorized client: `grant_type` is invalid")
          else inr found).
Proof.
  unfold Token.TokenHandler.authenticateClient, client_may_use.
  cbv beta iota zeta delta [bind lift ret throw throw_if js_not await].
  destruct (Model.getClient _ _ _ s) as [found s1]. cbn [fst].
  destruct (truthy found); cbn [negb];
    [|intros H; injection H as <- <- <-; split; reflexivity].
  destruct (truthy (prop found "grants")); cbn [negb];
    [|intros H; injection H as <- <- <-; split; reflexivity].
  destruct (prop found "grants") as [| | | | | |l|]; cbn [negb];
    try (intros H; injection H as <- <- <-; split; reflexivity).
  cbn [includes]. destruct (existsb _ l); cbn [negb];
    intros H; injection H as <- <- <-; split; reflexivity.
Qed.

Lemma token_authenticateClient_ok
      (this : Token.TokenHandler.t σ) (tr : Token.TokenRequest.t) s client s' t :
  Token.TokenHandler.authenticateClient this tr s = (inr client, s', t) ->
  t = [GetClient (Token.TokenRequest.clientId tr)
                 (Token.TokenRequest.clientSecret tr) client]
  /\ truthy client = true
  /\ client_may_use client (Token.TokenRequest.grantType tr) = true.
Proof.
  intros H.
  unfold Token.TokenHandler.authenticateClient, client_may_use in *.
  cbv beta iota zeta delta [bind lift ret throw throw_if js_not await] in H.
  destruct (Model.getClient _ _ _ s) as [found s1].
  destruct (truthy found) eqn:E1; cbn [negb] in H; [|discriminate H].
  destruct (truthy (prop found "grants")); cbn [negb] in H; [|discriminate H].
  destruct (prop found "grants") as [| | | | | |l|] eqn:E2; cbn [negb] in H;
    try discriminate H.
  cbn [includes] in H. destruct (existsb _ l) eqn:E3; cbn [negb] in H;
    [|discriminate H].
  injection H as <- <- <-. rewrite E2. auto.
Qed.

Lemma TokenRequest_fields request allowedGrants rca tr :
  Token.TokenRequest.new request allowedGrants rca = inr tr ->
  Token.TokenRequest.grantType tr = field (Request.body request) "grant_type"
  /\ (Token.TokenRequest.clientId tr, Token.TokenRequest.clientSecret tr)
     = request_credentials request.
Proof.
  unfold Token.TokenRequest.new, request_credentials. intros H.
  repeat match type of H with
         | context [if ?c then _ else _] => destruct c; try discriminate H
         end.
  destruct (match Request.basic_auth request with
            | Some (name, pass) => (JStr name, JStr pass)
            | None => (field (Request.body request) "client_id",
                       field (Request.body request) "client_secret")
            end) as [clientId clientSecret].
  repeat match type of H with
         | context [if ?c then _ else _] => destruct c; try discriminate H
         | context [match ?x with _ => _ end] => destruct x as [?|[]]; try discriminate H
         end.
  injection H as <-. split; reflexivity.
Qed.

(** X18.  The token endpoint answers with success only for a well-formed
    request whose client the Model knows for the credentials of the request
    and whose [grants] list the grant type; the lookup of the client is the
    first call to the Model, the response is marked as not cacheable and its
    body is set last. *)
Theorem X18_token_endpoint_success
        (this : Token.TokenHandler.t σ) (request : Request.t)
        (s s' : σ) (resp resp' : Response.t) (t : list Call) :
  Token.TokenHandler.execute this request (s, resp) = (inr tt, (s', resp'), t) ->
  exists tr client t',
    Token.TokenRequest.new request (Token.TokenHandler.allowedGrants this)
      (Token.TokenHandler.requireClientAuthentication this) = inr tr
    /\ t = GetClient (fst (request_credentials request))
             (snd (request_credentials request)) client :: t'
    /\ truthy client = true
    /\ client_may_use client (field (Request.body request) "grant_type") = true
    /\ not_cacheable resp'.
Proof.
  unfold Token.TokenHandler.execute, try_catch.
  match goal with |- context [match ?m (s, resp) with _ => _ end] =>
    destruct (m (s, resp)) as [[[e0|a] [s1 resp1]] t1] eqn:Hm
  end.
  { destruct (token_setErrorResponse_run e0 (Request.get request "authorization")
                s1 resp1) as (resp2 & Hrun & _).
    unfold bind. rewrite Hrun. discriminate. }
  intros H. injection H as -> <- <- <-.
  apply bind_cases in Hm as [(e & _ & E) | (tr & [s2 r2] & t2 & t3 & H1 & Hm & ->)];
    [discriminate E|].
  apply lift_inr in H1 as (Hreq & E & ->). injection E as -> ->. cbn [app].
  apply bind_cases in Hm as [(e & _ & E) | (client & [s3 r3] & t4 & t5 & H1 & Hm & ->)];
    [discriminate E|].
  apply liftH_inv in H1 as [H1 ->].
  apply token_authenticateClient_ok in H1 as (-> & Hc & Huse).
  apply bind_cases in Hm as [(e & _ & E) | (tok & [s4 r4] & t6 & t7 & H1 & Hm & ->)];
    [discriminate E|].
  destruct (TokenRequest_fields request _ _ _ Hreq) as (Hg & Hcreds).
  exists tr, client, (t6 ++ t7)%list. split; [exact Hreq|].
  rewrite <- Hcreds. cbn [fst snd app]. split; [reflexivity|].
  split; [exact Hc|]. split; [now rewrite <- Hg|].
  unfold Token.TokenResponse.setSuccessResponse in Hm.
  cbv beta iota zeta delta [bind setHeader setBody modifyResponse fst snd app] in Hm.
  injection Hm as <- <- <-. unfold not_cacheable.
  rewrite ?Response_get_setBody.
  repeat split;
    repeat first
      [ reflexivity
      | apply Response_get_set
      | rewrite Response_get_set_other by (vm_compute; discriminate) ].
Qed.

End TokenClient.

(* ------------------------------------------------------------------ *)
(** ** Grant types of the token endpoint *)

Lemma entry_assign_same {A} k (v : A) obj : entry k (assign k v obj) = Some v.
Proof.
  induction obj as [|[k' v'] obj IH]; cbn.
  - now rewrite String.eqb_refl.
  - destruct (k' =? k)%string eqn:E; cbn; [now rewrite String.eqb_refl | now rewrite E].
Qed.

Lemma entry_assign_other {A} k k' (v : A) obj :
  k' <> k -> entry k' (assign k v obj) = entry k' obj.
Proof.
  intros Hne. induction obj as [|[k0 v0] obj IH]; cbn.
  - destruct (k =? k')%string eqn:E; [|reflexivity].
    apply String.eqb_eq in E. congruence.
  - destruct (k0 =? k)%string eqn:E; cbn.
    + apply String.eqb_eq in E. subst k0.
      destruct (k =? k')%string eqn:E'; [|reflexivity].
      apply String.eqb_eq in E'. congruence.
    + now rewrite IH.
Qed.

Lemma keys_assign {A} k (v : A) obj k' :
  In k' (map fst (assign k v obj)) <-> k' = k \/ In k' (map fst obj).
Proof.
  induction obj as [|[k0 v0] obj IH]; cbn.
  - intuition congruence.
  - destruct (k0 =? k)%string eqn:E; cbn.
    + apply String.eqb_eq in E. subst k0. intuition congruence.
    + rewrite IH. intuition congruence.
Qed.

Lemma keys_spread {A} (base ext : list (string * A)) k :
  In k (map fst (spread base ext)) <-> In k (map fst base) \/ In k (map fst ext).
Proof.
  unfold spread. revert base. induction ext as [|[k0 v0] ext IH]; intros base; cbn.
  - tauto.
  - rewrite IH, keys_assign. cbn. intuition congruence.
Qed.

Lemma entry_spread_other {A} (base ext : list (string * A)) k :
  ~ In k (map fst ext) -> entry k (spread base ext) = entry k base.
Proof.
  unfold spread. revert base. induction ext as [|[k0 v0] ext IH]; intros base Hn; cbn;
    [reflexivity|].
  cbn in Hn. rewrite IH by tauto. apply entry_assign_other. intros ->. tauto.
Qed.

Lemma entry_spread_ext {A} (base ext : list (string * A)) k v :
  NoDup (map fst ext) -> In (k, v) ext -> entry k (spread base ext) = Some v.
Proof.
  unfold spread. revert base.
  induction ext as [|[k0 v0] ext IH]; intros base Hd Hin; cbn; [destruct Hin|].
  cbn in Hd. apply NoDup_cons_iff in Hd as [Hk0 Hd].
  destruct Hin as [E | Hin].
  - injection E as -> ->.
    change (entry k (spread (assign k v base) ext) = Some v).
    rewrite entry_spread_other by exact Hk0. apply entry_assign_same.
  - apply IH; assumption.
Qed.

(** X19.  The grant types of a token endpoint are the four built-in ones
    and those of [extendedGrantTypes]: no option removes a built-in grant
    type, an extended grant type of the same name replaces it, and a name
    that is not extended keeps its built-in implementation.  Without
    extension the allowed grant types are [authorization_code],
    [client_credentials], [password] and [refresh_token]. *)
Theorem X19_grant_types_of_the_endpoint
        {σ : Type} (rt : Runtime.t σ) (model : Model.t σ) (users : UserModel.t σ)
        (accessTokenLifetime refreshTokenLifetime : Z)
        (alwaysIssueNewRefreshToken requireClientAuthentication
           allowExtendedTokenAttributes : JsVal)
        (extendedGrantTypes : list (string * Token.TokenHandler.GrantType)) :
  let this := Token.TokenHandler.new rt model users accessTokenLifetime
                refreshTokenLifetime alwaysIssueNewRefreshToken
                requireClientAuthentication allowExtendedTokenAttributes
                extendedGrantTypes in
  (forall g, In g (Token.TokenHandler.allowedGrants this)
             <-> In g ["authorization_code"; "client_credentials"; "password";
                       "refresh_token"]
                 \/ In g (map fst extendedGrantTypes))
  /\ (forall g, ~ In g (map fst extendedGrantTypes) ->
                entry g (Token.TokenHandler.handlerGrantTypes this)
                = entry g (Token.TokenHandler.grantTypes rt))
  /\ (NoDup (map fst extendedGrantTypes) ->
      forall g G, In (g, G) extendedGrantTypes ->
                  entry g (Token.TokenHandler.handlerGrantTypes this) = Some G)
  /\ (extendedGrantTypes = [] ->
      Token.TokenHandler.allowedGrants this
      = ["authorization_code"; "client_credentials"; "password"; "refresh_token"]).
Proof.
  intros this. unfold this, Token.TokenHandler.allowedGrants, Token.TokenHandler.new.
  cbn [Token.TokenHandler.handlerGrantTypes]. repeat split.
  - intros H. apply keys_spread in H. exact H.
  - intros H. apply keys_spread. exact H.
  - intros g Hn. now apply entry_spread_other.
  - intros Hd g G Hin. now apply entry_spread_ext.
  - intros ->. reflexivity.
Qed.

(* ------------------------------------------------------------------ *)
(** ** The token endpoint on the example host *)

Lemma X14_token_request_accepted_witness :
  let request := Demo.postBasic "c1" "s3cret"
                   [("grant_type", JStr "password"); ("client_id", JStr "other")] in
  exists tr,
    Token.TokenRequest.new request ["password"; "refresh_token"] JUndefined = inr tr
    /\ Token.TokenRequest.clientId tr = JStr "c1"
    /\ Token.TokenRequest.clientSecret tr = JStr "s3cret"
    /\ Is.vschar (Token.TokenRequest.clientId tr) = true.
Proof.
  intros request. eexists. split; [reflexivity|].
  destruct (X14_token_request_accepted request ["password"; "refresh_token"]
              JUndefined _ eq_refl) as (_ & _ & _ & Hc & _ & Hv & _).
  split; [reflexivity|]. split; [reflexivity|]. exact Hv.
Defined.

Lemma X15_token_endpoint_rejects_early_witness :
  let this := Demo.token (Demo.answers JUndefined JUndefined JUndefined) Demo.alice in
  let request := Demo.post [("grant_type", JStr "implicit"); ("client_id", JStr "c1")] in
  exists resp',
    Token.TokenHandler.execute this request (Demo.s0, Response.fresh)
    = (inl (OAuthError "unsupported_grant_type" 400
              "Unsupported grant type: `grant_type` is invalid"),
       (Demo.s0, resp'), [])
    /\ Response.body resp'
       = JObj [("error", JStr "unsupported_grant_type");
               ("error_description",
                JStr "Unsupported grant type: `grant_type` is invalid")]
    /\ JNum 400 = JNum (Response.status resp').
Proof.
  intros this request.
  exact (X15_token_endpoint_rejects_early this request Demo.s0 Response.fresh
           (OAuthError "unsupported_grant_type" 400
              "Unsupported grant type: `grant_type` is invalid") eq_refl).
Defined.

Lemma X16_token_endpoint_error_response_witness :
  let this := Demo.token
                {| Demo.client := JNull; Demo.code := JNull; Demo.accessToken := JNull;
                   Demo.refreshToken := JNull; Demo.revoked := JBool true |}
                Demo.alice in
  let request := Demo.postBasic "c1" "wrong" [("grant_type", JStr "password")] in
  let run := Token.TokenHandler.execute this request (Demo.s0, Response.fresh) in
  outcome_of run = inl (OAuthError "invalid_client" 400 "Invalid client: client is invalid")
  /\ not_cacheable (response_of run)
  /\ Response.status (response_of run) = 401
  /\ Response.get (response_of run) "WWW-Authenticate"
     = JStr ("Basic realm=" ++ dquote ++ "Service" ++ dquote)
  /\ Response.body (response_of run)
     = error_body (OAuthError "invalid_client" 400 "Invalid client: client is invalid").
Proof.
  intros this request run. split; [reflexivity|].
  exact (X16_token_endpoint_error_response this request Demo.s0 (fst (snd (fst run)))
           Response.fresh (response_of run)
           (OAuthError "invalid_client" 400 "Invalid client: client is invalid")
           (snd run) eq_refl).
Defined.

Lemma X17_token_client_authentication_witness :
  let this := Demo.token (Demo.answers JUndefined JUndefined JUndefined) Demo.alice in
  let tr := {| Token.TokenRequest.grantType := JStr "password";
               Token.TokenRequest.clientId := JStr "c1";
               Token.TokenRequest.clientSecret := JStr "s3cret" |} in
  let run := Token.TokenHandler.authenticateClient this tr Demo.s0 in
  snd run = [GetClient (JStr "c1") (JStr "s3cret") Demo.c1]
  /\ fst (fst run)
     = inl (OAuthError "unauthorized_client" 400
              "Unauthorized client: `grant_type` is invalid").
Proof.
  intros this tr run.
  exact (X17_token_client_authentication this tr Demo.s0
           (fst (fst run)) (snd (fst run)) (snd run) eq_refl).
Defined.

Lemma X18_token_endpoint_success_witness :
  let this := Demo.token
                {| Demo.client := Demo.c1u; Demo.code := JNull;
                   Demo.accessToken := JNull; Demo.refreshToken := JNull;
                   Demo.revoked := JBool true |}
                Demo.alice in
  let request := Demo.postBasic "c1" "s3cret"
                   [("grant_type", JStr "password"); ("username", JStr "alice");
                    ("password", JStr "pw")] in
  let run := Token.TokenHandler.execute this request (Demo.s0, Response.fresh) in
  outcome_of run = inr tt
  /\ exists tr client t',
       Token.TokenRequest.new request (Token.TokenHandler.allowedGrants this)
         (Token.TokenHandler.requireClientAuthentication this) = inr tr
       /\ snd run = GetClient (JStr "c1") (JStr "s3cret") client :: t'
       /\ truthy client = true
       /\ client_may_use client (JStr "password") = true
       /\ not_cacheable (response_of run).
Proof.
  intros this request run. split; [reflexivity|].
  exact (X18_token_endpoint_success this request Demo.s0 (fst (snd (fst run)))
           Response.fresh (response_of run) (snd run) eq_refl).
Defined.

(* ------------------------------------------------------------------ *)
(** ** Bearer authentication *)

Section Bearer.
Context {σ : Type} (rt : Runtime.t σ).

Lemma validateAccessToken_inv (this : AuthenticateHandler.t σ) token s record s' t :
  AuthenticateHandler.validateAccessToken rt this token s = (inr record, s', t) ->
  t = [GetAccessToken token record]
  /\ truthy record = true
  /\ truthy (prop record "user") = true
  /\ exists e, prop record "accessTokenExpiresAt" = JDate e /\ Runtime.now rt s <= e.
Proof.
  unfold AuthenticateHandler.validateAccessToken.
  cbv beta iota zeta delta [bind lift ret throw throw_if Date_now js_not await get].
  destruct (Model.getAccessToken _ token s) as [g s1].
  destruct (truthy g) eqn:E1; cbn [negb]; [|discriminate].
  rewrite (truthy_not_nullish _ E1).
  destruct (truthy (prop g "user")) eqn:E2; cbn [negb]; [|discriminate].
  destruct (prop g "accessTokenExpiresAt") eqn:E3; cbn [instanceofDate negb getTime];
    try discriminate.
  destruct (t0 <? Runtime.now rt s) eqn:E4; [discriminate|].
  intros H. injection H as <- _ <-. rewrite E1, E2, E3. repeat split.
  exists t0. split; [reflexivity | apply Z.ltb_ge, E4].
Qed.

Lemma verifyAccessTokenScope_inv (this : AuthenticateHandler.t σ) record s sc s' t :
  AuthenticateHandler.verifyAccessTokenScope this record s = (inr sc, s', t) ->
  t = [VerifyScope record (AuthenticateHandler.scope this) sc] /\ truthy sc = true.
Proof.
  unfold AuthenticateHandler.verifyAccessTokenScope.
  destruct (Model.verifyScope (AuthenticateHandler.model this)) as [f|]; [|discriminate].
  cbv beta iota zeta delta [bind lift ret throw throw_if js_not await].
  destruct (f record (AuthenticateHandler.scope this) s) as [g s1].
  destruct (truthy g) eqn:E; cbn [negb]; [|discriminate].
  intros H. injection H as <- _ <-. auto.
Qed.

Lemma setSuccessResponse_keeps (token scope a b : JsVal) (s : σ) resp r s' resp' t :
  AuthenticateResponse.setSuccessResponse token scope a b (s, resp)
  = (r, (s', resp'), t) ->
  s' = s /\ t = []
  /\ Response.status resp' = Response.status resp
  /\ Response.body resp' = Response.body resp.
Proof.
  unfold AuthenticateResponse.setSuccessResponse.
  destruct (truthy scope && truthy a), (truthy scope && truthy b);
    cbv beta iota zeta delta [bind lift ret throw setHeader modifyResponse get fst snd app];
    try destruct (nullish token);
    intros H; injection H as <- <- <- <-; repeat split.
Qed.

(** X20.  Bearer authentication succeeds only with a token taken from the
    request for which [getAccessToken], the first call to the Model,
    returned a truthy record with a truthy [user], the value returned, and
    a Date expiry not earlier than the current time; when a scope is
    required, [verifyScope] was then called on that record with the
    required scope and returned a truthy value, and without a required scope
    no other call is made.  Success leaves the status and the body of the
    response as they were. *)
Theorem X20_bearer_authentication_sound
        (this : AuthenticateHandler.t σ) (request : Request.t)
        (s s' : σ) (resp resp' : Response.t) (user : JsVal) (t : list Call) :
  AuthenticateHandler.execute rt this request (s, resp) = (inr user, (s', resp'), t) ->
  exists token record,
    AuthenticateRequest.new request
      (default_to (JBool false) (AuthenticateHandler.allowBearerTokensInQueryString this))
    = inr token
    /\ truthy record = true
    /\ user = prop record "user" /\ truthy user = true
    /\ (exists e, prop record "accessTokenExpiresAt" = JDate e /\ Runtime.now rt s <= e)
    /\ (if truthy (AuthenticateHandler.scope this)
        then exists sc,
               t = [GetAccessToken token record;
                    VerifyScope record (AuthenticateHandler.scope this) sc]
               /\ truthy sc = true
        else t = [GetAccessToken token record])
    /\ Response.status resp' = Response.status resp
    /\ Response.body resp' = Response.body resp.
Proof.
  unfold AuthenticateHandler.execute, try_catch.
  match goal with |- context [match ?m (s, resp) with _ => _ end] =>
    destruct (m (s, resp)) as [[[e0|a] [s1 resp1]] t1] eqn:Hm
  end.
  { unfold bind at 1.
    destruct (AuthenticateResponse.setErrorResponse e0 (s1, resp1)) as [[[e1|[]] st] t2];
      unfold throw; discriminate. }
  intros H. injection H as -> <- <- <-.
  apply bind_cases in Hm as [(e & _ & E) | (token & [s2 r2] & t2 & t3 & H1 & Hm & ->)];
    [discriminate E|].
  apply lift_inr in H1 as (Hreq & E & ->). injection E as -> ->. cbn [app].
  apply bind_cases in Hm as [(e & _ & E) | (record & [s3 r3] & t4 & t5 & H1 & Hm & ->)];
    [discriminate E|].
  apply liftH_inv in H1 as [H1 ->].
  apply validateAccessToken_inv in H1 as (-> & Hrec & Huser & Hexp).
  apply bind_cases in Hm as [(e & _ & E) | ([] & [s4 r4] & t6 & t7 & H1 & Hm & ->)];
    [discriminate E|].
  apply bind_cases in Hm as [(e & _ & E) | ([] & [s5 r5] & t8 & t9 & H2 & Hm & ->)];
    [discriminate E|].
  apply setSuccessResponse_keeps in H2 as (-> & -> & Hst & Hbody).
  apply lift_inr in Hm as (Hget & E & ->). injection E as -> ->.
  rewrite (get_truthy _ _ Hrec) in Hget. injection Hget as <-.
  exists token, record. split; [exact Hreq|]. split; [exact Hrec|].
  split; [reflexivity|]. split; [exact Huser|]. split; [exact Hexp|].
  destruct (truthy (AuthenticateHandler.scope this)) eqn:Hsc.
  - apply bind_cases in H1 as [(e & _ & E) | (sc & [s6 r6] & t10 & t11 & H1 & H3 & ->)];
      [discriminate E|].
    apply liftH_inv in H1 as [H1 ->].
    apply verifyAccessTokenScope_inv in H1 as (-> & Htsc).
    injection H3 as <- <- <-. cbn.
    split; [exists sc; split; [reflexivity | exact Htsc]|]. split; assumption.
  - injection H1 as <- <- <-. cbn.
    split; [reflexivity|]. split; assumption.
Qed.

End Bearer.

Lemma substring_all s : substring 0 (String.length s) s = s.
Proof. induction s as [|c r IH]; cbn; [reflexivity | now rewrite IH]. Qed.

Lemma take_nonspace_all s : no_space s = true -> AuthenticateRequest.take_nonspace s = s.
Proof.
  induction s as [|c r IH]; [reflexivity|].
  cbn [no_space AuthenticateRequest.take_nonspace].
  rewrite andb_true_iff, negb_true_iff. intros [Hc Hr]. now rewrite Hc, IH.
Qed.

Lemma space_width_space s : AuthenticateRequest.space_width (String " " s) = 1%nat.
Proof. destruct s; reflexivity. Qed.

Lemma bearer_match_header token :
  token <> "" -> no_space token = true ->
  AuthenticateRequest.bearer_match ("Bearer " ++ token) = Some token.
Proof.
  intros Hne Hns.
  assert (Hm : AuthenticateRequest.match_here ("Bearer " ++ token) = Some token).
  { unfold AuthenticateRequest.match_here.
    cbn [append String.prefix Ascii.eqb Bool.eqb String.length Nat.sub substring].
    replace (String.prefix "" token) with true by (destruct token; reflexivity).
    rewrite substring_all. cbv zeta. rewrite space_width_space.
    cbn [Nat.eqb String.length Nat.sub substring].
    rewrite Nat.sub_0_r, substring_all, (take_nonspace_all _ Hns).
    destruct token; [congruence | reflexivity]. }
  destruct token; [congruence|].
  cbn [append AuthenticateRequest.bearer_match] in *.
  now rewrite Hm.
Qed.

(** X21.  A request whose only token is the header [Authorization: Bearer
    t], for a non-empty [t] without white space, yields the token [t].  White
    space is the class [\s] of the pattern: the ASCII blanks and also the
    no-break space, the Unicode spaces, the line and paragraph separators and
    the byte order mark. *)
Theorem X21_bearer_header_round_trip
        (request : Request.t) (allow : JsVal) (token : string) :
  token <> "" -> no_space token = true ->
  Request.get request "Authorization" = JStr ("Bearer " ++ token) ->
  truthy (field (Request.query request) "access_token") = false ->
  truthy (field (Request.body request) "access_token") = false ->
  AuthenticateRequest.new request allow = inr (JStr token).
Proof.
  intros Hne Hns Hh Hq Hb. unfold AuthenticateRequest.new.
  rewrite Hh. cbn [truthy filter].
  assert (Ht : negb (("Bearer " ++ token) =? "")%string = true) by reflexivity.
  rewrite Ht, Hq, Hb. cbn [orb negb filter List.length Nat.ltb Nat.leb].
  now rewrite (bearer_match_header _ Hne Hns).
Qed.

Lemma X21_bearer_header_round_trip_witness :
  let nbsp := String (ascii_of_nat 194) (String (ascii_of_nat 160) EmptyString) in
  AuthenticateRequest.new (Demo.get_ [("authorization", JStr "Bearer A1")] [])
    (JBool false) = inr (JStr "A1")
  /\ no_space ("a" ++ nbsp ++ "b") = false
  /\ AuthenticateRequest.new
       (Demo.get_ [("authorization", JStr ("Bearer a" ++ nbsp ++ "b"))] [])
       (JBool false) = inr (JStr "a").
Proof.
  intros nbsp. split; [|split; reflexivity].
  apply (X21_bearer_header_round_trip
           (Demo.get_ [("authorization", JStr "Bearer A1")] []) (JBool false) "A1");
    [discriminate | reflexivity | reflexivity | reflexivity | reflexivity].
Defined.

(** X22.  A request whose only token is in the query string is refused
    unless [allowBearerTokensInQueryString] is truthy; a request whose only
    token is in the body is refused when its method is GET or when it is not
    a form. *)
Theorem X22_bearer_token_in_query_or_body (request : Request.t) (allow : JsVal) :
  truthy (Request.get request "Authorization") = false ->
  (truthy (field (Request.query request) "access_token") = true ->
   truthy (field (Request.body request) "access_token") = false ->
   AuthenticateRequest.new request allow
   = if truthy allow
     then inr (field (Request.query request) "access_token")
     else inl (OAuthError "invalid_request" 400
                 "Invalid request: do not send bearer tokens in query URLs"))
  /\ (truthy (field (Request.query request) "access_token") = false ->
      truthy (field (Request.body request) "access_token") = true ->
      AuthenticateRequest.new request allow
      = if (Request.method request =? "GET")%string
        then inl (OAuthError "invalid_request" 400
                    "Invalid request: token may not be passed in the body when using the GET verb")
        else if Request.is_form request
        then inr (field (Request.body request) "access_token")
        else inl (OAuthError "invalid_request" 400
                    "Invalid request: content must be application/x-www-form-urlencoded")).
Proof.
  intros Hh. split; intros Hq Hb; unfold AuthenticateRequest.new, js_not;
    cbn [filter]; rewrite Hh, Hq, Hb; cbn [orb negb List.length Nat.ltb Nat.leb].
  - destruct (truthy allow); reflexivity.
  - destruct (Request.method request =? "GET")%string; [reflexivity|].
    destruct (Request.is_form request); reflexivity.
Qed.

Lemma X22_bearer_token_in_query_or_body_witness :
  AuthenticateRequest.new (Demo.get_ [] [("access_token", JStr "A1")]) (JBool false)
  = inl (OAuthError "invalid_request" 400
           "Invalid request: do not send bearer tokens in query URLs")
  /\ AuthenticateRequest.new (Demo.post [("access_token", JStr "A1")]) (JBool false)
     = inr (JStr "A1").
Proof.
  split.
  - apply (proj1 (X22_bearer_token_in_query_or_body
                    (Demo.get_ [] [("access_token", JStr "A1")]) (JBool false) eq_refl));
      reflexivity.
  - apply (proj2 (X22_bearer_token_in_query_or_body
                    (Demo.post [("access_token", JStr "A1")]) (JBool false) eq_refl));
      reflexivity.
Defined.

Section BearerErrors.
Context {σ : Type} (rt : Runtime.t σ).

(** X23.  Whenever bearer authentication fails, the response carries the
    error as JSON with the status of the error, an error that is not an
    [OAuthError] being reported as [server_error] with status 500; the
    [WWW-Authenticate: Bearer] challenge is added for
    [unauthorized_request].  The error thrown is the original one. *)
Theorem X23_bearer_error_response
        (this : AuthenticateHandler.t σ) (request : Request.t)
        (s s' : σ) (resp resp' : Response.t) (e : JsError) (t : list Call) :
  AuthenticateHandler.execute rt this request (s, resp) = (inl e, (s', resp'), t) ->
  Response.body resp' = error_body (wire_error e)
  /\ err_status (wire_error e) = JNum (Response.status resp')
  /\ ((err_name e =? "unauthorized_request")%string = true ->
      Response.get resp' "WWW-Authenticate"
      = JStr ("Bearer realm=" ++ dquote ++ "Service" ++ dquote)).
Proof.
  unfold AuthenticateHandler.execute, try_catch.
  match goal with |- context [match ?m (s, resp) with _ => _ end] =>
    destruct (m (s, resp)) as [[[e0|a] [s1 resp1]] t1]
  end; [|discriminate].
  unfold AuthenticateResponse.setErrorResponse. fold (wire_error e0).
  destruct (wire_error_status e0) as [n Hn]. rewrite Hn.
  destruct (err_name e0 =? "unauthorized_request")%string eqn:En;
    cbv beta iota zeta delta [bind ret throw setHeader setBody setStatus
                              modifyResponse fst snd app];
    intros H; injection H as <- <- <- <-; rewrite En;
    cbn [Response.status Response.body Response.setStatus Response.setBody];
    (split; [reflexivity|]); (split; [exact Hn|]); [|discriminate].
  intros _. rewrite Response_get_setStatus, Response_get_setBody.
  apply Response_get_set.
Qed.

End BearerErrors.

Lemma X20_bearer_authentication_sound_witness :
  let this := Demo.bearer
                (Demo.answers JUndefined
                   (Demo.tokenRecord Demo.c1 [("accessTokenExpiresAt", JDate 5000)])
                   JUndefined) in
  let request := Demo.get_ [("authorization", JStr "Bearer A1")] [] in
  let run := AuthenticateHandler.execute Demo.rt this request
               (Demo.s0, Response.fresh) in
  outcome_of run = inr Demo.alice
  /\ exists token record,
       AuthenticateRequest.new request (JBool false) = inr token
       /\ truthy record = true
       /\ Demo.alice = prop record "user" /\ truthy Demo.alice = true
       /\ (exists e, prop record "accessTokenExpiresAt" = JDate e /\ 1000 <= e)
       /\ snd run = [GetAccessToken token record]
       /\ Response.status (response_of run) = 200
       /\ Response.body (response_of run) = JObj [].
Proof.
  intros this request run. split; [reflexivity|].
  exact (X20_bearer_authentication_sound Demo.rt this request Demo.s0
           (fst (snd (fst run))) Response.fresh (response_of run) Demo.alice
           (snd run) eq_refl).
Defined.

Lemma X23_bearer_error_response_witness :
  let this := Demo.bearer (Demo.answers JUndefined JUndefined JUndefined) in
  let run := AuthenticateHandler.execute Demo.rt this (Demo.get_ [] [])
               (Demo.s0, Response.fresh) in
  let e := OAuthError "unauthorized_request" 401
             "Unauthorized request: no authentication given" in
  outcome_of run = inl e
  /\ Response.body (response_of run) = error_body e
  /\ JNum 401 = JNum (Response.status (response_of run))
  /\ Response.get (response_of run) "WWW-Authenticate"
     = JStr ("Bearer realm=" ++ dquote ++ "Service" ++ dquote).
Proof.
  intros this run e. split; [reflexivity|].
  destruct (X23_bearer_error_response Demo.rt this (Demo.get_ [] []) Demo.s0
              (fst (snd (fst run))) Response.fresh (response_of run) e (snd run)
              eq_refl) as (H1 & H2 & H3).
  split; [exact H1|]. split; [exact H2|]. exact (H3 eq_refl).
Defined.

(* ------------------------------------------------------------------ *)
(** ** Introspection *)

Section IntrospectionResult.
Context {σ : Type} (rt : Runtime.t σ).

Lemma introspect_authenticateClient_inv (this : IntrospectHandler.t σ) rr s client s1 t :
  IntrospectHandler.authenticateClient this rr s = (inr client, s1, t) ->
  Model.getClient (IntrospectHandler.model this)
    (IntrospectRequest.clientId rr) (IntrospectRequest.clientSecret rr) s
  = (client, s1)
  /\ truthy client = true
  /\ t = [GetClient (IntrospectRequest.clientId rr)
                    (IntrospectRequest.clientSecret rr) client].
Proof.
  unfold IntrospectHandler.authenticateClient.
  cbv beta iota zeta delta [bind lift ret throw throw_if js_not await].
  destruct (Model.getClient _ _ _ s) as [g s2].
  destruct (truthy g) eqn:E; cbn [negb]; [|discriminate].
  intros H. injection H as <- <- <-. auto.
Qed.

Lemma introspect_verifyToken_inv (this : IntrospectHandler.t σ) rr client s v s2 t :
  truthy client = true ->
  IntrospectHandler.verifyToken this rr client s = (inr v, s2, t) ->
  exists tok,
    load_token (IntrospectHandler.model this) (IntrospectRequest.tokenHint rr)
      (IntrospectRequest.token rr) s = (tok, s2)
    /\ t = [load_event (IntrospectRequest.tokenHint rr)
              (IntrospectRequest.token rr) tok]
    /\ v = (if truthy tok && issued_to tok client then tok else JBool false).
Proof.
  intros Hc H.
  destruct (load_token (IntrospectHandler.model this) (IntrospectRequest.tokenHint rr)
              (IntrospectRequest.token rr) s) as [tok s1] eqn:Hload.
  rewrite (verifyToken_load _ _ _ _ _ _ Hload) in H. unfold issued_to.
  destruct (truthy tok) eqn:Ht; cbn [andb].
  - rewrite (get_truthy _ _ Ht), (get_truthy _ _ Hc) in H.
    cbv beta iota zeta delta [bind lift ret throw get] in H.
    destruct (nullish (prop tok "client")); [discriminate H|].
    injection H as <- <- <-. exists tok. rewrite Ht. repeat split.
  - injection H as <- <- <-. exists tok. rewrite Ht. repeat split.
Qed.

Lemma composeIntrospectResult_inv rr tok s v s' t :
  truthy tok = true ->
  IntrospectHandler.composeIntrospectResult rt rr tok s = (inr v, s', t) ->
  s' = s /\ t = []
  /\ exists e,
       prop tok (hinted_expiry (IntrospectRequest.tokenHint rr)) = JDate e
       /\ v = (if e <? Runtime.now rt s then inactive_result
               else active_result tok (JDate e)).
Proof.
  intros Ht. unfold IntrospectHandler.composeIntrospectResult, js_not.
  rewrite Ht. cbn [negb]. rewrite (hinted_get _ _ Ht).
  cbv beta iota zeta delta [bind lift ret throw Date_now].
  destruct (prop tok (hinted_expiry _)) eqn:He; cbn [getTime]; try discriminate.
  destruct (t0 <? Runtime.now rt s) eqn:Elt.
  - intros H. injection H as <- <- <-.
    split; [reflexivity|]. split; [reflexivity|].
    exists t0. split; [reflexivity|]. now rewrite Elt.
  - unfold get. rewrite (truthy_not_nullish _ Ht).
    destruct (nullish (prop tok "client")); [discriminate|].
    destruct (nullish (prop tok "user")); [discriminate|].
    intros H. injection H as <- <- <-.
    split; [reflexivity|]. split; [reflexivity|].
    exists t0. split; [reflexivity|]. now rewrite Elt.
Qed.

(** X24.  An introspection that is answered makes two calls to the Model:
    the lookup of the client, which is truthy, and the lookup of the token
    by its hint.  A token that is unknown or was issued to another client is
    reported as [{active: false}]; a token of the client is reported active,
    with its client id, user name, scope and expiry, unless its expiry
    (a Date) is earlier than the current time, in which case it is reported
    as [{active: false}] as well.  The answer is marked as not to be stored
    and the status of the response is left as it was. *)
Theorem X24_introspection_result
        (this : IntrospectHandler.t σ) (request : Request.t)
        (s s' : σ) (resp resp' : Response.t) (t : list Call) :
  IntrospectHandler.execute rt this request (s, resp) = (inr tt, (s', resp'), t) ->
  exists rr client tok s1,
    IntrospectRequest.new request
      (default_to (JBool true) (IntrospectHandler.isClientSecretRequired this))
    = inr rr
    /\ Model.getClient (IntrospectHandler.model this)
         (IntrospectRequest.clientId rr) (IntrospectRequest.clientSecret rr) s
       = (client, s1)
    /\ truthy client = true
    /\ load_token (IntrospectHandler.model this) (IntrospectRequest.tokenHint rr)
         (IntrospectRequest.token rr) s1 = (tok, s')
    /\ t = [GetClient (IntrospectRequest.clientId rr)
                      (IntrospectRequest.clientSecret rr) client;
            load_event (IntrospectRequest.tokenHint rr)
                       (IntrospectRequest.token rr) tok]
    /\ (if truthy tok && issued_to tok client
        then exists e,
               prop tok (hinted_expiry (IntrospectRequest.tokenHint rr)) = JDate e
               /\ Response.body resp'
                  = (if e <? Runtime.now rt s' then inactive_result
                     else active_result tok (JDate e))
        else Response.body resp' = inactive_result)
    /\ Response.get resp' "Cache-Control" = JStr "no-store"
    /\ Response.get resp' "Pragma" = JStr "no-cache"
    /\ Response.status resp' = Response.status resp.
Proof.
  unfold IntrospectHandler.execute, try_catch.
  match goal with |- context [match ?m (s, resp) with _ => _ end] =>
    destruct (m (s, resp)) as [[[e0|a] [s1 resp1]] t1] eqn:Hm
  end.
  { unfold bind at 1.
    destruct (IntrospectResponse.setErrorResponse e0 _ (s1, resp1)) as [[[e1|[]] st] t2];
      unfold throw; discriminate. }
  intros H. injection H as -> <- <- <-.
  apply bind_cases in Hm as [(e & _ & E) | (rr & [s2 r2] & t2 & t3 & H1 & Hm & ->)];
    [discriminate E|].
  apply lift_inr in H1 as (Hreq & E & ->). injection E as -> ->. cbn [app].
  apply bind_cases in Hm as [(e & _ & E) | (client & [s3 r3] & t4 & t5 & H1 & Hm & ->)];
    [discriminate E|].
  apply liftH_inv in H1 as [H1 ->].
  apply introspect_authenticateClient_inv in H1 as (Hclient & Hc & ->).
  apply bind_cases in Hm as [(e & _ & E) | (v & [s4 r4] & t6 & t7 & H1 & Hm & ->)];
    [discriminate E|].
  apply liftH_inv in H1 as [H1 ->].
  apply (introspect_verifyToken_inv _ _ _ _ _ _ _ Hc) in H1 as (tok & Hload & -> & ->).
  apply bind_cases in Hm as [(e & _ & E) | (res & [s5 r5] & t8 & t9 & H1 & Hm & ->)];
    [discriminate E|].
  apply liftH_inv in H1 as [H1 ->].
  unfold IntrospectResponse.setSuccessResponse in Hm.
  cbv beta iota zeta delta [bind setHeader setBody modifyResponse fst snd app] in Hm.
  injection Hm as <- <- <-.
  assert (Hhead : Response.get
                    (Response.setBody
                       (Response.set
                          (Response.set resp "Cache-Control" (JStr "no-store"))
                          "Pragma" (JStr "no-cache")) res) "Cache-Control"
                  = JStr "no-store"
                  /\ Response.get
                       (Response.setBody
                          (Response.set
                             (Response.set resp "Cache-Control" (JStr "no-store"))
                             "Pragma" (JStr "no-cache")) res) "Pragma"
                     = JStr "no-cache").
  { rewrite !Response_get_setBody. split.
    - rewrite Response_get_set_other by (vm_compute; discriminate).
      apply Response_get_set.
    - apply Response_get_set. }
  destruct Hhead as [Hh1 Hh2].
  exists rr, client, tok, s3.
  destruct (truthy tok && issued_to tok client) eqn:Hok.
  - apply andb_true_iff in Hok as [Ht _].
    apply (composeIntrospectResult_inv _ _ _ _ _ _ Ht) in H1 as (-> & -> & e & He & ->).
    repeat (split; [first [assumption | reflexivity]|]).
    split; [exists e; split; [exact He | reflexivity]|].
    repeat split; assumption.
  - unfold IntrospectHandler.composeIntrospectResult in H1. cbn in H1.
    injection H1 as <- <- <-.
    repeat (split; [first [assumption | reflexivity]|]).
    repeat split; assumption.
Qed.

End IntrospectionResult.

Lemma X24_introspection_result_witness :
  let this := Demo.introspect
                (Demo.answers JUndefined
                   (Demo.tokenRecord Demo.c2 [("accessTokenExpiresAt", JDate 5000)])
                   JUndefined) in
  let request := Demo.post [("client_id", JStr "c1"); ("client_secret", JStr "s");
                            ("token", JStr "A1"); ("token_hint", JStr "access_token")] in
  let run := IntrospectHandler.execute Demo.rt this request
               (Demo.s0, Response.fresh) in
  outcome_of run = inr tt
  /\ Response.body (response_of run) = JObj [("active", JBool false)]
  /\ exists rr client tok s1,
       IntrospectRequest.new request (JBool true) = inr rr
       /\ Model.getClient (IntrospectHandler.model this)
            (IntrospectRequest.clientId rr) (IntrospectRequest.clientSecret rr) Demo.s0
          = (client, s1)
       /\ truthy client = true
       /\ load_token (IntrospectHandler.model this) (IntrospectRequest.tokenHint rr)
            (IntrospectRequest.token rr) s1 = (tok, Demo.s0)
       /\ snd run = [GetClient (IntrospectRequest.clientId rr)
                               (IntrospectRequest.clientSecret rr) client;
                     load_event (IntrospectRequest.tokenHint rr)
                                (IntrospectRequest.token rr) tok]
       /\ (if truthy tok && issued_to tok client
           then exists e,
                  prop tok (hinted_expiry (IntrospectRequest.tokenHint rr)) = JDate e
                  /\ Response.body (response_of run)
                     = (if e <? 1000 then inactive_result
                        else active_result tok (JDate e))
           else Response.body (response_of run) = inactive_result)
       /\ Response.get (response_of run) "Cache-Control" = JStr "no-store"
       /\ Response.get (response_of run) "Pragma" = JStr "no-cache"
       /\ Response.status (response_of run) = 200.
Proof.
  intros this request run. split; [reflexivity|]. split; [reflexivity|].
  exact (X24_introspection_result Demo.rt this request Demo.s0 Demo.s0
           Response.fresh (response_of run) (snd run) eq_refl).
Defined.

(* ------------------------------------------------------------------ *)
(** ** The authorization endpoint *)

Section Authorize.
Context {σ : Type} (rt : Runtime.t σ).

Lemma validateClient_inv
        (this : AuthorizeHandler.t σ) (ar : AuthorizationRequest.t)
        (s : σ) (client : JsVal) (s' : σ) (t : list Call) :
  AuthorizeHandler.validateClient this ar s = (inr client, s', t) ->
  t = [GetClient (AuthorizationRequest.clientId ar) JUndefined client]
  /\ truthy client = true
  /\ (strict_eq (AuthorizationRequest.responseType ar) (JStr "code") = true ->
      includes "client.grants" (prop client "grants") (JStr "authorization_code")
      = inr true)
  /\ (strict_eq (AuthorizationRequest.responseType ar) (JStr "token") = true ->
      includes "client.grants" (prop client "grants") (JStr "implicit") = inr true)
  /\ truthy (prop client "redirectUris") = true
  /\ length_is_zero (prop client "redirectUris") = false
  /\ (truthy (AuthorizationRequest.redirectUri ar) = true ->
      includes "client.redirectUris" (prop client "redirectUris")
        (AuthorizationRequest.redirectUri ar) = inr true).
Proof.
  unfold AuthorizeHandler.validateClient.
  cbv beta iota zeta delta [bind lift ret throw throw_if js_not await get].
  destruct (Model.getClient _ _ _ s) as [g s1].
  destruct (truthy g) eqn:E1; cbn [negb]; [|discriminate].
  rewrite (truthy_not_nullish _ E1).
  destruct (truthy (prop g "grants")) eqn:E2; cbn [negb]; [|discriminate].
  destruct (strict_eq (AuthorizationRequest.responseType ar) (JStr "code")) eqn:Ec.
  - destruct (includes "client.grants" (prop g "grants") (JStr "authorization_code"))
      as [e|[]] eqn:Ei; cbn [negb]; try discriminate.
    destruct (strict_eq (AuthorizationRequest.responseType ar) (JStr "token")) eqn:Et.
    + destruct (includes "client.grants" (prop g "grants") (JStr "implicit"))
        as [e|[]] eqn:Ej; cbn [negb]; try discriminate.
      destruct (truthy (prop g "redirectUris")) eqn:E3; cbn [negb orb]; [|discriminate].
      destruct (length_is_zero (prop g "redirectUris")) eqn:E4; [discriminate|].
      destruct (truthy (AuthorizationRequest.redirectUri ar)) eqn:E5.
      * destruct (includes "client.redirectUris" _ _) as [e|[]] eqn:Ek; cbn [negb];
          try discriminate.
        intros H. injection H as <- <- <-. rewrite E1, E3, E4. repeat split; auto.
      * intros H. injection H as <- <- <-. rewrite E1, E3, E4.
        repeat split; auto; discriminate.
    + destruct (truthy (prop g "redirectUris")) eqn:E3; cbn [negb orb]; [|discriminate].
      destruct (length_is_zero (prop g "redirectUris")) eqn:E4; [discriminate|].
      destruct (truthy (AuthorizationRequest.redirectUri ar)) eqn:E5.
      * destruct (includes "client.redirectUris" _ _) as [e|[]] eqn:Ek; cbn [negb];
          try discriminate.
        intros H. injection H as <- <- <-. rewrite E1, E3, E4.
        repeat split; auto; discriminate.
      * intros H. injection H as <- <- <-. rewrite E1, E3, E4.
        repeat split; auto; discriminate.
  - destruct (strict_eq (AuthorizationRequest.responseType ar) (JStr "token")) eqn:Et.
    + destruct (includes "client.grants" (prop g "grants") (JStr "implicit"))
        as [e|[]] eqn:Ej; cbn [negb]; try discriminate.
      destruct (truthy (prop g "redirectUris")) eqn:E3; cbn [negb orb]; [|discriminate].
      destruct (length_is_zero (prop g "redirectUris")) eqn:E4; [discriminate|].
      destruct (truthy (AuthorizationRequest.redirectUri ar)) eqn:E5.
      * destruct (includes "client.redirectUris" _ _) as [e|[]] eqn:Ek; cbn [negb];
          try discriminate.
        intros H. injection H as <- <- <-. rewrite E1, E3, E4.
        repeat split; auto; discriminate.
      * intros H. injection H as <- <- <-. rewrite E1, E3, E4.
        repeat split; auto; discriminate.
    + destruct (truthy (prop g "redirectUris")) eqn:E3; cbn [negb orb]; [|discriminate].
      destruct (length_is_zero (prop g "redirectUris")) eqn:E4; [discriminate|].
      destruct (truthy (AuthorizationRequest.redirectUri ar)) eqn:E5.
      * destruct (includes "client.redirectUris" _ _) as [e|[]] eqn:Ek; cbn [negb];
          try discriminate.
        intros H. injection H as <- <- <-. rewrite E1, E3, E4.
        repeat split; auto; discriminate.
      * intros H. injection H as <- <- <-. rewrite E1, E3, E4.
        repeat split; auto; discriminate.
Qed.

(** X25.  The authorization endpoint looks the client up by its id alone,
    with one call to the Model, and accepts it only when it is truthy, when
    its [grants] include [authorization_code] for the response type [code]
    and [implicit] for the response type [token], when it has registered
    redirect URIs, and when these include the redirect URI of the request
    ([includes] is membership on an array and a substring search on a
    string). *)
Theorem X25_authorize_client_validation
        (this : AuthorizeHandler.t σ) (ar : AuthorizationRequest.t)
        (s : σ) (client : JsVal) (s' : σ) (t : list Call) :
  AuthorizeHandler.validateClient this ar s = (inr client, s', t) ->
  t = [GetClient (AuthorizationRequest.clientId ar) JUndefined client]
  /\ truthy client = true
  /\ (strict_eq (AuthorizationRequest.responseType ar) (JStr "code") = true ->
      includes "client.grants" (prop client "grants") (JStr "authorization_code")
      = inr true)
  /\ (strict_eq (AuthorizationRequest.responseType ar) (JStr "token") = true ->
      includes "client.grants" (prop client "grants") (JStr "implicit") = inr true)
  /\ truthy (prop client "redirectUris") = true
  /\ length_is_zero (prop client "redirectUris") = false
  /\ (truthy (AuthorizationRequest.redirectUri ar) = true ->
      includes "client.redirectUris" (prop client "redirectUris")
        (AuthorizationRequest.redirectUri ar) = inr true).
Proof. apply validateClient_inv. Qed.

End Authorize.

Section AuthorizeResponses.
Context {σ : Type} (rt : Runtime.t σ).





End AuthorizeResponses.

Lemma AuthorizationRequest_inv request allowEmptyState ar :
  AuthorizationRequest.new request allowEmptyState = inr ar ->
  strict_eq (JStr "false") (field (Request.query request) "allowed") = false
  /\ ar = {| AuthorizationRequest.responseType :=
               AuthorizationRequest.param request "response_type";
             AuthorizationRequest.redirectUri := requested_redirect_uri request;
             AuthorizationRequest.clientId :=
               AuthorizationRequest.param request "client_id";
             AuthorizationRequest.scope := AuthorizationRequest.param request "scope";
             AuthorizationRequest.state := AuthorizationRequest.param request "state" |}
  /\ (AuthorizationRequest.responseType ar = JStr "code"
      \/ AuthorizationRequest.responseType ar = JStr "token")
  /\ Is.uri (AuthorizationRequest.redirectUri ar) = true
  /\ truthy (AuthorizationRequest.clientId ar) = true
  /\ Is.vschar (AuthorizationRequest.clientId ar) = true
  /\ Is.nqschar (AuthorizationRequest.scope ar) = true
  /\ Is.vschar (AuthorizationRequest.state ar) = true
  /\ (truthy allowEmptyState = false ->
      truthy (AuthorizationRequest.state ar) = true).
Proof.
  unfold AuthorizationRequest.new, requested_redirect_uri, js_not. intros H.
  fold (AuthorizationRequest.param request "redirect_uri") in *.
  destruct (strict_eq (JStr "false") _) eqn:E0; [discriminate H|].
  destruct (truthy (AuthorizationRequest.param request "response_type")) eqn:E1;
    cbn [negb] in H; [|discriminate H].
  destruct (strict_eq (AuthorizationRequest.param request "response_type") (JStr "code")
            || strict_eq (AuthorizationRequest.param request "response_type")
                 (JStr "token")) eqn:E2; cbn [negb] in H; [|discriminate H].
  destruct (truthy (AuthorizationRequest.param request "redirect_uri")) eqn:E3;
    cbn [negb andb] in H; [|discriminate H].
  destruct (Is.uri (AuthorizationRequest.param request "redirect_uri")) eqn:E4;
    cbn [negb] in H; [|discriminate H].
  destruct (truthy (AuthorizationRequest.param request "client_id")) eqn:E5;
    cbn [negb] in H; [|discriminate H].
  destruct (Is.vschar (AuthorizationRequest.param request "client_id")) eqn:E6;
    cbn [negb] in H; [|discriminate H].
  destruct (Is.nqschar (AuthorizationRequest.param request "scope")) eqn:E7;
    cbn [negb] in H; [|discriminate H].
  destruct (negb (truthy allowEmptyState)
            && negb (truthy (AuthorizationRequest.param request "state"))) eqn:E8;
    [discriminate H|].
  destruct (Is.vschar (AuthorizationRequest.param request "state")) eqn:E9;
    cbn [negb] in H; [|discriminate H].
  injection H as <-. cbn.
  split; [reflexivity|]. split; [reflexivity|].
  split.
  { apply orb_true_iff in E2 as [E|E]; apply strict_eq_JStr in E; auto. }
  repeat (split; [assumption|]).
  intros Ha. rewrite Ha in E8. cbn [negb andb] in E8. now apply negb_false_iff in E8.
Qed.

(** X28.  An authorization request that is accepted was not denied by the
    user ([allowed=false]); each of its parameters is read from the body
    and, when the body has none, from the query string; its response type is
    [code] or [token]; its redirect URI has the form of a URI; its client id
    is non-empty and printable; its scope and its state are made of the
    characters allowed for them, and the state is there unless empty states
    are allowed. *)
Theorem X28_authorization_request_accepted
        (request : Request.t) (allowEmptyState : JsVal) (ar : AuthorizationRequest.t) :
  AuthorizationRequest.new request allowEmptyState = inr ar ->
  strict_eq (JStr "false") (field (Request.query request) "allowed") = false
  /\ ar = {| AuthorizationRequest.responseType :=
               AuthorizationRequest.param request "response_type";
             AuthorizationRequest.redirectUri := requested_redirect_uri request;
             AuthorizationRequest.clientId :=
               AuthorizationRequest.param request "client_id";
             AuthorizationRequest.scope := AuthorizationRequest.param request "scope";
             AuthorizationRequest.state := AuthorizationRequest.param request "state" |}
  /\ (AuthorizationRequest.responseType ar = JStr "code"
      \/ AuthorizationRequest.responseType ar = JStr "token")
  /\ Is.uri (AuthorizationRequest.redirectUri ar) = true
  /\ truthy (AuthorizationRequest.clientId ar) = true
  /\ Is.vschar (AuthorizationRequest.clientId ar) = true
  /\ Is.nqschar (AuthorizationRequest.scope ar) = true
  /\ Is.vschar (AuthorizationRequest.state ar) = true
  /\ (truthy allowEmptyState = false ->
      truthy (AuthorizationRequest.state ar) = true).
Proof. apply AuthorizationRequest_inv. Qed.

Lemma uri_truthy v : Is.uri v = true -> truthy v = true.
Proof.
  destruct v as [| |b|n|str|d|l|props]; try discriminate; try reflexivity.
  - destruct b; [reflexivity | discriminate].
  - cbn [truthy]. destruct (Z.eqb_spec n 0) as [->|]; [discriminate | reflexivity].
  - destruct str; [discriminate | reflexivity].
Qed.

Section AuthorizeSuccess.
Context {σ : Type} (rt : Runtime.t σ).

(** X30.  The authorization endpoint answers with a redirect, status 302
    and a [Location] header, only for an accepted request whose client the
    Model knows, with the grant of the response type among its [grants] and
    the redirect URI of the request among its registered redirect URIs. *)
Theorem X30_authorize_redirects_to_registered_uri
        (this : AuthorizeHandler.t σ) (request : Request.t)
        (s s' : σ) (resp resp' : Response.t) (t : list Call) :
  AuthorizeHandler.execute rt this request (s, resp) = (inr tt, (s', resp'), t) ->
  exists ar client,
    AuthorizationRequest.new request (AuthorizeHandler.allowEmptyState this) = inr ar
    /\ In (GetClient (AuthorizationRequest.clientId ar) JUndefined client) t
    /\ truthy client = true
    /\ includes "client.grants" (prop client "grants")
         (JStr (if strict_eq (AuthorizationRequest.responseType ar) (JStr "code")
                then "authorization_code" else "implicit")) = inr true
    /\ includes "client.redirectUris" (prop client "redirectUris")
         (requested_redirect_uri request) = inr true
    /\ Response.status resp' = 302
    /\ exists location, Response.get resp' "Location" = JStr location.
Proof.
  unfold AuthorizeHandler.execute, try_catch.
  match goal with |- context [match ?m (s, resp) with _ => _ end] =>
    destruct (m (s, resp)) as [[[e0|a] [s1 resp1]] t1] eqn:Hm
  end.
  { unfold bind at 1.
    destruct (AuthorizationResponse.setErrorResponse e0 _ (s1, resp1))
      as [[[e1|[]] st] t2]; unfold throw; discriminate. }
  intros H. injection H as -> <- <- <-.
  apply bind_cases in Hm as [(e & _ & E) | (ar & [s2 r2] & t2 & t3 & H1 & Hm & ->)];
    [discriminate E|].
  apply lift_inr in H1 as (Hreq & E & ->). injection E as -> ->. cbn [app].
  apply bind_cases in Hm as [(e & _ & E) | (user & [s3 r3] & t4 & t5 & H1 & Hm & ->)];
    [discriminate E|].
  clear H1.
  apply bind_cases in Hm as [(e & _ & E) | (client & [s4 r4] & t6 & t7 & H1 & Hm & ->)];
    [discriminate E|].
  apply liftH_inv in H1 as [H1 ->].
  apply validateClient_inv in H1 as (-> & Hc & Hcode & Htok & _ & _ & Huri).
  destruct (AuthorizationRequest_inv _ _ _ Hreq) as (_ & Har & Hrt & Hisuri & _).
  assert (Hru : AuthorizationRequest.redirectUri ar = requested_redirect_uri request)
    by (rewrite Har; reflexivity).
  pose proof (uri_truthy _ Hisuri) as Htru.
  apply bind_cases in Hm as [(e & _ & E) | (sc & [s5 r5] & t8 & t9 & H2 & Hm & ->)];
    [discriminate E|].
  apply bind_cases in Hm as [(e & _ & E) | (u & [s6 r6] & t10 & t11 & H3 & Hm & ->)];
    [discriminate E|].
  unfold AuthorizationResponse.setSuccessResponse in Hm.
  cbv beta iota zeta delta [bind setHeader setStatus modifyResponse fst snd app] in Hm.
  injection Hm as <- <- <-.
  exists ar, client. split; [exact Hreq|].
  split; [apply in_or_app; right; left; reflexivity|].
  split; [exact Hc|].
  split.
  { destruct Hrt as [E|E]; rewrite E in *; cbn [strict_eq String.eqb Ascii.eqb Bool.eqb]
      in *; [apply Hcode | apply Htok]; reflexivity. }
  split; [rewrite <- Hru; exact (Huri Htru)|].
  split; [reflexivity|].
  eexists. rewrite Response_get_setStatus. apply Response_get_set.
Qed.

End AuthorizeSuccess.

(** ** The options of the server *)

Lemma keys_assoc_set k v l k' :
  In k' (map fst (assoc_set k v l)) <-> k' = k \/ In k' (map fst l).
Proof.
  induction l as [|[k0 v0] l IH]; cbn.
  - intuition congruence.
  - destruct (k0 =? k)%string eqn:E; cbn.
    + apply String.eqb_eq in E. subst k0. intuition congruence.
    + rewrite IH. intuition congruence.
Qed.

Lemma assoc_set_NoDup k v l :
  NoDup (map fst l) -> NoDup (map fst (assoc_set k v l)).
Proof.
  induction l as [|[k0 v0] l IH]; cbn; intros Hd.
  - constructor; [intros [] | constructor].
  - apply NoDup_cons_iff in Hd as [Hk0 Hd].
    destruct (k0 =? k)%string eqn:E; cbn.
    + apply String.eqb_eq in E. subst k0. now constructor.
    + apply String.eqb_neq in E. constructor; [|auto].
      rewrite keys_assoc_set. intros [-> | Hin]; [congruence | contradiction].
Qed.

Lemma assoc_set_Forall (P : string * JsVal -> Prop) k v l :
  Forall P l -> P (k, v) -> Forall P (assoc_set k v l).
Proof.
  intros Hl Hp. induction Hl as [|[k0 v0] l H0 Hl IH]; cbn.
  - now constructor.
  - destruct (k0 =? k)%string; constructor; auto.
Qed.

Lemma assoc_In k v l : assoc k l = Some v -> In (k, v) l.
Proof.
  induction l as [|[k0 v0] l IH]; cbn; [discriminate|].
  destruct (k0 =? k)%string eqn:E.
  - apply String.eqb_eq in E. intros [= ->]. left. now subst.
  - auto.
Qed.

Lemma assoc_None_keys k l : assoc k l = None -> ~ In k (map fst l).
Proof.
  induction l as [|[k0 v0] l IH]; cbn; [tauto|].
  destruct (k0 =? k)%string eqn:E; [discriminate|].
  apply String.eqb_neq in E. intros Hn [-> | Hin]; [congruence|]. now apply IH.
Qed.

Section CleanOptions.
Variable options : list (string * JsVal).

Let step (acc : list (string * JsVal)) (key : string) : list (string * JsVal) :=
  match field options key with
  | JUndefined => acc
  | v =>
      let acc1 := assoc_set key v acc in
      let acc2 :=
        if OAuth2Server.reads_as v "true" then assoc_set key (JBool true) acc1
        else acc1 in
      if OAuth2Server.reads_as v "false" then assoc_set key (JBool false) acc2
      else acc2
  end.

Lemma reads_as_exclusive v :
  OAuth2Server.reads_as v "true" = true -> OAuth2Server.reads_as v "false" = false.
Proof.
  unfold OAuth2Server.reads_as. destruct (toStr v) as [s|]; [|discriminate].
  intros E. apply String.eqb_eq in E. now subst.
Qed.

Lemma cleaned_undefined v : cleaned v = JUndefined -> v = JUndefined.
Proof.
  unfold cleaned.
  destruct (OAuth2Server.reads_as v "true"); [discriminate|].
  destruct (OAuth2Server.reads_as v "false"); [discriminate|]. auto.
Qed.

Lemma step_same acc k :
  field (step acc k) k =
  match field options k with JUndefined => field acc k | v => cleaned v end.
Proof.
  unfold step, cleaned. destruct (field options k) eqn:Ef; try reflexivity;
    match goal with
    | |- context [OAuth2Server.reads_as ?v "true"] =>
        destruct (OAuth2Server.reads_as v "true") eqn:Et;
        [ rewrite (reads_as_exclusive _ Et) | ];
        try destruct (OAuth2Server.reads_as v "false") eqn:Ef'
    end; cbn zeta; now rewrite ?field_set_same.
Qed.

Lemma field_set_other k k' v l : k' <> k -> field (assoc_set k v l) k' = field l k'.
Proof. intros Hne. unfold field. now rewrite assoc_set_other. Qed.

Lemma step_other acc k0 k : k0 <> k -> field (step acc k0) k = field acc k.
Proof.
  intros Hne. unfold step.
  destruct (field options k0); try reflexivity; cbn zeta;
    repeat match goal with
           | |- context [if ?b then _ else _] => destruct b
           end;
    now rewrite ?field_set_other by congruence.
Qed.

Lemma step_keeps (P : string * JsVal -> Prop) acc k :
  (forall k v, v <> JUndefined -> P (k, v)) ->
  Forall P acc -> Forall P (step acc k).
Proof.
  intros HP Hacc. unfold step.
  destruct (field options k) eqn:Ef; try assumption; cbn zeta;
    repeat match goal with
           | |- context [if ?b then _ else _] => destruct b
           end;
    repeat (apply assoc_set_Forall; [|apply HP; discriminate]); assumption.
Qed.

Lemma step_NoDup acc k : NoDup (map fst acc) -> NoDup (map fst (step acc k)).
Proof.
  intros Hd. unfold step.
  destruct (field options k); try assumption; cbn zeta;
    repeat match goal with
           | |- context [if ?b then _ else _] => destruct b
           end;
    repeat apply assoc_set_NoDup; assumption.
Qed.

Lemma fold_step_field ks : forall acc k,
  field (fold_left step ks acc) k =
  if in_dec string_dec k ks
  then match field options k with JUndefined => field acc k | v => cleaned v end
  else field acc k.
Proof.
  induction ks as [|k0 ks IH]; intros acc k; [reflexivity|].
  cbn [fold_left]. rewrite IH.
  destruct (string_dec k0 k) as [-> | Hne].
  - rewrite step_same.
    destruct (in_dec string_dec k (k :: ks)) as [_ | Hn]; [|cbn in Hn; tauto].
    destruct (in_dec string_dec k ks); destruct (field options k); reflexivity.
  - rewrite (step_other _ _ _ Hne).
    destruct (in_dec string_dec k ks) as [Hin | Hn];
      destruct (in_dec string_dec k (k0 :: ks)) as [Hin' | Hn'];
      try reflexivity; cbn in *; tauto.
Qed.

Lemma fold_step_inv (P : list (string * JsVal) -> Prop) ks :
  (forall acc k, P acc -> P (step acc k)) ->
  forall acc, P acc -> P (fold_left step ks acc).
Proof.
  intros Hs. induction ks as [|k ks IH]; intros acc Hacc; cbn; auto.
Qed.

Lemma cleanOptions_field k :
  field (OAuth2Server.cleanOptions options) k = cleaned (field options k).
Proof.
  change (OAuth2Server.cleanOptions options)
    with (fold_left step (map fst options) []).
  rewrite fold_step_field.
  destruct (in_dec string_dec k (map fst options)) as [Hin | Hn].
  - destruct (field options k); reflexivity.
  - unfold field at 2. destruct (assoc k options) as [v|] eqn:Ea; [|reflexivity].
    apply assoc_In in Ea. exfalso. apply Hn.
    change k with (fst (k, v)). now apply in_map.
Qed.

Lemma cleanOptions_defined :
  Forall (fun kv => snd kv <> JUndefined) (OAuth2Server.cleanOptions options).
Proof.
  change (OAuth2Server.cleanOptions options)
    with (fold_left step (map fst options) []).
  apply fold_step_inv; [|constructor].
  intros acc k. apply step_keeps. auto.
Qed.

Lemma cleanOptions_NoDup : NoDup (map fst (OAuth2Server.cleanOptions options)).
Proof.
  change (OAuth2Server.cleanOptions options)
    with (fold_left step (map fst options) []).
  apply fold_step_inv; [|constructor].
  intros acc k. apply step_NoDup.
Qed.

(** [{ ...base, ...cleanOptions(options) }]: a cleaned option overrides the
    default, a missing one leaves it. *)
Lemma cleanOptions_spread base k :
  field (fold_left (fun obj kv => assoc_set (fst kv) (snd kv) obj)
           (OAuth2Server.cleanOptions options) base) k =
  match cleaned (field options k) with
  | JUndefined => field base k
  | v => v
  end.
Proof.
  rewrite <- cleanOptions_field.
  pose proof cleanOptions_NoDup as Hnd. pose proof cleanOptions_defined as Hd.
  set (c := OAuth2Server.cleanOptions options) in *.
  unfold field. destruct (assoc k c) as [v|] eqn:Ea.
  - pose proof (assoc_In _ _ _ Ea) as Hin.
    rewrite (spread_last k v c base Hnd Hin).
    rewrite Forall_forall in Hd. specialize (Hd _ Hin). cbn in Hd.
    destruct v; congruence.
  - rewrite (spread_other k c base (assoc_None_keys _ _ Ea)). reflexivity.
Qed.

End CleanOptions.

(** X29.  [OAuth2Server.cleanOptions] keeps every option but turns the
    values that read as the texts [true] and [false] into booleans, and drops
    the ones that are [undefined].  The introspection endpoint of the server
    therefore runs the handler with [isClientSecretRequired] as the cleaned
    option, or [true] when it is not given; without an options object it
    fails with a [TypeError] before any handler exists, leaving the response
    as it was and the Model uncalled. *)
Theorem X29_server_options {σ} (rt : Runtime.t σ) (this : OAuth2Server.t σ)
        (request : Request.t) :
  (forall o k, field (OAuth2Server.cleanOptions o) k = cleaned (field o k)) /\
  (forall o,
     OAuth2Server.introspect rt this request (Some o) =
     IntrospectHandler.execute rt
       {| IntrospectHandler.model := OAuth2Server.model this;
          IntrospectHandler.isClientSecretRequired :=
            default_to (JBool true) (cleaned (field o "isClientSecretRequired")) |}
       request) /\
  (forall s resp,
     OAuth2Server.introspect rt this request None (s, resp) =
     (inl OAuth2Server.keysOfNothing, (s, resp), [])).
Proof.
  split; [|split].
  - intros o k. apply cleanOptions_field.
  - intros o. unfold OAuth2Server.introspect. cbv zeta.
    rewrite cleanOptions_spread.
    destruct (cleaned (field o "isClientSecretRequired")); reflexivity.
  - reflexivity.
Qed.

Lemma X25_authorize_client_validation_witness :
  let this := Demo.authorize (Demo.answers JUndefined JUndefined JUndefined) in
  let ar := {| AuthorizationRequest.responseType := JStr "code";
               AuthorizationRequest.redirectUri := JStr "https://app/cb";
               AuthorizationRequest.clientId := JStr "c1";
               AuthorizationRequest.scope := JStr "read";
               AuthorizationRequest.state := JStr "xyz" |} in
  let run := AuthorizeHandler.validateClient this ar Demo.s0 in
  fst (fst run) = inr Demo.c1
  /\ snd run = [GetClient (JStr "c1") JUndefined Demo.c1]
  /\ includes "client.grants" (prop Demo.c1 "grants") (JStr "authorization_code")
     = inr true
  /\ includes "client.redirectUris" (prop Demo.c1 "redirectUris")
       (JStr "https://app/cb") = inr true.
Proof.
  intros this ar run. split; [reflexivity|].
  destruct (X25_authorize_client_validation this ar Demo.s0 Demo.c1 Demo.s0
              (snd run) eq_refl) as (Ht & _ & Hcode & _ & _ & _ & Huri).
  split; [exact Ht|]. split; [apply Hcode | apply Huri]; reflexivity.
Defined.



Lemma X28_authorization_request_accepted_witness :
  let request := authorize_query [("redirect_uri", JStr "https://app/cb")]
                   [("state", JStr "xyz")] in
  let ar := {| AuthorizationRequest.responseType := JStr "code";
               AuthorizationRequest.redirectUri := JStr "https://app/cb";
               AuthorizationRequest.clientId := JStr "c1";
               AuthorizationRequest.scope := JStr "read";
               AuthorizationRequest.state := JStr "xyz" |} in
  AuthorizationRequest.new request (JBool false) = inr ar
  /\ Is.uri (AuthorizationRequest.redirectUri ar) = true
  /\ Is.vschar (AuthorizationRequest.clientId ar) = true
  /\ Is.nqschar (AuthorizationRequest.scope ar) = true
  /\ Is.vschar (AuthorizationRequest.state ar) = true
  /\ truthy (AuthorizationRequest.state ar) = true.
Proof.
  intros request ar. split; [reflexivity|].
  destruct (X28_authorization_request_accepted request (JBool false) ar eq_refl)
    as (_ & _ & _ & Huri & _ & Hid & Hscope & Hstate & Hthere).
  repeat (split; [assumption|]). apply Hthere. reflexivity.
Defined.

Lemma X30_authorize_redirects_to_registered_uri_witness :
  let this := Demo.authorize (Demo.answers JUndefined JUndefined JUndefined) in
  let request := authorize_query [("redirect_uri", JStr "https://app/cb")]
                   [("state", JStr "xyz")] in
  let run := AuthorizeHandler.execute Demo.rt this request
               (Demo.s0, Response.fresh) in
  outcome_of run = inr tt
  /\ Response.get (response_of run) "Location"
     = JStr "https://app/cb?code=random0&scope=read&state=xyz"
  /\ exists ar client,
       AuthorizationRequest.new request (AuthorizeHandler.allowEmptyState this) = inr ar
       /\ In (GetClient (AuthorizationRequest.clientId ar) JUndefined client) (snd run)
       /\ truthy client = true
       /\ includes "client.grants" (prop client "grants")
            (JStr (if strict_eq (AuthorizationRequest.responseType ar) (JStr "code")
                   then "authorization_code" else "implicit")) = inr true
       /\ includes "client.redirectUris" (prop client "redirectUris")
            (requested_redirect_uri request) = inr true
       /\ Response.status (response_of run) = 302
       /\ exists location, Response.get (response_of run) "Location" = JStr location.
Proof.
  intros this request run. split; [reflexivity|]. split; [reflexivity|].
  exact (X30_authorize_redirects_to_registered_uri Demo.rt this request Demo.s0
           (fst (snd (fst run))) Response.fresh (response_of run) (snd run) eq_refl).
Defined.
